(** * SendGrid-CLI: the [cmd] package (address parsing, body negotiation,
      message assembly) as a shallow embedding.

    The embedded program is the latest revision of [cmd/root.go] (the one
    with [--template-id], [--user] and [--password]); [createAddress] is
    the same in every revision, and so are [messageBodies] and the loops
    over the recipients and the attachments in every revision that has
    them.  Go strings are byte sequences, modelled by [string] (a
    sequence of 8-bit [ascii]). *)

From Stdlib Require Import String Ascii List NArith Bool Arith Lia.
From stdpp Require Import base option list strings gmap.
Import ListNotations.

Local Open Scope string_scope.
Local Open Scope list_scope.

(** ** Go's [strings] package: the functions the program calls. *)
Module Strings.

(** [s[n:]] *)
Fixpoint sliceFrom (n : nat) (s : string) : string :=
  match n, s with
  | O, _ => s
  | S _, EmptyString => EmptyString
  | S n', String _ s' => sliceFrom n' s'
  end.

(** [s[:n]] *)
Fixpoint sliceTo (n : nat) (s : string) : string :=
  match n, s with
  | O, _ => EmptyString
  | S _, EmptyString => EmptyString
  | S n', String c s' => String c (sliceTo n' s')
  end.

(** [strings.HasPrefix(s, prefix)] *)
Fixpoint HasPrefix (s prefix : string) {struct prefix} : bool :=
  match prefix, s with
  | EmptyString, _ => true
  | String _ _, EmptyString => false
  | String p prefix', String c s' => Ascii.eqb c p && HasPrefix s' prefix'
  end.

(** [strings.Index(s, substr)]: the byte index of the first occurrence of
    [substr] in [s]; Go's [-1] is [None]. *)
Fixpoint Index (s substr : string) : option nat :=
  if HasPrefix s substr then Some O
  else match s with
       | EmptyString => None
       | String _ s' => option_map S (Index s' substr)
       end.

(** The loop of [strings.Count(s, substr)] for a non-empty [substr]:
    non-overlapping occurrences, found from the left.  Every turn of the
    loop consumes at least one byte of [s], so [String.length s] turns are
    enough. *)
Fixpoint countLoop (turns : nat) (s substr : string) : nat :=
  match turns with
  | O => O
  | S turns' =>
      match Index s substr with
      | None => O
      | Some i => S (countLoop turns' (sliceFrom (i + String.length substr) s) substr)
      end
  end.

Definition Count (s substr : string) : nat :=
  countLoop (String.length s) s substr.

(** The loop of [genSplit(s, sep, 0, n)] after [n--]: at most [n] cuts,
    the rest of [s] is the last element. *)
Fixpoint genSplit (n : nat) (s sep : string) : list string :=
  match n with
  | O => [s]
  | S n' =>
      match Index s sep with
      | None => [s]
      | Some m => sliceTo m s :: genSplit n' (sliceFrom (m + String.length sep) s) sep
      end
  end.

(** [strings.Split(s, sep)] for a non-empty [sep] (the program's only
    separator is [" <"]): [genSplit(s, sep, 0, -1)], where [n] becomes
    [Count(s, sep) + 1]. *)
Definition Split (s sep : string) : list string :=
  genSplit (Count s sep) s sep.

(** Membership of a byte in an ASCII cutset. *)
Fixpoint inCutset (cutset : string) (c : ascii) : bool :=
  match cutset with
  | EmptyString => false
  | String d cutset' => Ascii.eqb c d || inCutset cutset' c
  end.

Fixpoint trimLeftASCII (s cutset : string) : string :=
  match s with
  | EmptyString => EmptyString
  | String c s' => if inCutset cutset c then trimLeftASCII s' cutset else s
  end.

Fixpoint trimRightASCII (s cutset : string) : string :=
  match s with
  | EmptyString => EmptyString
  | String c s' =>
      match trimRightASCII s' cutset with
      | EmptyString => if inCutset cutset c then EmptyString else String c EmptyString
      | t => String c t
      end
  end.

(** [strings.Trim(s, cutset)] for an ASCII [cutset]: all leading and
    trailing bytes of [s] that occur in [cutset] are removed. *)
Definition Trim (s cutset : string) : string :=
  match s, cutset with
  | EmptyString, _ => s
  | _, EmptyString => s
  | _, _ => trimLeftASCII (trimRightASCII s cutset) cutset
  end.

End Strings.

(** ** Go's [regexp] package, as far as [regexp.MatchString] needs it:
    regular expressions over bytes, matched by Brzozowski derivatives.
    The pattern of the program has only ASCII literals and classes, so
    matching bytes and matching runes agree. *)
Module Regexp.

Inductive Regexp : Type :=
| Nothing                               (* matches no string *)
| Empty                                 (* matches the empty string *)
| Class (p : ascii -> bool)             (* one byte satisfying [p] *)
| Cat (r1 r2 : Regexp)                  (* r1 r2 *)
| Alt (r1 r2 : Regexp)                  (* r1|r2 *)
| Star (r : Regexp).                    (* r* *)

(** [r{1,}] *)
Definition Plus (r : Regexp) : Regexp := Cat r (Star r).

(** A literal byte. *)
Definition Lit (c : ascii) : Regexp := Class (Ascii.eqb c).

(** [[^c]]: in Go's syntax a negated class also matches a newline. *)
Definition Not (c : ascii) : Regexp := Class (fun b => negb (Ascii.eqb c b)).

Definition AnyByte : Regexp := Class (fun _ => true).

(** The Perl class [\w], that is [[0-9A-Za-z_]]. *)
Definition isWord (c : ascii) : bool :=
  let n := N_of_ascii c in
  ((48 <=? n) && (n <=? 57) || (65 <=? n) && (n <=? 90)
   || (97 <=? n) && (n <=? 122) || (n =? 95))%N.

Fixpoint nullable (r : Regexp) : bool :=
  match r with
  | Nothing => false
  | Empty => true
  | Class _ => false
  | Cat r1 r2 => nullable r1 && nullable r2
  | Alt r1 r2 => nullable r1 || nullable r2
  | Star _ => true
  end.

Fixpoint deriv (c : ascii) (r : Regexp) : Regexp :=
  match r with
  | Nothing => Nothing
  | Empty => Nothing
  | Class p => if p c then Empty else Nothing
  | Cat r1 r2 =>
      if nullable r1 then Alt (Cat (deriv c r1) r2) (deriv c r2)
      else Cat (deriv c r1) r2
  | Alt r1 r2 => Alt (deriv c r1) (deriv c r2)
  | Star r1 => Cat (deriv c r1) (Star r1)
  end.

(** Whether the whole of [s] matches [r]. *)
Fixpoint fullMatch (r : Regexp) (s : string) : bool :=
  match s with
  | EmptyString => nullable r
  | String c s' => fullMatch (deriv c r) s'
  end.

(** [regexp.MatchString(pattern, s)]: whether [s] contains any match of
    the pattern (the pattern being valid, the error result is nil). *)
Definition MatchString (pattern : Regexp) (s : string) : bool :=
  fullMatch (Cat (Star AnyByte) (Cat pattern (Star AnyByte))) s.

(** The language of a regular expression, for reference. *)
Inductive Matches : Regexp -> string -> Prop :=
| MEmpty : Matches Empty EmptyString
| MClass p c : p c = true -> Matches (Class p) (String c EmptyString)
| MCat r1 r2 s1 s2 : Matches r1 s1 -> Matches r2 s2 -> Matches (Cat r1 r2) (s1 ++ s2)
| MAltL r1 r2 s : Matches r1 s -> Matches (Alt r1 r2) s
| MAltR r1 r2 s : Matches r2 s -> Matches (Alt r1 r2) s
| MStar0 r : Matches (Star r) EmptyString
| MStarS r s1 s2 : Matches r s1 -> Matches (Star r) s2 -> Matches (Star r) (s1 ++ s2).

End Regexp.

(** ** [encoding/base64]: [StdEncoding.EncodeToString] (RFC 4648, with
    padding). *)
Module Base64.

Definition encodeStd : string :=
  "ABCDEFGHIJKLMNOPQRSTUVWXYZabcdefghijklmnopqrstuvwxyz0123456789+/".

(** The alphabet letter of a 6-bit value. *)
Definition enc (v : N) : ascii :=
  match String.get (N.to_nat (N.land v 63)) encodeStd with
  | Some c => c
  | None => "="%char
  end.

Definition byte (c : ascii) : N := N_of_ascii c.

(** Three source bytes give four letters; a remainder of one or two bytes
    gives two or three letters and the padding. *)
Fixpoint EncodeToString (src : string) : string :=
  match src with
  | String a (String b (String c rest)) =>
      let val := N.lor (N.lor (N.shiftl (byte a) 16) (N.shiftl (byte b) 8)) (byte c) in
      String (enc (N.shiftr val 18)) (String (enc (N.shiftr val 12))
        (String (enc (N.shiftr val 6)) (String (enc val) (EncodeToString rest))))
  | String a (String b EmptyString) =>
      let val := N.lor (N.shiftl (byte a) 16) (N.shiftl (byte b) 8) in
      String (enc (N.shiftr val 18)) (String (enc (N.shiftr val 12))
        (String (enc (N.shiftr val 6)) "="))
  | String a EmptyString =>
      let val := N.shiftl (byte a) 16 in
      String (enc (N.shiftr val 18)) (String (enc (N.shiftr val 12)) "==")
  | EmptyString => EmptyString
  end.

End Base64.

(** ** [github.com/jaytaylor/html2text]: the HTML-to-plain-text
    conversion. *)
Module Html2text.

(** The text outside the tags: a tag begins at ['<'] and ends at the next
    ['>']. *)
Fixpoint dropTags (inTag : bool) (s : string) : string :=
  match s with
  | EmptyString => EmptyString
  | String c s' =>
      if Ascii.eqb c "<" then dropTags true s'
      else if Ascii.eqb c ">" then dropTags false s'
      else if inTag then dropTags inTag s'
      else String c (dropTags inTag s')
  end.

(** Modelled from the spec: [html2text.FromString], the function of the
    library [github.com/jaytaylor/html2text] that [messageBodies] and
    [send] call; its source is not part of the repository.  The
    specification has it as "an HTML-to-plain-text conversion" that gives
    "plain text derived from that HTML (non-empty, no tags)": the model
    keeps the text and drops the tags, and reports no error.  What the
    library adds to the text (the marks of emphasis, the layout of tables
    and links) is not modelled. *)
Definition FromString (input : string) : string * bool :=
  (dropTags false input, false).

End Html2text.

(** ** The host of one run: the file system, the environment and the
    third-party services the program calls but does not implement. *)
Record Host : Type := {
  (** [ioutil.ReadFile]: the bytes of a file, [None] when it cannot be read *)
  ReadFile : string -> option string;
  (** [os.Getenv] *)
  Getenv : string -> string;
  (** [html2text.FromString(_, Options{PrettyTables: true})]: the text and
      whether the error result is non-nil *)
  FromString : string -> string * bool;
  (** the tables of Go's [mime] package: extension to type, and the same
      with lower-cased extensions *)
  mimeTypes : string -> option string;
  mimeTypesLower : string -> option string;
  (** [strings.ToLower] on a string with non-ASCII bytes *)
  ToLower : string -> string
}.

(** ** Go's [mime] package: [TypeByExtension]. *)
Module Mime.

Definition isASCII (c : ascii) : bool := (N_of_ascii c <? 128)%N.

Fixpoint allASCII (s : string) : bool :=
  match s with
  | EmptyString => true
  | String c s' => isASCII c && allASCII s'
  end.

Definition lowerByte (c : ascii) : ascii :=
  let n := N_of_ascii c in
  if ((65 <=? n) && (n <=? 90))%N then ascii_of_N (n + 32) else c.

Fixpoint lowerASCII (s : string) : string :=
  match s with
  | EmptyString => EmptyString
  | String c s' => String (lowerByte c) (lowerASCII s')
  end.

(** A case-sensitive look-up of [ext] itself, then a case-insensitive
    one; [""] when [ext] has no associated type. *)
Definition TypeByExtension (h : Host) (ext : string) : string :=
  match mimeTypes h ext with
  | Some v => v
  | None =>
      let lower := if allASCII ext then lowerASCII ext else ToLower h ext in
      match mimeTypesLower h lower with
      | Some v => v
      | None => EmptyString
      end
  end.

(** Every key of the package's tables begins with a dot: the built-in
    ones are written so, [AddExtensionType] refuses any other, and the
    entries read from the system's files are stored under ["." + ext]. *)
Definition dottedKeys (h : Host) : Prop :=
  forall ext v,
    mimeTypes h ext = Some v \/ mimeTypesLower h ext = Some v ->
    Strings.HasPrefix ext "." = true.

End Mime.

(** ** [sendgrid-go/helpers/mail]: the message structure and the helpers
    the program calls.  A Go pointer that may be nil is an [option]. *)
Module Mail.

Record Email : Type := { Name : string; Address : string }.

Record Content : Type := { ContentType : string; Value : string }.

Record Attachment : Type := {
  AttContent : string;
  AttType : string;
  Filename : string;
  Disposition : string
}.

Record Personalization : Type := {
  To : list (option Email);
  CC : list (option Email);
  Substitutions : gmap string string
}.

Record SGMailV3 : Type := {
  From : option Email;
  Subject : string;
  Personalizations : list Personalization;
  Contents : list Content;
  Attachments : list Attachment;
  TemplateID : string
}.

Definition NewEmail (name address : string) : Email :=
  {| Name := name; Address := address |}.

Definition NewContent (contentType value : string) : Content :=
  {| ContentType := contentType; Value := value |}.

Definition NewPersonalization : Personalization :=
  {| To := []; CC := []; Substitutions := ∅ |}.

Definition AddTos (to : list (option Email)) (p : Personalization) : Personalization :=
  {| To := To p ++ to; CC := CC p; Substitutions := Substitutions p |}.

Definition AddCCs (cc : list (option Email)) (p : Personalization) : Personalization :=
  {| To := To p; CC := CC p ++ cc; Substitutions := Substitutions p |}.

Definition SetSubstitution (key value : string) (p : Personalization) : Personalization :=
  {| To := To p; CC := CC p; Substitutions := <[key := value]> (Substitutions p) |}.

(** [NewV3MailInit(from, subject, to, content...)] *)
Definition NewV3MailInit (from : option Email) (subject : string) (to : option Email)
    (content : list Content) : SGMailV3 :=
  {| From := from; Subject := subject;
     Personalizations := [AddTos [to] NewPersonalization];
     Contents := content; Attachments := []; TemplateID := EmptyString |}.

(** The contents whose value is not empty. *)
Definition nonEmpty (content : list Content) : list Content :=
  List.filter (fun c => negb (String.eqb (Value c) EmptyString)) content.

(** Modelled from the spec: [NewSingleEmail] of the library
    [sendgrid-go/helpers/mail], whose source is not part of the
    repository.  The specification (4.3) has the message carry the
    "content parts ordered [plain, html] filtered to non-empty values":
    the plain-text body comes first, and a body that is empty makes no
    content. *)
Definition NewSingleEmail (from : option Email) (subject : string) (to : option Email)
    (plainTextContent htmlContent : string) : SGMailV3 :=
  NewV3MailInit from subject to
    (nonEmpty [NewContent "text/plain" plainTextContent; NewContent "text/html" htmlContent]).

Definition NewAttachment : Attachment :=
  {| AttContent := EmptyString; AttType := EmptyString;
     Filename := EmptyString; Disposition := EmptyString |}.

Definition SetType (t : string) (a : Attachment) : Attachment :=
  {| AttContent := AttContent a; AttType := t; Filename := Filename a; Disposition := Disposition a |}.

Definition SetDisposition (d : string) (a : Attachment) : Attachment :=
  {| AttContent := AttContent a; AttType := AttType a; Filename := Filename a; Disposition := d |}.

Definition SetFilename (f : string) (a : Attachment) : Attachment :=
  {| AttContent := AttContent a; AttType := AttType a; Filename := f; Disposition := Disposition a |}.

Definition SetContent (c : string) (a : Attachment) : Attachment :=
  {| AttContent := c; AttType := AttType a; Filename := Filename a; Disposition := Disposition a |}.

Definition AddAttachment (a : Attachment) (m : SGMailV3) : SGMailV3 :=
  {| From := From m; Subject := Subject m; Personalizations := Personalizations m;
     Contents := Contents m; Attachments := Attachments m ++ [a]; TemplateID := TemplateID m |}.

Definition SetTemplateID (t : string) (m : SGMailV3) : SGMailV3 :=
  {| From := From m; Subject := Subject m; Personalizations := Personalizations m;
     Contents := Contents m; Attachments := Attachments m; TemplateID := t |}.

Definition setPersonalizations (ps : list Personalization) (m : SGMailV3) : SGMailV3 :=
  {| From := From m; Subject := Subject m; Personalizations := ps;
     Contents := Contents m; Attachments := Attachments m; TemplateID := TemplateID m |}.

End Mail.

(** ** Package [cmd]. *)
Module Cmd.
Import Mail.

(** The [log.Fatal] calls of the package, one constructor per call. *)
Inductive fatal : Type :=
| MissingEmailAddress                     (* "Missing email adderess." *)
| EmailAddressIncorrect (raw : string)    (* "Email address is incorrect:" *)
| MissingMessageBodyNoArgs                (* "Missing message body. Need to have at least one ..." *)
| MissingMessageBody                      (* "Missing message body." *)
| TooManyPositional (args : list string)  (* "Too many positional argumets: %v" *)
| SubjectRequired                         (* "The subject is required. ..." *)
| NoRecipient                             (* "At lease one recepient should be present. ..." *)
| NoContentProvided                       (* "Need to have at least one way of providing the message content." *)
| CredentialsMissing                      (* "Ether Sandgrid API Key or username and password should be present." *)
| FileUnreadable (filename : string)      (* readFile: "Failed to read the file %q" *)
| AttachmentUnreadable (filename : string) (* "Failed to read the attachment %q" *)
| IncorrectSubstitution (subs : list string). (* "Incorrect substitution: %s" *)

(** The error kinds of the specification. *)
Inductive ErrorKind : Type :=
| InvalidAddressError
| MissingBodyError
| TooManyArgumentsError
| MissingCredentialsError
| FileReadError
| OtherValidationError.

Definition kind (e : fatal) : ErrorKind :=
  match e with
  | MissingEmailAddress | EmailAddressIncorrect _ => InvalidAddressError
  | MissingMessageBodyNoArgs | MissingMessageBody | NoContentProvided => MissingBodyError
  | TooManyPositional _ => TooManyArgumentsError
  | CredentialsMissing => MissingCredentialsError
  | FileUnreadable _ | AttachmentUnreadable _ => FileReadError
  | SubjectRequired | NoRecipient | IncorrectSubstitution _ => OtherValidationError
  end.

(** How a piece of the program ends: it returns, it terminates the
    process through [log.Fatal], or it panics on an index out of range. *)
Inductive result (A : Type) : Type :=
| Ok (a : A)
| Fatal (e : fatal)
| Panic.

Arguments Ok {A} a.
Arguments Fatal {A} e.
Arguments Panic {A}.

#[global] Instance result_ret : MRet result := fun A a => Ok a.

#[global] Instance result_bind : MBind result := fun A B k r =>
  match r with
  | Ok a => k a
  | Fatal e => Fatal e
  | Panic => Panic
  end.

(** [l[i]] *)
Definition index {A : Type} (l : list A) (i : nat) : result A :=
  match l !! i with
  | Some x => Ok x
  | None => Panic
  end.

(** [l[i] = x] *)
Definition assign {A : Type} (l : list A) (i : nat) (x : A) : result (list A) :=
  if decide (i < length l) then Ok (<[i := x]> l) else Panic.

Definition isEmpty (s : string) : bool := String.eqb s EmptyString.

(** The command line after flag parsing. *)
Record Flags : Type := {
  flag_from : string;
  flag_subject : string;
  flag_to : list string;
  flag_cc : list string;
  flag_att : list string;
  flag_html : string;
  flag_plain : string;
  flag_template_id : string;
  flag_sub : list string;
  flag_key : string;
  flag_user : string;
  flag_password : string
}.

(** What the run hands to the network. *)
Inductive Request : Type :=
| SendV3 (apiKey : string) (message : SGMailV3)            (* client.Send(message) *)
| SendV2 (username password : string) (message : SGMailV3). (* sendV2(username, password, message) *)

(** [readFile] *)
Definition readFile (h : Host) (filename : string) : result string :=
  match ReadFile h filename with
  | Some b => Ok b
  | None => Fatal (FileUnreadable filename)
  end.

(** [createAddress] *)
Definition createAddress (raw : string) : result Email :=
  if isEmpty raw then Fatal MissingEmailAddress
  else
    let parts := Strings.Split raw " <" in
    match parts !! 0 with
    | None => Fatal (EmailAddressIncorrect raw)
    | Some p0 =>
        if isEmpty p0 then Fatal (EmailAddressIncorrect raw)
        else
          let parts := map (fun p => Strings.Trim p " ><") parts in
          if (length parts <? 2)%nat then
            p0 ← index parts 0;
            Ok (NewEmail p0 p0)
          else
            p0 ← index parts 0;
            p1 ← index parts 1;
            Ok (NewEmail p0 p1)
    end.

(** The pattern ["\\<[\\w]{1,}[^>]*\\>"] of [messageBodies]. *)
Definition htmlTag : Regexp.Regexp :=
  Regexp.Cat (Regexp.Lit "<")
    (Regexp.Cat (Regexp.Plus (Regexp.Class Regexp.isWord))
       (Regexp.Cat (Regexp.Star (Regexp.Not ">")) (Regexp.Lit ">"))).

(** The [for i, b := range args] loop of [messageBodies], from index [i]
    on: [Some] is a [return] inside the loop, [None] is the loop running
    to its end. *)
Fixpoint scanArgs (h : Host) (args : list string) (i : nat) (rest : list string)
    : option (result (string * string)) :=
  match rest with
  | [] => None
  | b :: rest' =>
      if Regexp.MatchString htmlTag b then
        Some (
          let htmlBody := b in
          if (length args =? 1)%nat then
            Ok (htmlBody, fst (FromString h b))
          else if (i =? 0)%nat then
            a1 ← index args 1;
            Ok (htmlBody, if negb (isEmpty a1) then a1 else EmptyString)
          else if (i =? 1)%nat then
            a0 ← index args 0;
            Ok (htmlBody, if negb (isEmpty a0) then a0 else EmptyString)
          else
            Ok (htmlBody, EmptyString))
      else scanArgs h args (S i) rest'
  end.

(** [messageBodies] *)
Definition messageBodies (h : Host) (args : list string) : result (string * string) :=
  if (length args =? 0)%nat then Fatal MissingMessageBodyNoArgs
  else
    match scanArgs h args 0 args with
    | Some r => r
    | None =>
        a0 ← index args 0;
        if isEmpty a0 then Fatal MissingMessageBody
        else Ok (EmptyString, a0)
    end.

(** The loop [for i, toRaw := range raws { dst[i] = createAddress(toRaw) }]
    from index [i] on. *)
Fixpoint fillAddresses (i : nat) (raws : list string) (dst : list (option Email))
    : result (list (option Email)) :=
  match raws with
  | [] => Ok dst
  | raw :: raws' =>
      e ← createAddress raw;
      dst' ← assign dst i (Some e);
      fillAddresses (S i) raws' dst'
  end.

(** The choice of the two bodies in [send]: the [--html]/[--plain] files,
    the positional arguments, or the placeholder of a template. *)
Definition contentOf (h : Host) (f : Flags) (args : list string) : result (string * string) :=
  let htmlFilename := flag_html f in
  let plainTextFilename := flag_plain f in
  let templateID := flag_template_id f in
  if negb (isEmpty htmlFilename) || negb (isEmpty plainTextFilename) then
    htmlContent ← (if negb (isEmpty htmlFilename) then readFile h htmlFilename
                    else Ok EmptyString);
    plainTextContent ← (if negb (isEmpty plainTextFilename) then readFile h plainTextFilename
                         else Ok (fst (FromString h htmlContent)));
    Ok (htmlContent, plainTextContent)
  else if isEmpty templateID || (0 <? length args)%nat then
    messageBodies h args
  else if isEmpty templateID then Fatal NoContentProvided
  else Ok ("<!-- Dummy Content -->", EmptyString).

(** The choice of the credentials in [send]: the API key that the client
    is created with ([""] selects the user/password API). *)
Definition credentialsOf (h : Host) (f : Flags) : result string :=
  let apiKey := flag_key f in
  let username := flag_user f in
  if isEmpty apiKey && isEmpty username then
    let apiKey := Getenv h "SENDGRID_API_KEY" in
    if isEmpty apiKey then Fatal CredentialsMissing else Ok apiKey
  else Ok apiKey.

(** [message.Personalizations[0].M(...)] *)
Definition onPersonalization0 (g : Personalization -> Personalization) (m : SGMailV3)
    : result SGMailV3 :=
  p ← index (Personalizations m) 0;
  ps ← assign (Personalizations m) 0 (g p);
  Ok (setPersonalizations ps m).

(** The body of the loop over the [--att] values. *)
Definition attach (h : Host) (attFilename : string) (message : SGMailV3) : result SGMailV3 :=
  match ReadFile h attFilename with
  | None => Fatal (AttachmentUnreadable attFilename)
  | Some b =>
      let a := NewAttachment in
      let a := SetType (Mime.TypeByExtension h attFilename) a in
      let a := SetDisposition "attachment" a in
      let a := SetFilename attFilename a in
      let a := SetContent (Base64.EncodeToString b) a in
      Ok (AddAttachment a message)
  end.

Fixpoint attachAll (h : Host) (attFilenames : list string) (message : SGMailV3)
    : result SGMailV3 :=
  match attFilenames with
  | [] => Ok message
  | attFilename :: rest =>
      message' ← attach h attFilename message;
      attachAll h rest message'
  end.

(** The loop over the [--sub] values; [strings.SplitN(sub, "=", 2)] is
    [genSplit] with one cut. *)
Fixpoint substituteAll (allSubs subs : list string) (message : SGMailV3) : result SGMailV3 :=
  match subs with
  | [] => Ok message
  | sub :: rest =>
      let parts := Strings.genSplit 1 sub "=" in
      if negb ((length parts =? 2)%nat) then Fatal (IncorrectSubstitution allSubs)
      else
        k ← index parts 0;
        v ← index parts 1;
        message' ← onPersonalization0 (SetSubstitution ("[%" ++ k ++ "%]") v) message;
        substituteAll allSubs rest message'
  end.

(** The checks and the recipients of [send], up to the choice of the
    bodies: the sender, the [to] slice and the [cc] slice. *)
Definition recipientsOf (f : Flags) (args : list string)
    : result (Email * list (option Email) * list (option Email)) :=
  if (2 <? length args)%nat then Fatal (TooManyPositional args)
  else
    from ← createAddress (flag_from f);
    if isEmpty (flag_subject f) then Fatal SubjectRequired
    else
      let toAddressesRaw := flag_to f in
      if (length toAddressesRaw =? 0)%nat then Fatal NoRecipient
      else
        toAddresses ← fillAddresses 0 toAddressesRaw (replicate (length toAddressesRaw) None);
        let ccAddressesRaw := flag_cc f in
        let ccAddresses := replicate (length ccAddressesRaw) None in
        toAddresses ← fillAddresses 0 toAddressesRaw toAddresses;
        Ok (from, toAddresses, ccAddresses).

(** The assembly of the message in [send], after the checks. *)
Definition messageOf (h : Host) (f : Flags) (from : Email)
    (toAddresses ccAddresses : list (option Email))
    (htmlContent plainTextContent : string) : result SGMailV3 :=
  to0 ← index toAddresses 0;
  let message := NewSingleEmail (Some from) (flag_subject f) to0 plainTextContent htmlContent in
  message ← (if (1 <? length toAddresses)%nat
              then onPersonalization0 (AddTos (drop 1 toAddresses)) message
              else Ok message);
  message ← (if (0 <? length ccAddresses)%nat
              then onPersonalization0 (AddCCs ccAddresses) message
              else Ok message);
  message ← attachAll h (flag_att f) message;
  if negb (isEmpty (flag_template_id f)) then
    substituteAll (flag_sub f) (flag_sub f) (SetTemplateID (flag_template_id f) message)
  else Ok message.

(** [send], up to the call of the network: the request it hands over. *)
Definition send (h : Host) (f : Flags) (args : list string) : result Request :=
  '(from, toAddresses, ccAddresses) ← recipientsOf f args;
  '(htmlContent, plainTextContent) ← contentOf h f args;
  apiKey ← credentialsOf h f;
  message ← messageOf h f from toAddresses ccAddresses htmlContent plainTextContent;
  if isEmpty apiKey then Ok (SendV2 (flag_user f) (flag_password f) message)
  else Ok (SendV3 apiKey message).

End Cmd.

(** ** The statements' vocabulary. *)
Module Spec.

Definition firstByte (s : string) : option ascii :=
  match s with
  | EmptyString => None
  | String c _ => Some c
  end.

Fixpoint lastByte (s : string) : option ascii :=
  match s with
  | EmptyString => None
  | String c EmptyString => Some c
  | String _ s' => lastByte s'
  end.

(** [s] begins or ends with the byte [c]. *)
Definition atEdge (s : string) (c : ascii) : Prop :=
  firstByte s = Some c \/ lastByte s = Some c.

(** [c] is a space, ['<'] or ['>']. *)
Definition isBracketOrSpace (c : ascii) : Prop :=
  c = " "%char \/ c = "<"%char \/ c = ">"%char.

(** [s] neither begins nor ends with a space, ['<'] or ['>']. *)
Definition cleanEdges (s : string) : Prop :=
  forall c, atEdge s c -> ~ isBracketOrSpace c.

(** Every byte of [s] satisfies [p]. *)
Fixpoint allBytes (p : ascii -> bool) (s : string) : bool :=
  match s with
  | EmptyString => true
  | String c s' => p c && allBytes p s'
  end.

(** [sub] occurs in [s]. *)
Definition contains (s sub : string) : Prop :=
  exists pre post : string, s = (pre ++ sub ++ post)%string.

Fixpoint hasSeparator (path : string) : bool :=
  match path with
  | EmptyString => false
  | String c path' => Ascii.eqb c "/" || hasSeparator path'
  end.

(** The extension of a file name, as [path/filepath.Ext] gives it: the
    suffix that begins at the last dot of the last element of [path],
    [""] when there is no dot. *)
Fixpoint Ext (path : string) : string :=
  match path with
  | EmptyString => EmptyString
  | String c path' =>
      match Ext path' with
      | EmptyString =>
          if hasSeparator path' then EmptyString
          else if Ascii.eqb c "." then path else EmptyString
      | ext => ext
      end
  end.

(** The argument matches the pattern of [messageBodies]. *)
Definition looksLikeHTML (b : string) : bool := Regexp.MatchString Cmd.htmlTag b.

(** No API key flag, no user name flag, no API key in the environment. *)
Definition noCredentials (h : Host) (f : Cmd.Flags) : Prop :=
  Cmd.flag_key f = EmptyString /\ Cmd.flag_user f = EmptyString /\
  Getenv h "SENDGRID_API_KEY" = EmptyString.

(** An API key (flag or environment), or a user name with a password. *)
Definition credentialsPresent (h : Host) (f : Cmd.Flags) : Prop :=
  Cmd.flag_key f <> EmptyString \/ Getenv h "SENDGRID_API_KEY" <> EmptyString \/
  (Cmd.flag_user f <> EmptyString /\ Cmd.flag_password f <> EmptyString).

(** The attachment that the loop over the [--att] values builds for the
    file [attFilename] with the bytes [b]. *)
Definition attachmentOf (h : Host) (attFilename b : string) : Mail.Attachment :=
  {| Mail.AttContent := Base64.EncodeToString b;
     Mail.AttType := Mime.TypeByExtension h attFilename;
     Mail.Filename := attFilename;
     Mail.Disposition := "attachment" |}.

(** The message of a request. *)
Definition messageOfRequest (r : Cmd.Request) : Mail.SGMailV3 :=
  match r with
  | Cmd.SendV3 _ m => m
  | Cmd.SendV2 _ _ m => m
  end.

End Spec.

(** ** A sample host, for the examples: two files, an empty environment,
    the built-in table of the [mime] package and the modelled converter
    of [Html2text]. *)
Module Sample.

Definition builtinTypesLower : list (string * string) :=
  [ (".css", "text/css; charset=utf-8");
    (".gif", "image/gif");
    (".htm", "text/html; charset=utf-8");
    (".html", "text/html; charset=utf-8");
    (".jpg", "image/jpeg");
    (".js", "application/x-javascript");
    (".pdf", "application/pdf");
    (".png", "image/png");
    (".svg", "image/svg+xml");
    (".xml", "text/xml; charset=utf-8") ].

Fixpoint assoc (table : list (string * string)) (key : string) : option string :=
  match table with
  | [] => None
  | (k, v) :: table' => if String.eqb k key then Some v else assoc table' key
  end.

Definition files (filename : string) : option string :=
  if String.eqb filename "report.pdf" then Some "hi"
  else if String.eqb filename "body.html" then Some "<b>x</b>"
  else None.

Definition host : Host :=
  {| ReadFile := files;
     Getenv := fun _ => EmptyString;
     FromString := Html2text.FromString;
     mimeTypes := assoc builtinTypesLower;
     mimeTypesLower := assoc builtinTypesLower;
     ToLower := fun s => s |}.

Definition flags : Cmd.Flags :=
  {| Cmd.flag_from := "sendgrid-cli@nowitworks.eu";
     Cmd.flag_subject := "Hello";
     Cmd.flag_to := ["Alice <alice@example.com>"; "bob@example.com"];
     Cmd.flag_cc := ["Carol <carol@example.com>"];
     Cmd.flag_att := [];
     Cmd.flag_html := EmptyString;
     Cmd.flag_plain := EmptyString;
     Cmd.flag_template_id := EmptyString;
     Cmd.flag_sub := [];
     Cmd.flag_key := "SG.key";
     Cmd.flag_user := EmptyString;
     Cmd.flag_password := EmptyString |}.

(** The same command line with a template and nothing else for a body. *)
Definition templateFlags : Cmd.Flags :=
  {| Cmd.flag_from := "sendgrid-cli@nowitworks.eu";
     Cmd.flag_subject := "Hello";
     Cmd.flag_to := ["Alice <alice@example.com>"; "bob@example.com"];
     Cmd.flag_cc := [];
     Cmd.flag_att := [];
     Cmd.flag_html := EmptyString;
     Cmd.flag_plain := EmptyString;
     Cmd.flag_template_id := "d-13b8f94f";
     Cmd.flag_sub := ["name=John Doe"; "price=$42"];
     Cmd.flag_key := "SG.key";
     Cmd.flag_user := EmptyString;
     Cmd.flag_password := EmptyString |}.

(** A user name and nothing else for credentials. *)
Definition userOnlyFlags : Cmd.Flags :=
  {| Cmd.flag_from := "sendgrid-cli@nowitworks.eu";
     Cmd.flag_subject := "Hello";
     Cmd.flag_to := ["bob@example.com"];
     Cmd.flag_cc := [];
     Cmd.flag_att := [];
     Cmd.flag_html := EmptyString;
     Cmd.flag_plain := EmptyString;
     Cmd.flag_template_id := EmptyString;
     Cmd.flag_sub := [];
     Cmd.flag_key := EmptyString;
     Cmd.flag_user := "john";
     Cmd.flag_password := EmptyString |}.

(** A body file and nothing else for a body. *)
Definition htmlFileFlags : Cmd.Flags :=
  {| Cmd.flag_from := "sendgrid-cli@nowitworks.eu";
     Cmd.flag_subject := "Hello";
     Cmd.flag_to := ["bob@example.com"];
     Cmd.flag_cc := [];
     Cmd.flag_att := [];
     Cmd.flag_html := "body.html";
     Cmd.flag_plain := EmptyString;
     Cmd.flag_template_id := EmptyString;
     Cmd.flag_sub := [];
     Cmd.flag_key := "SG.key";
     Cmd.flag_user := EmptyString;
     Cmd.flag_password := EmptyString |}.

(** A user name, a password and one attachment. *)
Definition userAttachmentFlags : Cmd.Flags :=
  {| Cmd.flag_from := "Sender <sendgrid-cli@nowitworks.eu>";
     Cmd.flag_subject := "Hello";
     Cmd.flag_to := ["Alice <alice@example.com>"; "bob@example.com"];
     Cmd.flag_cc := [];
     Cmd.flag_att := ["report.pdf"];
     Cmd.flag_html := EmptyString;
     Cmd.flag_plain := EmptyString;
     Cmd.flag_template_id := EmptyString;
     Cmd.flag_sub := [];
     Cmd.flag_key := EmptyString;
     Cmd.flag_user := "john";
     Cmd.flag_password := "secret" |}.

(** One attachment. *)
Definition attachmentFlags : Cmd.Flags :=
  {| Cmd.flag_from := "sendgrid-cli@nowitworks.eu";
     Cmd.flag_subject := "Hello";
     Cmd.flag_to := ["bob@example.com"];
     Cmd.flag_cc := [];
     Cmd.flag_att := ["report.pdf"];
     Cmd.flag_html := EmptyString;
     Cmd.flag_plain := EmptyString;
     Cmd.flag_template_id := EmptyString;
     Cmd.flag_sub := [];
     Cmd.flag_key := "SG.key";
     Cmd.flag_user := EmptyString;
     Cmd.flag_password := EmptyString |}.

End Sample.

(** ** The user/password API of the package: [sendV2] and its helpers,
    up to the call of [client.Do]. *)
Module Legacy.
Import Mail.

(** [url.Values] is [gmap string (list string)]: the values of each key,
    in the order they were added. *)

(** [Values.Add] *)
Definition Add (key value : string) (v : gmap string (list string)) : gmap string (list string) :=
  <[key := default [] (v !! key) ++ [value]]> v.

(** One file part of the multipart body, as [CreateFormFile(fieldname,
    filename)] and [part.Write] make it. *)
Record FilePart : Type := {
  Fieldname : string;
  PartFilename : string;
  PartContent : string
}.

(** The request of [http.NewRequest(method, urlStr, body)]; the body is
    the file parts, then the fields.  The fields are written while ranging
    over a Go map, so their order is not determined: the statements below
    only speak of which fields the body has. *)
Record Request : Type := {
  Method : string;
  URL : string;
  Files : list FilePart;
  Fields : list (string * string)
}.

(** The first loop of [basename]: the trailing slashes go, the first
    byte stays. *)
Fixpoint dropTrailingSlashes (name : string) : string :=
  match name with
  | EmptyString => EmptyString
  | String c name' =>
      if Spec.allBytes (Ascii.eqb "/") name' then String c EmptyString
      else String c (dropTrailingSlashes name')
  end.

(** The second loop of [basename]: what follows the last slash before the
    last byte. *)
Fixpoint lastElement (name : string) : string :=
  match name with
  | EmptyString => EmptyString
  | String c EmptyString => name
  | String c name' =>
      if Spec.hasSeparator name' then lastElement name'
      else if Ascii.eqb c "/" then name' else name
  end.

(** [basename] of package [os]: the name that [file.Stat()] reports for
    the path the file was opened with. *)
Definition basename (name : string) : string :=
  lastElement (dropTrailingSlashes name).

(** The first loop of [newMultipPartForm]: one part per file name;
    [inl fn] is the error of opening or reading [fn]. *)
Fixpoint fileParts (h : Host) (filenames : list string) : string + list FilePart :=
  match filenames with
  | [] => inr []
  | fn :: rest =>
      match ReadFile h fn with
      | None => inl fn
      | Some fileContents =>
          match fileParts h rest with
          | inl e => inl e
          | inr parts =>
              inr ({| Fieldname := fn; PartFilename := basename fn;
                      PartContent := fileContents |} :: parts)
          end
      end
  end.

(** The body of the second loop of [newMultipPartForm]: the fields of one
    key. *)
Definition fieldsOfKey (key : string) (vals : list string) : list (string * string) :=
  match vals with
  | [v] => [(key, v)]
  | _ => map (fun v => ((key ++ "[]")%string, v)) vals
  end.

(** [newMultipPartForm] *)
Definition newMultipPartForm (h : Host) (urlStr : string) (values : gmap string (list string))
    (filenames : list string) : string + Request :=
  match fileParts h filenames with
  | inl e => inl e
  | inr parts =>
      inr {| Method := "POST"; URL := urlStr; Files := parts;
             Fields := map_to_list values ≫= (fun kv => fieldsOfKey kv.1 kv.2) |}
  end.

(** [addressToLists]: the addresses and the names; [None] is the panic of
    reading a field through a nil pointer. *)
Fixpoint addressToLists (emails : list (option Email)) : option (list string * list string) :=
  match emails with
  | [] => Some ([], [])
  | None :: _ => None
  | Some e :: rest =>
      match addressToLists rest with
      | None => None
      | Some (addresses, addressNames) => Some (Address e :: addresses, Name e :: addressNames)
      end
  end.

(** How [sendV2] ends. *)
Inductive Outcome : Type :=
| Posted (request : Request)       (* client.Do(request) is called *)
| RequestNotCreated (fn : string)  (* "Failed to create the API request." and log.Fatal(err) *)
| Panicked.                        (* a nil pointer is read, or an index is out of range *)

(** The body of the loop over [m.Content]. *)
Definition addContent (values : gmap string (list string)) (c : Content)
    : gmap string (list string) :=
  let values :=
    if String.eqb (ContentType c) "text/html" && negb (Cmd.isEmpty (Value c))
    then Add "html" (Value c) values else values in
  if String.eqb (ContentType c) "text/plain" && negb (Cmd.isEmpty (Value c))
  then Add "text" (Value c) values else values.

(** The values that [sendV2] collects before it makes the request. *)
Definition valuesOf (username password : string) (m : SGMailV3)
    : option (gmap string (list string)) :=
  match From m with
  | None => None
  | Some from =>
      let values : gmap string (list string) :=
        <["fromname" := [Name from]]> (<["from" := [Address from]]>
          (<["subject" := [Subject m]]> (<["api_key" := [password]]>
            (<["api_user" := [username]]> ∅)))) in
      match Personalizations m !! 0 with
      | None => None
      | Some p0 =>
          match addressToLists (To p0) with
          | None => None
          | Some (addresses, addressNames) =>
              let values := <["toname" := addressNames]> (<["to" := addresses]> values) in
              let cc := CC p0 in
              let values' :=
                if (0 <? length cc)%nat then
                  match addressToLists cc with
                  | None => None
                  | Some (addresses, addressNames) =>
                      Some (<["ccname" := addressNames]> (<["cc" := addresses]> values))
                  end
                else Some values in
              match values' with
              | None => None
              | Some values => Some (foldl addContent values (Contents m))
              end
          end
      end
  end.

(** [sendV2], up to the call of the network. *)
Definition sendV2 (h : Host) (username password : string) (m : SGMailV3) : Outcome :=
  match valuesOf username password m with
  | None => Panicked
  | Some values =>
      let filenames := map Filename (Attachments m) in
      match newMultipPartForm h "https://api.sendgrid.com/api/mail.send.json" values filenames with
      | inl fn => RequestNotCreated fn
      | inr request => Posted request
      end
  end.

(** How a whole run ends. *)
Inductive RunOutcome : Type :=
| Ended (e : Cmd.fatal)                       (* log.Fatal in [send] *)
| SentV3 (apiKey : string) (m : SGMailV3)     (* client.Send(message) *)
| EndedV2 (o : Outcome)                       (* [sendV2] was called *)
| RunPanicked.

(** [send] with its last step: the call of the key API, or [sendV2]. *)
Definition run (h : Host) (f : Cmd.Flags) (args : list string) : RunOutcome :=
  match Cmd.send h f args with
  | Cmd.Fatal e => Ended e
  | Cmd.Panic => RunPanicked
  | Cmd.Ok (Cmd.SendV3 apiKey m) => SentV3 apiKey m
  | Cmd.Ok (Cmd.SendV2 username password m) => EndedV2 (sendV2 h username password m)
  end.

End Legacy.

(** ** The revision of [cmd/root.go] before the templates and the
    user/password API: its [send].  The checks, the recipients, the body
    files, [messageBodies] and the attachments are written as in the
    latest revision. *)
Module Root.
Import Mail Cmd.

(** How the [send] of this revision ends. *)
Inductive Outcome : Type :=
| Sent (apiKey : string) (message : SGMailV3)  (* client.Send(message) *)
| Ended (e : fatal)                            (* a [log.Fatal] that the latest revision has too *)
| KeyMissing                                   (* "SendGrid API Key is missing..." *)
| Panicked.

(** The choice of the two bodies: the body files, or the positional
    arguments. *)
Definition contentOf (h : Host) (f : Flags) (args : list string) : result (string * string) :=
  let htmlFilename := flag_html f in
  let plainTextFilename := flag_plain f in
  if negb (isEmpty htmlFilename) || negb (isEmpty plainTextFilename) then
    htmlContent ← (if negb (isEmpty htmlFilename) then readFile h htmlFilename
                   else Ok EmptyString);
    plainTextContent ← (if negb (isEmpty plainTextFilename) then readFile h plainTextFilename
                        else Ok (fst (FromString h htmlContent)));
    Ok (htmlContent, plainTextContent)
  else messageBodies h args.

(** The choice of the key: the flag, or the environment; [None] is the
    fatal error of the missing key. *)
Definition keyOf (h : Host) (f : Flags) : option string :=
  let apiKey := flag_key f in
  if isEmpty apiKey then
    let apiKey := Getenv h "SENDGRID_API_KEY" in
    if isEmpty apiKey then None else Some apiKey
  else Some apiKey.

(** The assembly of the message. *)
Definition messageOf (h : Host) (f : Flags) (from : Email)
    (toAddresses ccAddresses : list (option Email))
    (htmlContent plainTextContent : string) : result SGMailV3 :=
  to0 ← index toAddresses 0;
  let message := NewSingleEmail (Some from) (flag_subject f) to0 plainTextContent htmlContent in
  message ← (if (1 <? length toAddresses)%nat
             then onPersonalization0 (AddTos (drop 1 toAddresses)) message
             else Ok message);
  message ← (if (0 <? length ccAddresses)%nat
             then onPersonalization0 (AddCCs ccAddresses) message
             else Ok message);
  attachAll h (flag_att f) message.

(** [send], up to the call of the network. *)
Definition send (h : Host) (f : Flags) (args : list string) : Outcome :=
  match recipientsOf f args with
  | Fatal e => Ended e
  | Panic => Panicked
  | Ok (from, toAddresses, ccAddresses) =>
      match contentOf h f args with
      | Fatal e => Ended e
      | Panic => Panicked
      | Ok (htmlContent, plainTextContent) =>
          match keyOf h f with
          | None => KeyMissing
          | Some apiKey =>
              match messageOf h f from toAddresses ccAddresses htmlContent plainTextContent with
              | Fatal e => Ended e
              | Panic => Panicked
              | Ok message => Sent apiKey message
              end
          end
      end
  end.

End Root.

(** ** More vocabulary, for the statements about the rest of the code. *)
Module Props.

(** The parts written one after the other with [sep] between them (what
    [strings.Join] gives). *)
Fixpoint Join (parts : list string) (sep : string) : string :=
  match parts with
  | [] => EmptyString
  | [p] => p
  | p :: rest => (p ++ sep ++ Join rest sep)%string
  end.

(** A byte of the cutset of [createAddress]. *)
Definition isCut (c : ascii) : bool := Strings.inCutset " ><" c.

(** The placeholder that [send] makes of the key of a substitution. *)
Definition placeholder (k : string) : string := ("[%" ++ k ++ "%]")%string.

(** What one [--sub] value does to the substitutions: the text before
    the first ["="] is the key, the text after it the value. *)
Definition addSub (acc : gmap string string) (sub : string) : gmap string string :=
  match Strings.Index sub "=" with
  | Some j => <[placeholder (Strings.sliceTo j sub) := Strings.sliceFrom (j + 1) sub]> acc
  | None => acc
  end.

(** The key of the recipients in the form of [sendV2], for one recipient
    and for several. *)
Definition listKey (key : string) (n : nat) : string :=
  if (n =? 1)%nat then key else (key ++ "[]")%string.

(** A raw address that [createAddress] accepts. *)
Definition acceptable (raw : string) : Prop :=
  raw <> EmptyString /\ Strings.HasPrefix raw " <" = false.

(** The flags with other [--cc] values. *)
Definition withCC (cc : list string) (f : Cmd.Flags) : Cmd.Flags :=
  {| Cmd.flag_from := Cmd.flag_from f; Cmd.flag_subject := Cmd.flag_subject f;
     Cmd.flag_to := Cmd.flag_to f; Cmd.flag_cc := cc; Cmd.flag_att := Cmd.flag_att f;
     Cmd.flag_html := Cmd.flag_html f; Cmd.flag_plain := Cmd.flag_plain f;
     Cmd.flag_template_id := Cmd.flag_template_id f; Cmd.flag_sub := Cmd.flag_sub f;
     Cmd.flag_key := Cmd.flag_key f; Cmd.flag_user := Cmd.flag_user f;
     Cmd.flag_password := Cmd.flag_password f |}.

(** The flags with other [--sub] values. *)
Definition withSub (sub : list string) (f : Cmd.Flags) : Cmd.Flags :=
  {| Cmd.flag_from := Cmd.flag_from f; Cmd.flag_subject := Cmd.flag_subject f;
     Cmd.flag_to := Cmd.flag_to f; Cmd.flag_cc := Cmd.flag_cc f; Cmd.flag_att := Cmd.flag_att f;
     Cmd.flag_html := Cmd.flag_html f; Cmd.flag_plain := Cmd.flag_plain f;
     Cmd.flag_template_id := Cmd.flag_template_id f; Cmd.flag_sub := sub;
     Cmd.flag_key := Cmd.flag_key f; Cmd.flag_user := Cmd.flag_user f;
     Cmd.flag_password := Cmd.flag_password f |}.

(** The values of the form of [sendV2] for a message without [cc]: the
    credentials, the subject, the sender, the recipients and the bodies
    that are not empty. *)
Definition formTable (username password subject : string) (from : Mail.Email)
    (es : list Mail.Email) (html plain : string) : list (string * list string) :=
  [ ("api_user", [username]); ("api_key", [password]); ("subject", [subject]);
    ("from", [Mail.Address from]); ("fromname", [Mail.Name from]);
    ("to", map Mail.Address es); ("toname", map Mail.Name es) ]
  ++ (if Cmd.isEmpty plain then [] else [("text", [plain])])
  ++ (if Cmd.isEmpty html then [] else [("html", [html])]).

(** The keys that a form of [sendV2] has, at most. *)
Definition formKeys : list string :=
  ["api_user"; "api_key"; "subject"; "from"; "fromname";
   "to"; "to[]"; "toname"; "toname[]"; "text"; "html"].

(** The part of a file in the form of [sendV2]: the raw bytes, under the
    path as field name. *)
Definition filePartOf (fn b : string) : Legacy.FilePart :=
  {| Legacy.Fieldname := fn; Legacy.PartFilename := Legacy.basename fn;
     Legacy.PartContent := b |}.

(** The contents of a message with these two bodies: the plain text,
    then the HTML, each only when it is not empty. *)
Definition bodyContents (html plain : string) : list Mail.Content :=
  (if Cmd.isEmpty plain then [] else [Mail.NewContent "text/plain" plain])
  ++ (if Cmd.isEmpty html then [] else [Mail.NewContent "text/html" html]).

(** The run gets as far as the call of the network: [client.Send] on the
    key API, [client.Do] on the user/password API. *)
Definition callsNetwork (o : Legacy.RunOutcome) : Prop :=
  match o with
  | Legacy.SentV3 _ _ => True
  | Legacy.EndedV2 (Legacy.Posted _) => True
  | _ => False
  end.

End Props.

(** * Facts about the library functions *)

Section StringFacts.
Import Strings Spec.

Lemma HasPrefix_app (p t : string) : HasPrefix (p ++ t) p = true.
Proof.
  induction p as [|c p IH]; simpl.
  - reflexivity.
  - rewrite Ascii.eqb_refl. exact IH.
Qed.

Lemma HasPrefix_inv (s p : string) :
  HasPrefix s p = true -> exists t : string, s = (p ++ t)%string.
Proof.
  revert s. induction p as [|c p IH]; intros s H.
  - exists s. reflexivity.
  - destruct s as [|d s]; simpl in H; [discriminate|].
    apply andb_true_iff in H as [Hc Hp].
    apply Ascii.eqb_eq in Hc. subst d.
    destruct (IH s Hp) as [t ->]. exists t. reflexivity.
Qed.

(** [Index] finds nothing exactly in the strings that do not contain the
    substring. *)
Lemma Index_None_of_absent (s sub : string) :
  ~ contains s sub -> Index s sub = None.
Proof.
  induction s as [|c s IH]; intros Habs.
  - simpl. destruct (HasPrefix "" sub) eqn:Hp; [|reflexivity].
    exfalso. apply Habs. apply HasPrefix_inv in Hp as [t Ht].
    exists EmptyString, t. exact Ht.
  - cbn [Index]. destruct (HasPrefix (String c s) sub) eqn:Hp.
    + exfalso. apply Habs. apply HasPrefix_inv in Hp as [t Ht].
      exists EmptyString, t. exact Ht.
    + rewrite IH; [reflexivity|].
      intros (pre & post & ->). apply Habs.
      exists (String c pre), post. reflexivity.
Qed.

Lemma Index_Some_contains (s sub : string) (m : nat) :
  Index s sub = Some m -> contains s sub.
Proof.
  revert m. induction s as [|c s IH]; intros m H; cbn [Index] in H.
  - destruct (HasPrefix "" sub) eqn:Hp; [|discriminate].
    apply HasPrefix_inv in Hp as [t Ht]. exists EmptyString, t. exact Ht.
  - destruct (HasPrefix (String c s) sub) eqn:Hp.
    + apply HasPrefix_inv in Hp as [t Ht]. exists EmptyString, t. exact Ht.
    + destruct (Index s sub) as [k|] eqn:Hk; [|discriminate].
      destruct (IH k eq_refl) as (pre & post & ->).
      exists (String c pre), post. reflexivity.
Qed.

Lemma Index_Some_of_contains (s sub : string) :
  contains s sub -> exists m, Index s sub = Some m.
Proof.
  intros (pre & post & ->). induction pre as [|c pre IH].
  - exists 0. change ("" ++ sub ++ post)%string with (sub ++ post)%string.
    pose proof (HasPrefix_app sub post) as Hp.
    destruct (sub ++ post)%string; cbn [Index]; rewrite Hp; reflexivity.
  - destruct IH as [m Hm].
    change (String c pre ++ sub ++ post)%string with (String c (pre ++ sub ++ post)).
    cbn [Index]. destruct (HasPrefix _ sub); [exists 0; reflexivity|].
    rewrite Hm. exists (S m). reflexivity.
Qed.

Lemma absent_of_Index_None (s sub : string) :
  Index s sub = None -> ~ contains s sub.
Proof.
  intros H Hc. apply Index_Some_of_contains in Hc as [m Hm]. congruence.
Qed.

Lemma genSplit_absent (n : nat) (s sep : string) :
  Index s sep = None -> genSplit n s sep = [s].
Proof. intros H. destruct n; simpl; [|rewrite H]; reflexivity. Qed.

(** Without the separator, [Split] gives the string itself. *)
Lemma Split_absent (s sep : string) :
  ~ contains s sep -> Split s sep = [s].
Proof. intros H. apply genSplit_absent, Index_None_of_absent, H. Qed.

Lemma genSplit_not_nil (n : nat) (s sep : string) : genSplit n s sep <> [].
Proof.
  destruct n; simpl; [discriminate|]. destruct (Index s sep); discriminate.
Qed.

Lemma length_sliceFrom (n : nat) (s : string) :
  String.length (sliceFrom n s) = String.length s - n.
Proof.
  revert s. induction n as [|n IH]; intros [|c s]; simpl; try reflexivity.
  apply IH.
Qed.

Lemma length_append (a b : string) :
  String.length (a ++ b) = String.length a + String.length b.
Proof. induction a as [|c a IH]; simpl; [reflexivity|]. rewrite IH. reflexivity. Qed.

Lemma HasPrefix_length (s p : string) :
  HasPrefix s p = true -> String.length p <= String.length s.
Proof.
  intros H. apply HasPrefix_inv in H as [t ->].
  rewrite length_append. lia.
Qed.

Lemma Index_bound (s sep : string) (i : nat) :
  Index s sep = Some i -> i + String.length sep <= String.length s.
Proof.
  revert i. induction s as [|c s IH]; intros i; cbn [Index].
  - destruct (HasPrefix "" sep) eqn:Hp; [|discriminate].
    intros [= <-]. apply HasPrefix_length in Hp. exact Hp.
  - destruct (HasPrefix (String c s) sep) eqn:Hp.
    + intros [= <-]. apply HasPrefix_length in Hp. exact Hp.
    + destruct (Index s sep) as [k|]; [|discriminate].
      intros [= <-]. specialize (IH k eq_refl). simpl. lia.
Qed.

(** The number of turns given to the loop of [Count] is enough: more
    turns count the same occurrences. *)
Lemma countLoop_stable (sep : string) (n m : nat) (s : string) :
  sep <> EmptyString -> String.length s <= n -> String.length s <= m ->
  countLoop n s sep = countLoop m s sep.
Proof.
  intros Hsep. revert m s. induction n as [|n IH]; intros m s Hn Hm.
  - destruct s; [|simpl in Hn; lia].
    assert (Hi : Index "" sep = None) by (destruct sep; [congruence|reflexivity]).
    destruct m; cbn [countLoop]; [|rewrite Hi]; reflexivity.
  - destruct m as [|m].
    + destruct s; [|simpl in Hm; lia].
      assert (Hi : Index "" sep = None) by (destruct sep; [congruence|reflexivity]).
      cbn [countLoop]. rewrite Hi. reflexivity.
    + cbn [countLoop]. destruct (Index s sep) as [i|] eqn:Hi; [|reflexivity].
      f_equal. apply Index_bound in Hi.
      assert (0 < String.length sep) by (destruct sep; [congruence|simpl; lia]).
      apply IH; rewrite length_sliceFrom; lia.
Qed.

(** [Split] cuts at every occurrence: with the count of the occurrences,
    the loop of [genSplit] never stops for want of cuts. *)
Lemma genSplit_stable (sep : string) (k n : nat) (s : string) :
  sep <> EmptyString -> String.length s <= k -> countLoop k s sep <= n ->
  genSplit n s sep = genSplit (countLoop k s sep) s sep.
Proof.
  intros Hsep. revert n s. induction k as [|k IH]; intros n s Hk Hn.
  - destruct s; [|simpl in Hk; lia].
    assert (Hi : Index "" sep = None) by (destruct sep; [congruence|reflexivity]).
    cbn [countLoop]. apply genSplit_absent, Hi.
  - cbn [countLoop] in *. destruct (Index s sep) as [i|] eqn:Hi.
    + destruct n as [|n]; [lia|]. cbn [genSplit]. rewrite Hi. f_equal.
      apply Index_bound in Hi.
      assert (0 < String.length sep) by (destruct sep; [congruence|simpl; lia]).
      apply IH; [rewrite length_sliceFrom; lia|lia].
    + apply genSplit_absent, Hi.
Qed.

Lemma Split_all_cuts (s sep : string) (n : nat) :
  sep <> EmptyString -> Count s sep <= n -> genSplit n s sep = Split s sep.
Proof. intros Hsep Hn. apply genSplit_stable; [exact Hsep|lia|exact Hn]. Qed.

Lemma lastByte_cons (c : ascii) (s : string) :
  s <> EmptyString -> lastByte (String c s) = lastByte s.
Proof. destruct s; [congruence|reflexivity]. Qed.

Lemma firstByte_trimLeftASCII (s cutset : string) (c : ascii) :
  firstByte (trimLeftASCII s cutset) = Some c -> inCutset cutset c = false.
Proof.
  induction s as [|d s IH]; simpl; [discriminate|].
  destruct (inCutset cutset d) eqn:Hd; [exact IH|].
  simpl. intros [= <-]. exact Hd.
Qed.

Lemma lastByte_trimLeftASCII (s cutset : string) (c : ascii) :
  lastByte (trimLeftASCII s cutset) = Some c -> lastByte s = Some c.
Proof.
  induction s as [|d s IH]; [intros H; exact H|].
  cbn [trimLeftASCII]. destruct (inCutset cutset d); [|intros H; exact H].
  intros H. destruct s as [|e s]; [discriminate H|].
  rewrite lastByte_cons by discriminate. apply IH, H.
Qed.

Lemma lastByte_trimRightASCII (s cutset : string) (c : ascii) :
  lastByte (trimRightASCII s cutset) = Some c -> inCutset cutset c = false.
Proof.
  induction s as [|d s IH]; cbn [trimRightASCII]; [discriminate|].
  destruct (trimRightASCII s cutset) as [|e t] eqn:Ht.
  - destruct (inCutset cutset d) eqn:Hd; [discriminate|].
    simpl. intros [= <-]. exact Hd.
  - rewrite lastByte_cons by discriminate. exact IH.
Qed.

(** The result of [Trim] neither begins nor ends with a byte of the
    cutset. *)
Lemma Trim_edges (s cutset : string) (c : ascii) :
  cutset <> EmptyString -> atEdge (Trim s cutset) c -> inCutset cutset c = false.
Proof.
  intros Hcut Hedge. unfold Trim in Hedge.
  destruct s as [|d s]; [destruct Hedge; discriminate|].
  destruct cutset as [|k cutset]; [congruence|].
  destruct Hedge as [H|H].
  - eapply firstByte_trimLeftASCII, H.
  - eapply lastByte_trimRightASCII, lastByte_trimLeftASCII, H.
Qed.

Lemma trimRightASCII_clean (s cutset : string) :
  (forall c, lastByte s = Some c -> inCutset cutset c = false) ->
  trimRightASCII s cutset = s.
Proof.
  induction s as [|d s IH]; intros H; cbn [trimRightASCII]; [reflexivity|].
  destruct s as [|e s].
  - simpl. rewrite (H d eq_refl). reflexivity.
  - rewrite IH; [reflexivity|].
    intros c Hc. apply H. rewrite lastByte_cons by discriminate. exact Hc.
Qed.

(** [Trim] leaves alone a string with no byte of the cutset at its ends. *)
Lemma Trim_clean (s cutset : string) :
  (forall c, atEdge s c -> inCutset cutset c = false) -> Trim s cutset = s.
Proof.
  intros H. unfold Trim. destruct s as [|d s]; [reflexivity|].
  destruct cutset as [|k cutset]; [reflexivity|].
  rewrite trimRightASCII_clean by (intros c Hc; apply H; right; exact Hc).
  cbn [trimLeftASCII]. rewrite (H d) by (left; reflexivity). reflexivity.
Qed.

Lemma inCutset_brackets (c : ascii) :
  inCutset " ><" c = false <-> ~ isBracketOrSpace c.
Proof.
  unfold isBracketOrSpace. simpl. rewrite orb_false_r, !orb_false_iff.
  rewrite !Ascii.eqb_neq. tauto.
Qed.

End StringFacts.

(** * The matcher against the language of the regular expressions *)

Section RegexpFacts.
Import Regexp Spec.

Lemma append_nil_inv (a b : string) :
  (a ++ b)%string = EmptyString -> a = EmptyString /\ b = EmptyString.
Proof. destruct a; simpl; [auto|discriminate]. Qed.

Lemma append_cons_inv (a b : string) (c : ascii) (s : string) :
  (a ++ b)%string = String c s ->
  (a = EmptyString /\ b = String c s) \/
  (exists a', a = String c a' /\ s = (a' ++ b)%string).
Proof.
  destruct a as [|d a]; simpl; [auto|].
  intros [= -> <-]. right. exists a. auto.
Qed.

Lemma append_cons (d : ascii) (a b : string) :
  (String d a ++ b)%string = String d (a ++ b).
Proof. reflexivity. Qed.

Lemma append_assoc (a b c : string) : ((a ++ b) ++ c = a ++ b ++ c)%string.
Proof.
  induction a as [|d a IH]; [reflexivity|].
  rewrite !append_cons, IH. reflexivity.
Qed.

Lemma Matches_Empty_inv (s : string) : Matches Empty s -> s = EmptyString.
Proof. intros H. inversion H. reflexivity. Qed.

Lemma Matches_Class_inv (p : ascii -> bool) (s : string) :
  Matches (Class p) s -> exists c, s = String c EmptyString /\ p c = true.
Proof. intros H. inversion H; subst. eauto. Qed.

Lemma Matches_Cat_inv (r1 r2 : Regexp) (s : string) :
  Matches (Cat r1 r2) s ->
  exists s1 s2 : string, s = (s1 ++ s2)%string /\ Matches r1 s1 /\ Matches r2 s2.
Proof. intros H. inversion H; subst. eauto. Qed.

Lemma Matches_Alt_inv (r1 r2 : Regexp) (s : string) :
  Matches (Alt r1 r2) s -> Matches r1 s \/ Matches r2 s.
Proof. intros H. inversion H; subst; auto. Qed.

Lemma Matches_nullable (r : Regexp) : Matches r EmptyString <-> nullable r = true.
Proof.
  induction r as [| |p|r1 IH1 r2 IH2|r1 IH1 r2 IH2|r IH]; simpl.
  - split; [intros H; inversion H|discriminate].
  - split; [reflexivity|constructor].
  - split; [intros H; inversion H|discriminate].
  - rewrite andb_true_iff, <- IH1, <- IH2. split.
    + intros H. apply Matches_Cat_inv in H as (s1 & s2 & E & H1 & H2).
      symmetry in E. apply append_nil_inv in E as [-> ->]. auto.
    + intros [H1 H2]. exact (MCat r1 r2 "" "" H1 H2).
  - rewrite orb_true_iff, <- IH1, <- IH2. split.
    + apply Matches_Alt_inv.
    + intros [H|H]; [apply MAltL|apply MAltR]; exact H.
  - split; [reflexivity|constructor].
Qed.

(** A non-empty match of a star begins with a non-empty match of its
    body. *)
Lemma Matches_Star_cons (r : Regexp) (c : ascii) (s : string) :
  Matches (Star r) (String c s) ->
  exists s1 s2 : string,
    s = (s1 ++ s2)%string /\ Matches r (String c s1) /\ Matches (Star r) s2.
Proof.
  intros H. remember (Star r) as r' eqn:Er. remember (String c s) as t eqn:Et.
  revert s Et. induction H as [| | | | | |r0 s1 s2 H1 _ H2 IH2]; intros u Et;
    try discriminate.
  injection Er as ->. apply append_cons_inv in Et as [[-> ->]|(s1' & -> & ->)].
  - apply IH2; reflexivity.
  - exists s1', s2. auto.
Qed.

Lemma Matches_deriv (r : Regexp) (c : ascii) (s : string) :
  Matches (deriv c r) s <-> Matches r (String c s).
Proof.
  revert s. induction r as [| |p|r1 IH1 r2 IH2|r1 IH1 r2 IH2|r IH]; intros s; simpl.
  - split; intros H; inversion H.
  - split; intros H; inversion H.
  - destruct (p c) eqn:Hp; split; intros H.
    + apply Matches_Empty_inv in H as ->. constructor. exact Hp.
    + apply Matches_Class_inv in H as (d & [= <- ->] & _). constructor.
    + inversion H.
    + apply Matches_Class_inv in H as (d & [= <- ->] & Hd). congruence.
  - split.
    + intros H.
      assert (Hcat : Matches (Cat (deriv c r1) r2) s -> Matches (Cat r1 r2) (String c s)).
      { intros H'. apply Matches_Cat_inv in H' as (s1 & s2 & -> & H1 & H2).
        apply IH1 in H1. exact (MCat r1 r2 (String c s1) s2 H1 H2). }
      destruct (nullable r1) eqn:Hn; [|exact (Hcat H)].
      apply Matches_Alt_inv in H as [H|H]; [exact (Hcat H)|].
      apply Matches_nullable in Hn.
      apply (MCat r1 r2 "" (String c s) Hn). apply IH2. exact H.
    + intros H. apply Matches_Cat_inv in H as (s1 & s2 & E & H1 & H2).
      symmetry in E. apply append_cons_inv in E as [[-> ->]|(s1' & -> & ->)].
      * apply Matches_nullable in H1 as Hn. rewrite Hn.
        apply MAltR, IH2, H2.
      * apply IH1 in H1. pose proof (MCat _ _ _ _ H1 H2) as Hc.
        destruct (nullable r1); [apply MAltL|]; exact Hc.
  - split; intros H.
    + apply Matches_Alt_inv in H as [H|H]; [apply MAltL, IH1|apply MAltR, IH2]; exact H.
    + apply Matches_Alt_inv in H as [H|H]; [apply MAltL, IH1|apply MAltR, IH2]; exact H.
  - split.
    + intros H. apply Matches_Cat_inv in H as (s1 & s2 & -> & H1 & H2).
      apply IH in H1. exact (MStarS r (String c s1) s2 H1 H2).
    + intros H. apply Matches_Star_cons in H as (s1 & s2 & -> & H1 & H2).
      apply MCat; [apply IH, H1|exact H2].
Qed.

(** The matcher decides the language. *)
Lemma fullMatch_Matches (r : Regexp) (s : string) :
  fullMatch r s = true <-> Matches r s.
Proof.
  revert r. induction s as [|c s IH]; intros r; simpl.
  - symmetry. apply Matches_nullable.
  - rewrite IH. apply Matches_deriv.
Qed.

Lemma Matches_Star_AnyByte (s : string) : Matches (Star AnyByte) s.
Proof.
  induction s as [|c s IH]; [constructor|].
  apply (MStarS AnyByte (String c "") s); [constructor; reflexivity|exact IH].
Qed.

(** [MatchString] finds a match of the pattern somewhere in the string. *)
Lemma MatchString_Matches (pattern : Regexp) (s : string) :
  MatchString pattern s = true <->
  exists pre mid post : string, s = (pre ++ mid ++ post)%string /\ Matches pattern mid.
Proof.
  unfold MatchString. rewrite fullMatch_Matches. split.
  - intros H. apply Matches_Cat_inv in H as (pre & rest & -> & _ & H).
    apply Matches_Cat_inv in H as (mid & post & -> & Hm & _).
    exists pre, mid, post. auto.
  - intros (pre & mid & post & -> & Hm).
    apply MCat; [apply Matches_Star_AnyByte|].
    apply MCat; [exact Hm|apply Matches_Star_AnyByte].
Qed.

(** The strings of a starred class: all their bytes are in the class. *)
Lemma Matches_Star_Class (p : ascii -> bool) (s : string) :
  Matches (Star (Class p)) s <-> allBytes p s = true.
Proof.
  split.
  - induction s as [|c s IH]; intros H; [reflexivity|].
    apply Matches_Star_cons in H as (s1 & s2 & -> & H1 & H2).
    apply Matches_Class_inv in H1 as (d & [= <- ->] & Hd).
    change ("" ++ s2)%string with s2.
    simpl. apply andb_true_iff. split; [exact Hd|apply IH, H2].
  - induction s as [|c s IH]; simpl; [constructor|].
    intros H. apply andb_true_iff in H as [Hc Hs].
    apply (MStarS (Class p) (String c "") s); [constructor; exact Hc|auto].
Qed.

Lemma allBytes_append (p : ascii -> bool) (a b : string) :
  allBytes p (a ++ b) = allBytes p a && allBytes p b.
Proof.
  induction a as [|c a IH]; [reflexivity|].
  rewrite append_cons. simpl. rewrite IH. apply andb_assoc.
Qed.

Lemma allBytes_weaken (p q : ascii -> bool) (s : string) :
  (forall c, p c = true -> q c = true) -> allBytes p s = true -> allBytes q s = true.
Proof.
  intros Hpq. induction s as [|c s IH]; simpl; [reflexivity|].
  intros H. apply andb_true_iff in H as [Hc Hs].
  apply andb_true_iff. auto.
Qed.

(** What the pattern of [messageBodies] matches: ['<'], a word byte, any
    bytes other than ['>'], and ['>']. *)
Lemma Matches_htmlTag (mid : string) :
  Matches Cmd.htmlTag mid <->
  exists (w : ascii) (body : string),
    mid = String "<" (String w (body ++ ">")) /\
    isWord w = true /\ allBytes (fun b => negb (Ascii.eqb ">" b)) body = true.
Proof.
  unfold Cmd.htmlTag, Plus, Lit, Not. split.
  - intros H. apply Matches_Cat_inv in H as (lt & s2 & -> & Hlt & H).
    apply Matches_Class_inv in Hlt as (c & -> & Hc). apply Ascii.eqb_eq in Hc. subst c.
    apply Matches_Cat_inv in H as (ws & s3 & -> & Hws & H).
    apply Matches_Cat_inv in Hws as (w1 & ws' & -> & Hw1 & Hws').
    apply Matches_Class_inv in Hw1 as (w & -> & Hw).
    apply Matches_Cat_inv in H as (ns & gt & -> & Hns & Hgt).
    apply Matches_Class_inv in Hgt as (c & -> & Hc). apply Ascii.eqb_eq in Hc. subst c.
    apply Matches_Star_Class in Hws', Hns.
    exists w, (ws' ++ ns)%string. split; [|split].
    + rewrite !append_cons. rewrite !append_assoc. reflexivity.
    + exact Hw.
    + rewrite allBytes_append, Hns, andb_true_r.
      revert Hws'. apply allBytes_weaken. intros c Hc.
      destruct (Ascii.eqb ">" c) eqn:E; [|reflexivity].
      apply Ascii.eqb_eq in E. subst c. discriminate.
  - intros (w & body & -> & Hw & Hbody).
    apply (MCat _ _ (String "<" "") (String w (body ++ ">"))).
    { constructor. apply Ascii.eqb_refl. }
    apply (MCat _ _ (String w "") (body ++ ">")).
    { apply (MCat _ _ (String w "") ""); [constructor; exact Hw|constructor]. }
    apply MCat; [apply Matches_Star_Class, Hbody|].
    constructor. apply Ascii.eqb_refl.
Qed.

(** X6: an argument looks like HTML exactly when it holds ['<'], a word byte, any
    bytes other than ['>'], and ['>']. *)
Lemma looksLikeHTML_iff (b : string) :
  looksLikeHTML b = true <->
  exists (pre : string) (w : ascii) (body post : string),
    b = (pre ++ String "<" (String w (body ++ String ">" post)))%string /\
    isWord w = true /\ allBytes (fun c => negb (Ascii.eqb ">" c)) body = true.
Proof.
  unfold looksLikeHTML. rewrite MatchString_Matches. split.
  - intros (pre & mid & post & -> & Hm).
    apply Matches_htmlTag in Hm as (w & body & -> & Hw & Hbody).
    exists pre, w, body, post. split; [|auto].
    rewrite !append_cons, append_assoc. reflexivity.
  - intros (pre & w & body & post & -> & Hw & Hbody).
    exists pre, (String "<" (String w (body ++ ">"))), post. split.
    + rewrite !append_cons, append_assoc. reflexivity.
    + apply Matches_htmlTag. exists w, body. auto.
Qed.

End RegexpFacts.

(** * The address parser *)

Section AddressParser.
Import Strings Spec Mail Cmd.

Lemma isEmpty_false (s : string) : s <> EmptyString -> isEmpty s = false.
Proof. intros H. apply String.eqb_neq, H. Qed.

Lemma isEmpty_true (s : string) : isEmpty s = true <-> s = EmptyString.
Proof. apply String.eqb_eq. Qed.

(** What [createAddress] returns: both fields are trimmed elements of the
    split, the name the first one, the address the second one when there
    is one. *)
Lemma createAddress_Ok (raw : string) (e : Email) :
  createAddress raw = Ok e ->
  exists p0 rest,
    Split raw " <" = p0 :: rest /\ raw <> EmptyString /\ p0 <> EmptyString /\
    Name e = Trim p0 " ><" /\
    Address e = Trim (match rest with [] => p0 | p1 :: _ => p1 end) " ><".
Proof.
  unfold createAddress. destruct (isEmpty raw) eqn:Hraw; [discriminate|].
  destruct (Split raw " <") as [|p0 rest] eqn:Hsplit; [discriminate|].
  cbn [lookup list_lookup]. destruct (isEmpty p0) eqn:Hp0; [discriminate|].
  intros H. exists p0, rest.
  assert (raw <> EmptyString) by (intros ->; discriminate).
  assert (p0 <> EmptyString) by (intros ->; discriminate).
  destruct rest as [|p1 rest]; simpl in H; injection H as <-; auto.
Qed.

(** [createAddress] never panics. *)
Lemma createAddress_no_panic (raw : string) : createAddress raw <> Panic.
Proof.
  unfold createAddress. destruct (isEmpty raw); [discriminate|].
  destruct (Split raw " <") as [|p0 rest]; [discriminate|].
  cbn [lookup list_lookup]. destruct (isEmpty p0); [discriminate|].
  destruct rest as [|p1 rest]; simpl; discriminate.
Qed.

(** C2, as amended: for every non-empty [raw] that does not contain
    [" <"], [createAddress] returns an address whose display name and
    address are both [raw] without its leading and trailing spaces, ['<']
    and ['>']; they are [raw] itself when [raw] neither begins nor ends
    with one of these bytes. *)
Theorem C2_createAddress_without_separator (raw : string) :
  raw <> EmptyString -> ~ contains raw " <" ->
  createAddress raw = Ok (NewEmail (Trim raw " ><") (Trim raw " ><")) /\
  (cleanEdges raw -> createAddress raw = Ok (NewEmail raw raw)).
Proof.
  intros Hne Habs.
  assert (H : createAddress raw = Ok (NewEmail (Trim raw " ><") (Trim raw " ><"))).
  { unfold createAddress. rewrite (isEmpty_false raw Hne).
    rewrite (Split_absent raw " <" Habs). cbn [lookup list_lookup].
    rewrite (isEmpty_false raw Hne). reflexivity. }
  split; [exact H|].
  intros Hclean. rewrite H, Trim_clean; [reflexivity|].
  intros c Hc. apply inCutset_brackets, Hclean, Hc.
Qed.

Lemma C2_createAddress_without_separator_witness :
  createAddress "name@domain.name"
  = Ok (NewEmail (Trim "name@domain.name" " ><") (Trim "name@domain.name" " ><")) /\
  createAddress "name@domain.name" = Ok (NewEmail "name@domain.name" "name@domain.name").
Proof.
  destruct (C2_createAddress_without_separator "name@domain.name") as [H1 H2].
  - discriminate.
  - apply absent_of_Index_None. reflexivity.
  - split; [exact H1|]. apply H2.
    intros c [H|H]; injection H as <-; intros [|[|]]; discriminate.
Defined.

(** C2, as stated, fails: ["<a@b.c>"] is not empty and does not contain
    [" <"], and the address parsed from it is ["a@b.c"], not the raw
    string. *)
Lemma C2_counterexample :
  "<a@b.c>" <> EmptyString /\ ~ contains "<a@b.c>" " <" /\
  createAddress "<a@b.c>" = Ok (NewEmail "a@b.c" "a@b.c") /\
  createAddress "<a@b.c>" <> Ok (NewEmail "<a@b.c>" "<a@b.c>").
Proof.
  split; [discriminate|]. split; [apply absent_of_Index_None; reflexivity|].
  split; [reflexivity|]. discriminate.
Qed.

(** C10: every address that [createAddress] returns has a display name
    and an address that neither begin nor end with a space, ['<'] or
    ['>']. *)
Theorem C10_createAddress_clean_edges (raw : string) (e : Email) :
  createAddress raw = Ok e -> cleanEdges (Name e) /\ cleanEdges (Address e).
Proof.
  intros H. apply createAddress_Ok in H as (p0 & rest & _ & _ & _ & -> & ->).
  split; intros c Hc; apply inCutset_brackets;
    (eapply Trim_edges; [discriminate|exact Hc]).
Qed.

Lemma C10_createAddress_clean_edges_witness :
  cleanEdges "Full Name" /\ cleanEdges "name@domain.name".
Proof.
  apply (C10_createAddress_clean_edges " Full Name <<name@domain.name>> "
           (NewEmail "Full Name" "name@domain.name")).
  reflexivity.
Defined.

End AddressParser.

(** * The result monad *)

Section ResultFacts.
Import Cmd.

Lemma bind_Ok_inv {A B : Type} (r : result A) (k : A -> result B) (b : B) :
  r ≫= k = Ok b -> exists a, r = Ok a /\ k a = Ok b.
Proof. destruct r as [a| |]; simpl; [|discriminate..]. intros H. exists a. auto. Qed.

Lemma bind_Fatal_inv {A B : Type} (r : result A) (k : A -> result B) (e : fatal) :
  r ≫= k = Fatal e -> r = Fatal e \/ exists a, r = Ok a /\ k a = Fatal e.
Proof.
  destruct r as [a| |]; simpl; [|intros [= ->]; left; reflexivity|discriminate].
  intros H. right. exists a. auto.
Qed.

Lemma bind_Panic_inv {A B : Type} (r : result A) (k : A -> result B) :
  r ≫= k = Panic -> r = Panic \/ exists a, r = Ok a /\ k a = Panic.
Proof.
  destruct r as [a| |]; simpl; [|discriminate|intros _; left; reflexivity].
  intros H. right. exists a. auto.
Qed.

End ResultFacts.

(** * The choice of the bodies *)

Section Bodies.
Import Strings Spec Mail Cmd.
Variable h : Host.

(** The scan ends without a [return] exactly when no argument matches. *)
Lemma scanArgs_None (args rest : list string) (i : nat) :
  scanArgs h args i rest = None <-> Forall (fun b => looksLikeHTML b = false) rest.
Proof.
  revert i. induction rest as [|b rest IH]; intros i; simpl.
  - split; [constructor|reflexivity].
  - fold (looksLikeHTML b). destruct (looksLikeHTML b) eqn:Hb.
    + split; [discriminate|]. intros H. inversion H; congruence.
    + rewrite IH. split; [constructor; assumption|]. intros H. inversion H; assumption.
Qed.

(** A [return] inside the scan returns two bodies: no fatal error, no
    index out of range. *)
Lemma scanArgs_Some (args rest : list string) (i : nat) (r : result (string * string)) :
  args <> [] -> scanArgs h args i rest = Some r -> exists bodies, r = Ok bodies.
Proof.
  intros Hargs. revert i. induction rest as [|b rest IH]; intros i; simpl; [discriminate|].
  destruct (Regexp.MatchString htmlTag b); [|apply IH].
  intros [= <-].
  destruct args as [|a0 [|a1 args]]; [congruence| |]; simpl.
  - eexists; reflexivity.
  - destruct i as [|[|i]]; simpl; eexists; reflexivity.
Qed.

(** [messageBodies] fails exactly on no argument at all, and on an empty
    first argument when no argument looks like HTML. *)
Lemma messageBodies_Fatal (args : list string) (e : fatal) :
  messageBodies h args = Fatal e <->
  (args = [] /\ e = MissingMessageBodyNoArgs) \/
  (args !! 0 = Some EmptyString /\ Forall (fun b => looksLikeHTML b = false) args
   /\ e = MissingMessageBody).
Proof.
  unfold messageBodies. destruct args as [|a0 args].
  - simpl. split.
    + intros [= <-]. left. auto.
    + intros [[_ ->]|[H _]]; [reflexivity|discriminate].
  - change ((length (a0 :: args) =? 0)%nat) with false. cbv iota.
    destruct (scanArgs h (a0 :: args) 0 (a0 :: args)) as [r|] eqn:Hscan.
    + split.
      * intros ->. apply scanArgs_Some in Hscan as [bodies Hb]; [discriminate|discriminate].
      * intros [[H _]|(_ & Hall & _)]; [discriminate|].
        apply (scanArgs_None (a0 :: args) (a0 :: args) 0) in Hall. congruence.
    + apply scanArgs_None in Hscan. simpl. destruct (isEmpty a0) eqn:Ha0.
      * apply isEmpty_true in Ha0. subst a0. split.
        -- intros [= <-]. right. auto.
        -- intros [[H _]|(_ & _ & ->)]; [discriminate|reflexivity].
      * split; [discriminate|].
        intros [[H _]|(H & _ & _)]; [discriminate|].
        injection H as ->. discriminate.
Qed.

Lemma messageBodies_no_panic (args : list string) : messageBodies h args <> Panic.
Proof.
  unfold messageBodies. destruct args as [|a0 args]; [discriminate|].
  change ((length (a0 :: args) =? 0)%nat) with false. cbv iota.
  destruct (scanArgs h (a0 :: args) 0 (a0 :: args)) as [r|] eqn:Hscan.
  - apply scanArgs_Some in Hscan as [bodies ->]; discriminate.
  - simpl. destruct (isEmpty a0); discriminate.
Qed.

Lemma contentOf_no_panic (f : Flags) (args : list string) : contentOf h f args <> Panic.
Proof.
  unfold contentOf, readFile.
  destruct (negb (isEmpty (flag_html f)) || negb (isEmpty (flag_plain f))).
  - destruct (negb (isEmpty (flag_html f))), (negb (isEmpty (flag_plain f)));
      repeat (match goal with |- context [ReadFile h ?x] => destruct (ReadFile h x) end; simpl);
      discriminate.
  - destruct (isEmpty (flag_template_id f) || (0 <? length args)%nat);
      [apply messageBodies_no_panic|].
    destruct (isEmpty (flag_template_id f)); discriminate.
Qed.


(** C9: with two positional arguments that both look like HTML, the scan
    stops at the first one: it is the HTML body, and the second one is
    the plain-text body. *)
Theorem C9_two_html_arguments (a b : string) :
  looksLikeHTML a = true -> looksLikeHTML b = true ->
  messageBodies h [a; b] = Ok (a, b) /\ scanArgs h [a; b] 0 [a; b] = Some (Ok (a, b)).
Proof.
  intros Ha _. unfold messageBodies, looksLikeHTML in *. simpl. rewrite Ha. simpl.
  destruct (isEmpty b) eqn:Hb; simpl; [|auto].
  apply isEmpty_true in Hb. subst b. auto.
Qed.

(** When the choice of the bodies fails for want of a body. *)
Lemma contentOf_missing_body (f : Flags) (args : list string) :
  (exists e, contentOf h f args = Fatal e /\ kind e = MissingBodyError) <->
  flag_html f = EmptyString /\ flag_plain f = EmptyString /\
  ((args = [] /\ flag_template_id f = EmptyString) \/
   (args !! 0 = Some EmptyString /\ Forall (fun b => looksLikeHTML b = false) args)).
Proof.
  - unfold contentOf.
    destruct (isEmpty (flag_html f)) eqn:Hh; destruct (isEmpty (flag_plain f)) eqn:Hp; simpl;
      try apply isEmpty_true in Hh; try apply isEmpty_true in Hp.
    + destruct (isEmpty (flag_template_id f)) eqn:Ht; simpl.
      * apply isEmpty_true in Ht. split.
        -- intros (e & He & _). apply messageBodies_Fatal in He.
           destruct He as [[-> _]|(H0 & Hall & _)]; auto 6.
        -- intros (_ & _ & [[-> _]|[H0 Hall]]).
           ++ exists MissingMessageBodyNoArgs. split; [reflexivity|reflexivity].
           ++ exists MissingMessageBody. split; [|reflexivity].
              apply messageBodies_Fatal. auto.
      * assert (Hne : flag_template_id f <> EmptyString) by (intros E; rewrite E in Ht; discriminate).
        destruct args as [|a0 args]; simpl.
        -- split; [intros (e & He & _); discriminate|].
           intros (_ & _ & [[_ E]|[H0 _]]); [congruence|discriminate].
        -- split.
           ++ intros (e & He & _). apply messageBodies_Fatal in He.
              destruct He as [[E _]|(H0 & Hall & _)]; [discriminate|auto 6].
           ++ intros (_ & _ & [[E _]|[H0 Hall]]); [discriminate|].
              exists MissingMessageBody. split; [|reflexivity].
              apply messageBodies_Fatal. auto.
    + split; [|intros (_ & E & _); rewrite E in Hp; discriminate].
      intros (e & He & Hk). exfalso. unfold readFile in He.
      destruct (ReadFile h (flag_plain f)); simpl in He; [discriminate|].
      injection He as <-. discriminate.
    + split; [|intros (E & _); rewrite E in Hh; discriminate].
      intros (e & He & Hk). exfalso. unfold readFile in He.
      destruct (ReadFile h (flag_html f)); simpl in He; [discriminate|].
      injection He as <-. discriminate.
    + split; [|intros (E & _); rewrite E in Hh; discriminate].
      intros (e & He & Hk). exfalso. unfold readFile in He.
      destruct (ReadFile h (flag_html f)); simpl in He;
        [destruct (ReadFile h (flag_plain f)); simpl in He; [discriminate|]|];
        injection He as <-; discriminate.
Qed.

End Bodies.


Lemma C9_two_html_arguments_witness :
  Cmd.messageBodies Sample.host ["<p>hi</p>"; "<b>x</b>"] = Cmd.Ok ("<p>hi</p>", "<b>x</b>") /\
  Cmd.scanArgs Sample.host ["<p>hi</p>"; "<b>x</b>"] 0 ["<p>hi</p>"; "<b>x</b>"]
  = Some (Cmd.Ok ("<p>hi</p>", "<b>x</b>")).
Proof.
  apply (C9_two_html_arguments Sample.host "<p>hi</p>" "<b>x</b>"); reflexivity.
Defined.

(** C5, as stated, fails: with no body file and no template id, the one
    positional argument [""] ends the run with "Missing message body.",
    and so it does when a template id is given. *)
Lemma C5_counterexample :
  Cmd.contentOf Sample.host Sample.flags [""] = Cmd.Fatal Cmd.MissingMessageBody /\
  Cmd.contentOf Sample.host Sample.templateFlags [""] = Cmd.Fatal Cmd.MissingMessageBody /\
  Cmd.kind Cmd.MissingMessageBody = Cmd.MissingBodyError /\
  [""] <> @nil string /\ Cmd.flag_template_id Sample.templateFlags <> EmptyString.
Proof. repeat split; discriminate. Qed.

(** * The run: checks, recipients, credentials, message *)

Section Send.
Import Strings Spec Mail Cmd.
Variable h : Host.

Lemma createAddress_Fatal (raw : string) (e : fatal) :
  createAddress raw = Fatal e -> kind e = InvalidAddressError.
Proof.
  unfold createAddress. destruct (isEmpty raw); [intros [= <-]; reflexivity|].
  destruct (Split raw " <") as [|p0 rest]; [intros [= <-]; reflexivity|].
  cbn [lookup list_lookup]. destruct (isEmpty p0); [intros [= <-]; reflexivity|].
  destruct rest; simpl; discriminate.
Qed.

(** The loop that fills a slice of addresses keeps its length, fails only
    on an address, and stays in range when the slice is as long as the
    list it ranges over. *)
Lemma fillAddresses_length (raws : list string) (i : nat) (dst dst' : list (option Email)) :
  fillAddresses i raws dst = Ok dst' -> length dst' = length dst.
Proof.
  revert i dst. induction raws as [|raw raws IH]; intros i dst; simpl.
  - intros [= <-]. reflexivity.
  - intros H. apply bind_Ok_inv in H as (e & _ & H).
    apply bind_Ok_inv in H as (d & Hd & H). apply IH in H. rewrite H.
    unfold assign in Hd. destruct (decide (i < length dst)); [|discriminate].
    injection Hd as <-. apply length_insert.
Qed.

Lemma fillAddresses_Fatal (raws : list string) (i : nat) (dst : list (option Email)) (e : fatal) :
  fillAddresses i raws dst = Fatal e -> kind e = InvalidAddressError.
Proof.
  revert i dst. induction raws as [|raw raws IH]; intros i dst; simpl; [discriminate|].
  intros H. apply bind_Fatal_inv in H as [H|(a & _ & H)]; [eapply createAddress_Fatal, H|].
  apply bind_Fatal_inv in H as [H|(d & _ & H)]; [|eapply IH, H].
  unfold assign in H. destruct (decide (i < length dst)); discriminate.
Qed.

Lemma fillAddresses_no_panic (raws : list string) (i : nat) (dst : list (option Email)) :
  i + length raws <= length dst -> fillAddresses i raws dst <> Panic.
Proof.
  revert i dst. induction raws as [|raw raws IH]; intros i dst Hlen; simpl; [discriminate|].
  simpl in Hlen. intros H.
  apply bind_Panic_inv in H as [H|(a & _ & H)]; [exact (createAddress_no_panic raw H)|].
  apply bind_Panic_inv in H as [H|(d & Hd & H)];
    unfold assign in *; destruct (decide (i < length dst)); try discriminate; try lia.
  injection Hd as <-. revert H. apply IH. rewrite length_insert. lia.
Qed.

(** What the loop leaves in the slice: the parsed addresses, in order,
    from index [i] on. *)
Lemma fillAddresses_Ok (raws : list string) (i : nat) (dst dst' : list (option Email)) :
  fillAddresses i raws dst = Ok dst' ->
  exists es, Forall2 (fun raw e => createAddress raw = Ok e) raws es /\
             dst' = take i dst ++ map Some es ++ drop (i + length raws) dst.
Proof.
  revert i dst. induction raws as [|raw raws IH]; intros i dst; simpl.
  - intros [= <-]. exists []. split; [constructor|]. simpl.
    rewrite Nat.add_0_r, take_drop. reflexivity.
  - intros H. apply bind_Ok_inv in H as (e & He & H).
    apply bind_Ok_inv in H as (d & Hd & H).
    unfold assign in Hd. destruct (decide (i < length dst)) as [Hi|]; [|discriminate].
    injection Hd as <-. apply IH in H as (es & Hes & ->).
    exists (e :: es). split; [constructor; assumption|].
    rewrite drop_insert_lt by lia.
    rewrite (take_S_r _ i (Some e)) by (apply list_lookup_insert_eq; exact Hi).
    rewrite take_insert_ge by lia.
    rewrite <- app_assoc. simpl. repeat f_equal. lia.
Qed.

(** What the checks let through, and what the two slices hold then: the
    [to] slice the parsed [--to] values, the [cc] slice one nil pointer
    per [--cc] value (the loop after its allocation ranges over the [to]
    values again). *)
Lemma recipientsOf_Ok (f : Flags) (args : list string)
    (from : Email) (tos ccs : list (option Email)) :
  recipientsOf f args = Ok (from, tos, ccs) ->
  length args <= 2 /\ createAddress (flag_from f) = Ok from /\
  flag_subject f <> EmptyString /\
  (exists es, Forall2 (fun raw e => createAddress raw = Ok e) (flag_to f) es /\
              es <> [] /\ tos = map Some es) /\
  ccs = replicate (length (flag_cc f)) None.
Proof.
  unfold recipientsOf. destruct (2 <? length args)%nat eqn:Hargs; [discriminate|].
  apply Nat.ltb_ge in Hargs. intros H.
  apply bind_Ok_inv in H as (from' & Hfrom & H).
  destruct (isEmpty (flag_subject f)) eqn:Hsubj; [discriminate|].
  destruct (length (flag_to f) =? 0)%nat eqn:Hto; [discriminate|].
  apply Nat.eqb_neq in Hto.
  apply bind_Ok_inv in H as (tos1 & Htos1 & H).
  apply bind_Ok_inv in H as (tos2 & Htos2 & H).
  injection H as -> -> <-.
  pose proof (fillAddresses_length _ _ _ _ Htos1) as Hlen1.
  rewrite length_replicate in Hlen1.
  apply fillAddresses_Ok in Htos2 as (es & Hes & ->).
  repeat split; try assumption.
  - intros E. rewrite E in Hsubj. discriminate.
  - exists es. split; [exact Hes|]. split.
    + intros ->. inversion Hes as [E|]. rewrite <- E in Hto. apply Hto. reflexivity.
    + simpl. rewrite drop_ge by lia. apply app_nil_r.
Qed.

Lemma recipientsOf_Fatal (f : Flags) (args : list string) (e : fatal) :
  recipientsOf f args = Fatal e ->
  kind e = TooManyArgumentsError \/ kind e = InvalidAddressError \/
  kind e = OtherValidationError.
Proof.
  unfold recipientsOf. destruct (2 <? length args)%nat; [intros [= <-]; auto|].
  intros H. apply bind_Fatal_inv in H as [H|(from & _ & H)];
    [right; left; eapply createAddress_Fatal, H|].
  destruct (isEmpty (flag_subject f)); [injection H as <-; auto|].
  destruct (length (flag_to f) =? 0)%nat; [injection H as <-; auto|].
  apply bind_Fatal_inv in H as [H|(tos1 & _ & H)];
    [right; left; eapply fillAddresses_Fatal, H|].
  apply bind_Fatal_inv in H as [H|(tos2 & _ & H)];
    [right; left; eapply fillAddresses_Fatal, H|discriminate].
Qed.

Lemma recipientsOf_no_panic (f : Flags) (args : list string) : recipientsOf f args <> Panic.
Proof.
  unfold recipientsOf. destruct (2 <? length args)%nat; [discriminate|].
  intros H. apply bind_Panic_inv in H as [H|(from & _ & H)];
    [exact (createAddress_no_panic _ H)|].
  destruct (isEmpty (flag_subject f)); [discriminate|].
  destruct (length (flag_to f) =? 0)%nat; [discriminate|].
  apply bind_Panic_inv in H as [H|(tos1 & Htos1 & H)].
  { revert H. apply fillAddresses_no_panic. rewrite length_replicate. lia. }
  apply fillAddresses_length in Htos1. rewrite length_replicate in Htos1.
  apply bind_Panic_inv in H as [H|(tos2 & _ & H)]; [|discriminate].
  revert H. apply fillAddresses_no_panic. lia.
Qed.

(** On a message with one personalization, a method of
    [Personalizations[0]] changes that personalization and nothing else. *)
Lemma onPersonalization0_single (g : Personalization -> Personalization)
    (m : SGMailV3) (p : Personalization) :
  Personalizations m = [p] ->
  onPersonalization0 g m = Ok (setPersonalizations [g p] m).
Proof. intros Hp. unfold onPersonalization0. rewrite Hp. reflexivity. Qed.

Lemma attach_Ok (attFilename : string) (m m' : SGMailV3) :
  attach h attFilename m = Ok m' ->
  exists b, ReadFile h attFilename = Some b /\
            m' = AddAttachment (attachmentOf h attFilename b) m.
Proof.
  unfold attach. destruct (ReadFile h attFilename) as [b|]; [|discriminate].
  intros [= <-]. exists b. split; reflexivity.
Qed.

(** The loop over the [--att] values appends one attachment per value and
    leaves the rest of the message alone. *)
Lemma attachAll_Ok (atts : list string) (m m' : SGMailV3) :
  attachAll h atts m = Ok m' ->
  Personalizations m' = Personalizations m /\ Contents m' = Contents m /\
  exists bs, Forall2 (fun fn b => ReadFile h fn = Some b) atts bs /\
             Attachments m' = Attachments m ++ zip_with (attachmentOf h) atts bs.
Proof.
  revert m. induction atts as [|fn atts IH]; intros m; simpl.
  - intros [= <-]. repeat split. exists []. split; [constructor|].
    simpl. rewrite app_nil_r. reflexivity.
  - intros H. apply bind_Ok_inv in H as (m1 & Hm1 & H).
    apply attach_Ok in Hm1 as (b & Hb & ->).
    apply IH in H as (Hp & Hc & bs & Hbs & Ha).
    rewrite Hp, Hc, Ha. repeat split. exists (b :: bs).
    split; [constructor; assumption|]. simpl. rewrite <- app_assoc. reflexivity.
Qed.

Lemma attachAll_Fatal (atts : list string) (m : SGMailV3) (e : fatal) :
  attachAll h atts m = Fatal e -> kind e = FileReadError.
Proof.
  revert m. induction atts as [|fn atts IH]; intros m; simpl; [discriminate|].
  intros H. apply bind_Fatal_inv in H as [H|(m1 & _ & H)]; [|eapply IH, H].
  unfold attach in H. destruct (ReadFile h fn); [discriminate|].
  injection H as <-. reflexivity.
Qed.

Lemma attachAll_no_panic (atts : list string) (m : SGMailV3) : attachAll h atts m <> Panic.
Proof.
  revert m. induction atts as [|fn atts IH]; intros m; simpl; [discriminate|].
  intros H. apply bind_Panic_inv in H as [H|(m1 & _ & H)]; [|eapply IH, H].
  unfold attach in H. destruct (ReadFile h fn); discriminate.
Qed.

(** The loop over the [--sub] values touches the substitutions only. *)
Lemma substituteAll_Ok (allSubs subs : list string) (m m' : SGMailV3) (p : Personalization) :
  Personalizations m = [p] ->
  substituteAll allSubs subs m = Ok m' ->
  (exists p', Personalizations m' = [p'] /\ To p' = To p /\ CC p' = CC p) /\
  Contents m' = Contents m /\ Attachments m' = Attachments m /\ TemplateID m' = TemplateID m.
Proof.
  revert m p. induction subs as [|sub subs IH]; intros m p Hp; cbn [substituteAll].
  - intros [= <-]. split; [exists p; auto|auto].
  - destruct (negb (length (genSplit 1 sub "=") =? 2)%nat); [discriminate|].
    intros H. apply bind_Ok_inv in H as (k & _ & H).
    apply bind_Ok_inv in H as (v & _ & H).
    rewrite (onPersonalization0_single _ m p Hp) in H. simpl in H.
    eapply IH in H; [|reflexivity]. simpl in H. exact H.
Qed.

Lemma substituteAll_Fatal (allSubs subs : list string) (m : SGMailV3) (p : Personalization)
    (e : fatal) :
  Personalizations m = [p] ->
  substituteAll allSubs subs m = Fatal e -> kind e = OtherValidationError.
Proof.
  revert m p. induction subs as [|sub subs IH]; intros m p Hp; cbn [substituteAll];
    [discriminate|].
  destruct (negb (length (genSplit 1 sub "=") =? 2)%nat); [intros [= <-]; reflexivity|].
  destruct (genSplit 1 sub "=") as [|k [|v parts]]; simpl; try discriminate.
  rewrite (onPersonalization0_single _ m p Hp). simpl.
  eapply IH. reflexivity.
Qed.

Lemma substituteAll_no_panic (allSubs subs : list string) (m : SGMailV3) (p : Personalization) :
  Personalizations m = [p] -> substituteAll allSubs subs m <> Panic.
Proof.
  revert m p. induction subs as [|sub subs IH]; intros m p Hp; cbn [substituteAll];
    [discriminate|].
  destruct (genSplit 1 sub "=") as [|k [|v [|w parts]]]; simpl; try discriminate.
  rewrite (onPersonalization0_single _ m p Hp). simpl.
  eapply IH. reflexivity.
Qed.

(** The message that [send] assembles: one personalization with the [to]
    slice and the [cc] slice, the bodies that are not empty as contents
    (plain text first), one attachment per [--att] value. *)
Lemma messageOf_Ok (f : Flags) (from : Email) (tos ccs : list (option Email))
    (html plain : string) (m : SGMailV3) :
  messageOf h f from tos ccs html plain = Ok m ->
  (exists p, Personalizations m = [p] /\ To p = tos /\ CC p = ccs) /\
  Contents m = nonEmpty [NewContent "text/plain" plain; NewContent "text/html" html] /\
  exists bs, Forall2 (fun fn b => ReadFile h fn = Some b) (flag_att f) bs /\
             Attachments m = zip_with (attachmentOf h) (flag_att f) bs.
Proof.
  unfold messageOf. intros H.
  apply bind_Ok_inv in H as (to0 & Hto0 & H).
  destruct tos as [|to0' tl]; [discriminate|]. injection Hto0 as ->.
  set (m0 := NewSingleEmail (Some from) (flag_subject f) to0 plain html) in H.
  apply bind_Ok_inv in H as (m1 & Hm1 & H).
  assert (Hp1 : Personalizations m1 = [{| To := to0 :: tl; CC := []; Substitutions := ∅ |}]
                /\ Contents m1 = Contents m0 /\ Attachments m1 = []).
  { destruct tl as [|to1 tl]; simpl in Hm1; injection Hm1 as <-; auto. }
  destruct Hp1 as (Hp1 & Hc1 & Ha1).
  apply bind_Ok_inv in H as (m2 & Hm2 & H).
  assert (Hp2 : Personalizations m2 = [{| To := to0 :: tl; CC := ccs; Substitutions := ∅ |}]
                /\ Contents m2 = Contents m0 /\ Attachments m2 = []).
  { destruct ccs as [|cc0 ccs].
    - simpl in Hm2. injection Hm2 as <-. auto.
    - cbn [length Nat.ltb Nat.leb] in Hm2.
      rewrite (onPersonalization0_single _ m1 _ Hp1) in Hm2.
      injection Hm2 as <-. simpl. auto. }
  destruct Hp2 as (Hp2 & Hc2 & Ha2).
  apply bind_Ok_inv in H as (m3 & Hm3 & H).
  apply attachAll_Ok in Hm3 as (Hp3 & Hc3 & bs & Hbs & Ha3).
  rewrite Hp2 in Hp3. rewrite Hc2 in Hc3. rewrite Ha2 in Ha3. simpl in Ha3.
  destruct (negb (isEmpty (flag_template_id f))).
  - eapply substituteAll_Ok in H; [|simpl; exact Hp3].
    destruct H as ((p' & Hp' & HTo & HCC) & Hc & Ha & _). simpl in *.
    split; [exists p'; auto|]. split; [congruence|].
    exists bs. split; [exact Hbs|congruence].
  - injection H as <-. split; [eexists; split; [exact Hp3|auto]|].
    split; [exact Hc3|]. exists bs. auto.
Qed.

Lemma messageOf_Fatal (f : Flags) (from : Email) (tos ccs : list (option Email))
    (html plain : string) (e : fatal) :
  messageOf h f from tos ccs html plain = Fatal e ->
  kind e = FileReadError \/ kind e = OtherValidationError.
Proof.
  unfold messageOf. intros H.
  apply bind_Fatal_inv in H as [H|(to0 & Hto0 & H)].
  { unfold index in H. destruct (tos !! 0); discriminate. }
  destruct tos as [|to0' tl]; [discriminate|]. injection Hto0 as ->.
  set (m0 := NewSingleEmail (Some from) (flag_subject f) to0 plain html) in H.
  apply bind_Fatal_inv in H as [H|(m1 & Hm1 & H)].
  { destruct tl; simpl in H; discriminate. }
  assert (Hp1 : exists p, Personalizations m1 = [p]).
  { destruct tl as [|to1 tl]; simpl in Hm1; injection Hm1 as <-; eexists; reflexivity. }
  destruct Hp1 as [p1 Hp1].
  apply bind_Fatal_inv in H as [H|(m2 & Hm2 & H)].
  { destruct ccs; [discriminate|]. cbn [length Nat.ltb Nat.leb] in H.
    rewrite (onPersonalization0_single _ m1 _ Hp1) in H. discriminate. }
  assert (Hp2 : exists p, Personalizations m2 = [p]).
  { destruct ccs as [|cc0 ccs].
    - simpl in Hm2. injection Hm2 as <-. eauto.
    - cbn [length Nat.ltb Nat.leb] in Hm2.
      rewrite (onPersonalization0_single _ m1 _ Hp1) in Hm2.
      injection Hm2 as <-. eexists; reflexivity. }
  destruct Hp2 as [p2 Hp2].
  apply bind_Fatal_inv in H as [H|(m3 & Hm3 & H)]; [left; eapply attachAll_Fatal, H|].
  apply attachAll_Ok in Hm3 as (Hp3 & _). rewrite Hp2 in Hp3.
  destruct (negb (isEmpty (flag_template_id f))); [|discriminate].
  right. eapply substituteAll_Fatal; [|exact H]. simpl. exact Hp3.
Qed.

Lemma messageOf_no_panic (f : Flags) (from : Email) (tos ccs : list (option Email))
    (html plain : string) :
  tos <> [] -> messageOf h f from tos ccs html plain <> Panic.
Proof.
  unfold messageOf. intros Htos H.
  destruct tos as [|to0 tl]; [congruence|]. simpl in H.
  set (m0 := NewSingleEmail (Some from) (flag_subject f) to0 plain html) in H.
  apply bind_Panic_inv in H as [H|(m1 & Hm1 & H)].
  { destruct tl; simpl in H; discriminate. }
  assert (Hp1 : exists p, Personalizations m1 = [p]).
  { destruct tl as [|to1 tl]; simpl in Hm1; injection Hm1 as <-; eexists; reflexivity. }
  destruct Hp1 as [p1 Hp1].
  apply bind_Panic_inv in H as [H|(m2 & Hm2 & H)].
  { destruct ccs; [discriminate|]. cbn [length Nat.ltb Nat.leb] in H.
    rewrite (onPersonalization0_single _ m1 _ Hp1) in H. discriminate. }
  assert (Hp2 : exists p, Personalizations m2 = [p]).
  { destruct ccs as [|cc0 ccs].
    - simpl in Hm2. injection Hm2 as <-. eauto.
    - cbn [length Nat.ltb Nat.leb] in Hm2.
      rewrite (onPersonalization0_single _ m1 _ Hp1) in Hm2.
      injection Hm2 as <-. eexists; reflexivity. }
  destruct Hp2 as [p2 Hp2].
  apply bind_Panic_inv in H as [H|(m3 & Hm3 & H)]; [exact (attachAll_no_panic _ _ H)|].
  apply attachAll_Ok in Hm3 as (Hp3 & _). rewrite Hp2 in Hp3.
  destruct (negb (isEmpty (flag_template_id f))); [|discriminate].
  revert H. eapply substituteAll_no_panic. simpl. exact Hp3.
Qed.

Lemma credentialsOf_Fatal (f : Flags) (e : fatal) :
  credentialsOf h f = Fatal e <-> noCredentials h f /\ e = CredentialsMissing.
Proof.
  unfold credentialsOf, noCredentials.
  destruct (isEmpty (flag_key f)) eqn:Hk; destruct (isEmpty (flag_user f)) eqn:Hu; simpl;
    try apply isEmpty_true in Hk; try apply isEmpty_true in Hu.
  - destruct (isEmpty (Getenv h "SENDGRID_API_KEY")) eqn:He.
    + apply isEmpty_true in He. split; [intros [= <-]; auto|intros (_ & ->); reflexivity].
    + split; [discriminate|]. intros ((_ & _ & E) & _). rewrite E in He. discriminate.
  - split; [discriminate|]. intros ((_ & E & _) & _). rewrite E in Hu. discriminate.
  - split; [discriminate|]. intros ((E & _) & _). rewrite E in Hk. discriminate.
  - split; [discriminate|]. intros ((E & _) & _). rewrite E in Hk. discriminate.
Qed.

Lemma credentialsOf_no_panic (f : Flags) : credentialsOf h f <> Panic.
Proof.
  unfold credentialsOf. destruct (isEmpty (flag_key f) && isEmpty (flag_user f));
    [destruct (isEmpty (Getenv h "SENDGRID_API_KEY"))|]; discriminate.
Qed.

Lemma contentOf_Fatal (f : Flags) (args : list string) (e : fatal) :
  contentOf h f args = Fatal e -> kind e = MissingBodyError \/ kind e = FileReadError.
Proof.
  unfold contentOf, readFile.
  destruct (negb (isEmpty (flag_html f)) || negb (isEmpty (flag_plain f))).
  - destruct (negb (isEmpty (flag_html f))), (negb (isEmpty (flag_plain f)));
      repeat (match goal with |- context [ReadFile h ?x] => destruct (ReadFile h x) end; simpl);
      try discriminate; intros [= <-]; auto.
  - destruct (isEmpty (flag_template_id f) || (0 <? length args)%nat).
    + intros H. apply messageBodies_Fatal in H as [[_ ->]|(_ & _ & ->)]; auto.
    + destruct (isEmpty (flag_template_id f)); [intros [= <-]; auto|discriminate].
Qed.

End Send.

(** * The claims about a whole run *)

Section Run.
Import Strings Spec Mail Cmd.
Variable h : Host.

(** A stage that ends in a fatal error after the checks and before the
    message ends the run in a fatal error: nothing reaches the network. *)
Lemma send_Fatal_of_contentOf (f : Flags) (args : list string) (e : fatal) :
  contentOf h f args = Fatal e -> exists e', send h f args = Fatal e'.
Proof.
  intros He. unfold send.
  destruct (recipientsOf f args) as [[[from tos] ccs]|e'|] eqn:Hr; simpl.
  - rewrite He. simpl. eauto.
  - eauto.
  - exfalso. exact (recipientsOf_no_panic f args Hr).
Qed.

Lemma send_Fatal_of_credentialsOf (f : Flags) (args : list string) (e : fatal) :
  credentialsOf h f = Fatal e -> exists e', send h f args = Fatal e'.
Proof.
  intros He. unfold send.
  destruct (recipientsOf f args) as [[[from tos] ccs]|e'|] eqn:Hr; simpl.
  - destruct (contentOf h f args) as [[html plain]|e'|] eqn:Hc; simpl.
    + rewrite He. simpl. eauto.
    + eauto.
    + exfalso. exact (contentOf_no_panic h f args Hc).
  - eauto.
  - exfalso. exact (recipientsOf_no_panic f args Hr).
Qed.

(** The stages of a run that hands a request to the network. *)
Lemma send_Ok (f : Flags) (args : list string) (req : Request) :
  send h f args = Ok req ->
  exists from tos ccs html plain apiKey m,
    recipientsOf f args = Ok (from, tos, ccs) /\
    contentOf h f args = Ok (html, plain) /\
    credentialsOf h f = Ok apiKey /\
    messageOf h f from tos ccs html plain = Ok m /\
    messageOfRequest req = m /\
    req = (if isEmpty apiKey then SendV2 (flag_user f) (flag_password f) m
           else SendV3 apiKey m).
Proof.
  unfold send. intros H.
  apply bind_Ok_inv in H as ([[from tos] ccs] & Hr & H).
  apply bind_Ok_inv in H as ([html plain] & Hc & H).
  apply bind_Ok_inv in H as (apiKey & Hk & H).
  apply bind_Ok_inv in H as (m & Hm & H).
  exists from, tos, ccs, html, plain, apiKey, m.
  repeat split; try assumption; destruct (isEmpty apiKey); injection H as <-; reflexivity.
Qed.

(** No run panics: every index that [send] and its helpers use is in
    range. *)
Lemma send_no_panic (f : Flags) (args : list string) : send h f args <> Panic.
Proof.
  unfold send. intros H.
  apply bind_Panic_inv in H as [H|([[from tos] ccs] & Hr & H)];
    [exact (recipientsOf_no_panic _ _ H)|].
  apply bind_Panic_inv in H as [H|([html plain] & _ & H)];
    [exact (contentOf_no_panic _ _ _ H)|].
  apply bind_Panic_inv in H as [H|(apiKey & _ & H)];
    [exact (credentialsOf_no_panic _ _ H)|].
  apply bind_Panic_inv in H as [H|(m & _ & H)]; [|destruct (isEmpty apiKey); discriminate].
  apply recipientsOf_Ok in Hr as (_ & _ & _ & (es & _ & Hes & ->) & _).
  revert H. apply messageOf_no_panic. destruct es; [congruence|discriminate].
Qed.

(** X14: the recipients of every request: the parsed [--to] values, and one
    nil pointer per [--cc] value. *)
Lemma send_recipients (f : Flags) (args : list string) (req : Request) :
  send h f args = Ok req ->
  exists p es,
    Personalizations (messageOfRequest req) = [p] /\
    Forall2 (fun raw e => createAddress raw = Ok e) (flag_to f) es /\
    To p = map Some es /\ CC p = replicate (length (flag_cc f)) None.
Proof.
  intros H. apply send_Ok in H
    as (from & tos & ccs & html & plain & apiKey & m & Hr & _ & _ & Hm & -> & _).
  apply recipientsOf_Ok in Hr as (_ & _ & _ & (es & Hes & _ & ->) & ->).
  apply messageOf_Ok in Hm as ((p & Hp & HTo & HCC) & _).
  exists p, es. auto.
Qed.

(** X17: the attachments of every request: for each [--att] value, in order,
    the base64 encoding of the bytes of the file, the disposition
    ["attachment"], the value as file name, and the type that
    [TypeByExtension] gives for the whole value. *)
Lemma send_attachments (f : Flags) (args : list string) (req : Request) :
  send h f args = Ok req ->
  exists bs, Forall2 (fun fn b => ReadFile h fn = Some b) (flag_att f) bs /\
             Attachments (messageOfRequest req) = zip_with (attachmentOf h) (flag_att f) bs.
Proof.
  intros H. apply send_Ok in H
    as (from & tos & ccs & html & plain & apiKey & m & _ & _ & _ & Hm & -> & _).
  apply messageOf_Ok in Hm as (_ & _ & Hatt). exact Hatt.
Qed.

Lemma lowerASCII_dot (s : string) :
  HasPrefix (Mime.lowerASCII s) "." = HasPrefix s ".".
Proof.
  destruct s as [|c s]; [reflexivity|]. simpl. rewrite !andb_true_r.
  unfold Mime.lowerByte.
  destruct ((65 <=? N_of_ascii c) && (N_of_ascii c <=? 90))%N eqn:Hc; [|reflexivity].
  apply andb_true_iff in Hc as [H1 H2]. apply N.leb_le in H1, H2.
  transitivity false; [|symmetry]; apply Ascii.eqb_neq; intros E.
  - apply (f_equal N_of_ascii) in E. rewrite N_ascii_embedding in E by lia.
    simpl in E. lia.
  - subst c. simpl in H1. lia.
Qed.

(** X18: with the tables of the [mime] package, whose keys begin with a dot, an
    ASCII name that does not begin with a dot has no type: the attachment
    of a file such as ["report.pdf"] gets the empty type. *)
Lemma TypeByExtension_without_dot (name : string) :
  Mime.dottedKeys h -> Mime.allASCII name = true -> HasPrefix name "." = false ->
  Mime.TypeByExtension h name = EmptyString.
Proof.
  intros Hkeys Hascii Hdot. unfold Mime.TypeByExtension.
  destruct (mimeTypes h name) as [v|] eqn:Hm.
  { rewrite (Hkeys name v) in Hdot by auto. discriminate. }
  rewrite Hascii.
  destruct (mimeTypesLower h (Mime.lowerASCII name)) as [v|] eqn:Hl; [|reflexivity].
  pose proof (Hkeys _ v (or_intror Hl)) as Hd.
  rewrite lowerASCII_dot in Hd. congruence.
Qed.

(** C6: with more than two positional arguments the run ends in the
    fatal error "Too many positional argumets", the first check of
    [send]: no message is built and nothing reaches the network. *)
Theorem C6_too_many_arguments (f : Flags) (args : list string) :
  2 < length args ->
  send h f args = Fatal (TooManyPositional args) /\
  recipientsOf f args = Fatal (TooManyPositional args) /\
  kind (TooManyPositional args) = TooManyArgumentsError.
Proof.
  intros Hlen. apply Nat.ltb_lt in Hlen.
  assert (Hr : recipientsOf f args = Fatal (TooManyPositional args)).
  { unfold recipientsOf. rewrite Hlen. reflexivity. }
  unfold send. rewrite Hr. auto.
Qed.

(** C5, as amended: the choice of the bodies fails with a missing-body
    error exactly when no body file is given and either there is no
    positional argument and no template id, or the first positional
    argument is empty and no positional argument looks like HTML; the run
    then ends in a fatal error, so before a request is handed to the
    network. *)
Theorem C5_missing_body (f : Flags) (args : list string) :
  ((exists e, contentOf h f args = Fatal e /\ kind e = MissingBodyError) <->
   flag_html f = EmptyString /\ flag_plain f = EmptyString /\
   ((args = [] /\ flag_template_id f = EmptyString) \/
    (args !! 0 = Some EmptyString /\ Forall (fun b => looksLikeHTML b = false) args)))
  /\ (forall e, contentOf h f args = Fatal e -> exists e', send h f args = Fatal e').
Proof.
  split; [apply contentOf_missing_body|apply send_Fatal_of_contentOf].
Qed.

(** C4: with a template id, no body file and no positional argument, the
    choice of the bodies does not fail: the HTML body is the placeholder
    comment and the plain-text body is empty, so that the message of
    every such run that hands a request over has one content, the
    placeholder comment as HTML. *)
Theorem C4_template_placeholder (f : Flags) :
  flag_template_id f <> EmptyString ->
  flag_html f = EmptyString -> flag_plain f = EmptyString ->
  contentOf h f [] = Ok ("<!-- Dummy Content -->", EmptyString) /\
  forall req, send h f [] = Ok req ->
    Contents (messageOfRequest req) = [NewContent "text/html" "<!-- Dummy Content -->"].
Proof.
  intros Ht Hh Hp.
  assert (Hc : contentOf h f [] = Ok ("<!-- Dummy Content -->", EmptyString)).
  { unfold contentOf. rewrite Hh, Hp, (isEmpty_false _ Ht). reflexivity. }
  split; [exact Hc|]. intros req H.
  apply send_Ok in H
    as (from & tos & ccs & html & plain & apiKey & m & _ & Hc' & _ & Hm & -> & _).
  rewrite Hc in Hc'. injection Hc' as <- <-.
  apply messageOf_Ok in Hm as (_ & Hm & _). exact Hm.
Qed.

(** X29: [send] ends in the fatal error of the missing credentials
    exactly when the checks before it pass (the arguments, the sender, the
    subject, the recipients, the bodies) and the [--key] value, the
    [--user] value and the variable [SENDGRID_API_KEY] are all empty; no
    other fatal error of [send] is of that kind. *)
Theorem send_CredentialsMissing_iff (f : Flags) (args : list string) :
  (send h f args = Fatal CredentialsMissing <->
   noCredentials h f /\
   exists r c, recipientsOf f args = Ok r /\ contentOf h f args = Ok c) /\
  (forall e, send h f args = Fatal e -> kind e = MissingCredentialsError ->
             e = CredentialsMissing).
Proof.
  assert (Hkind : forall e, send h f args = Fatal e -> kind e = MissingCredentialsError ->
            e = CredentialsMissing /\ noCredentials h f /\
            exists r c, recipientsOf f args = Ok r /\ contentOf h f args = Ok c).
  { intros e H Hk. unfold send in H.
    apply bind_Fatal_inv in H as [H|([[from tos] ccs] & Hr & H)].
    { apply recipientsOf_Fatal in H. rewrite Hk in H. destruct H as [|[|]]; discriminate. }
    apply bind_Fatal_inv in H as [H|([html plain] & Hc & H)].
    { apply contentOf_Fatal in H. rewrite Hk in H. destruct H; discriminate. }
    apply bind_Fatal_inv in H as [H|(apiKey & _ & H)].
    { apply credentialsOf_Fatal in H as [Hno ->]. eauto 6. }
    apply bind_Fatal_inv in H as [H|(m & _ & H)].
    { apply messageOf_Fatal in H. rewrite Hk in H. destruct H; discriminate. }
    destruct (isEmpty apiKey); discriminate. }
  split; [split|].
  - intros H. apply Hkind in H; [tauto|reflexivity].
  - intros (Hno & [[from tos] ccs] & [html plain] & Hr & Hc). unfold send.
    rewrite Hr. simpl. rewrite Hc. simpl.
    rewrite (proj2 (credentialsOf_Fatal h f CredentialsMissing) (conj Hno eq_refl)).
    reflexivity.
  - intros e H Hk. apply Hkind in H; tauto.
Qed.

End Run.

(** * The claims on the sample host *)

Section Examples.
Import Strings Spec Mail Cmd.

Lemma C6_too_many_arguments_witness :
  send Sample.host Sample.flags ["a"; "b"; "c"] = Fatal (TooManyPositional ["a"; "b"; "c"]) /\
  recipientsOf Sample.flags ["a"; "b"; "c"] = Fatal (TooManyPositional ["a"; "b"; "c"]) /\
  kind (TooManyPositional ["a"; "b"; "c"]) = TooManyArgumentsError.
Proof.
  apply (C6_too_many_arguments Sample.host Sample.flags ["a"; "b"; "c"]). simpl. lia.
Defined.

Lemma C4_template_placeholder_witness :
  contentOf Sample.host Sample.templateFlags [] = Ok ("<!-- Dummy Content -->", EmptyString) /\
  exists req,
    send Sample.host Sample.templateFlags [] = Ok req /\
    Contents (messageOfRequest req) = [NewContent "text/html" "<!-- Dummy Content -->"].
Proof.
  destruct (C4_template_placeholder Sample.host Sample.templateFlags) as [H1 H2];
    [discriminate|reflexivity|reflexivity|].
  split; [exact H1|]. eexists. split; [reflexivity|]. apply H2. reflexivity.
Defined.

(** C1 on the code: with two [--to] values and one [--cc] value the
    message has one personalization, its [to] list holds the two parsed
    addresses, and its [cc] list holds one nil pointer, not the address
    parsed from the [--cc] value. *)
Theorem C1_cc_address_not_parsed :
  exists m p,
    send Sample.host Sample.flags ["hello"] = Ok (SendV3 "SG.key" m) /\
    Personalizations m = [p] /\
    To p = [Some (NewEmail "Alice" "alice@example.com");
            Some (NewEmail "bob@example.com" "bob@example.com")] /\
    CC p = [None] /\
    createAddress "Carol <carol@example.com>" = Ok (NewEmail "Carol" "carol@example.com").
Proof. do 2 eexists. repeat split; reflexivity. Qed.

Lemma assoc_In (table : list (string * string)) (key v : string) :
  Sample.assoc table key = Some v -> In (key, v) table.
Proof.
  induction table as [|[k w] table IH]; simpl; [discriminate|].
  destruct (String.eqb k key) eqn:E.
  - apply String.eqb_eq in E. intros [= ->]. left. congruence.
  - intros H. right. apply IH, H.
Qed.

(** The sample tables are as the [mime] package keeps them. *)
Lemma Sample_dottedKeys : Mime.dottedKeys Sample.host.
Proof.
  assert (Hall : Forall (fun kv => HasPrefix (fst kv) "." = true) Sample.builtinTypesLower)
    by (repeat constructor).
  intros ext v H.
  assert (Hin : In (ext, v) Sample.builtinTypesLower)
    by (destruct H as [H|H]; apply assoc_In, H).
  rewrite Forall_forall in Hall. apply (Hall (ext, v)).
  apply list_elem_of_In, Hin.
Qed.

(** C8 on the code: the attachment of the readable file ["report.pdf"]
    has the base64 encoding of its bytes as content, the disposition
    ["attachment"] and the flag value as file name; its type is empty,
    although the table has a type for the extension [".pdf"], because
    [TypeByExtension] is asked for the whole file name. *)
Theorem C8_attachment_type_not_from_extension :
  exists m a,
    send Sample.host Sample.attachmentFlags ["hello"] = Ok (SendV3 "SG.key" m) /\
    Attachments m = [a] /\
    ReadFile Sample.host "report.pdf" = Some "hi" /\
    AttContent a = Base64.EncodeToString "hi" /\ AttContent a = "aGk=" /\
    Disposition a = "attachment" /\ Filename a = "report.pdf" /\
    AttType a = EmptyString /\
    Ext "report.pdf" = ".pdf" /\
    Mime.TypeByExtension Sample.host (Ext "report.pdf") = "application/pdf".
Proof. do 2 eexists. repeat split; reflexivity. Qed.

End Examples.

(** * The library functions on examples *)

Section LibraryExamples.
Import Strings Spec.

Example Split_name_and_address :
  Split "Full Name <name@domain.name>" " <" = ["Full Name"; "name@domain.name>"].
Proof. reflexivity. Qed.

Example Split_three_parts : Split "a <b <c" " <" = ["a"; "b"; "c"].
Proof. reflexivity. Qed.

Example Split_leading_separator : Split " <x" " <" = [""; "x"].
Proof. reflexivity. Qed.

Example Trim_brackets : Trim " <name@domain.name> " " ><" = "name@domain.name".
Proof. reflexivity. Qed.

Example EncodeToString_rfc4648 :
  map Base64.EncodeToString [""; "f"; "fo"; "foo"; "foob"; "fooba"; "foobar"]
  = [""; "Zg=="; "Zm8="; "Zm9v"; "Zm9vYg=="; "Zm9vYmE="; "Zm9vYmFy"].
Proof. reflexivity. Qed.

Example looksLikeHTML_examples :
  map looksLikeHTML ["<p>hi</p>"; "Dear recepien, <br/><p>..."; "hello"; "a < b"; "2 > 1"; "< p>"; "<>"; ""]
  = [true; true; false; false; false; false; false; false].
Proof. vm_compute. reflexivity. Qed.

Example createAddress_examples :
  Cmd.createAddress "Full Name <name@domain.name>"
  = Cmd.Ok (Mail.NewEmail "Full Name" "name@domain.name") /\
  Cmd.createAddress "name@domain.name"
  = Cmd.Ok (Mail.NewEmail "name@domain.name" "name@domain.name") /\
  Cmd.createAddress "" = Cmd.Fatal Cmd.MissingEmailAddress /\
  Cmd.createAddress " <name@domain.name>"
  = Cmd.Fatal (Cmd.EmailAddressIncorrect " <name@domain.name>") /\
  Cmd.createAddress "A <b> <c>" = Cmd.Ok (Mail.NewEmail "A" "b").
Proof. repeat split; reflexivity. Qed.

Example messageBodies_examples :
  Cmd.messageBodies Sample.host ["hello"] = Cmd.Ok ("", "hello") /\
  Cmd.messageBodies Sample.host ["<p>hi</p>"] = Cmd.Ok ("<p>hi</p>", "hi") /\
  Cmd.messageBodies Sample.host ["plain"; "<b>x</b>"] = Cmd.Ok ("<b>x</b>", "plain") /\
  Cmd.messageBodies Sample.host ["<b>x</b>"; ""] = Cmd.Ok ("<b>x</b>", "") /\
  Cmd.messageBodies Sample.host [] = Cmd.Fatal Cmd.MissingMessageBodyNoArgs.
Proof. repeat split; reflexivity. Qed.

End LibraryExamples.


(** * More about the library functions *)

Section MoreStringFacts.
Import Strings Spec Props.

Lemma append_nil_r (a : string) : (a ++ "")%string = a.
Proof.
  induction a as [|d a IH]; [reflexivity|]. rewrite append_cons, IH. reflexivity.
Qed.

Lemma Index_zero (s sep : string) : Index s sep = Some 0 <-> HasPrefix s sep = true.
Proof.
  destruct s as [|c s]; cbn [Index]; destruct (HasPrefix _ sep); split;
    try reflexivity; try discriminate.
  destruct (Index s sep); discriminate.
Qed.

Lemma sliceTo_app (a b : string) : sliceTo (String.length a) (a ++ b) = a.
Proof.
  induction a as [|c a IH]; [destruct b; reflexivity|].
  rewrite append_cons. simpl. rewrite IH. reflexivity.
Qed.

Lemma sliceFrom_app (a b : string) : sliceFrom (String.length a) (a ++ b) = b.
Proof.
  induction a as [|c a IH]; [destruct b; reflexivity|].
  rewrite append_cons. simpl. exact IH.
Qed.

Lemma sliceFrom_add (n m : nat) (s : string) :
  sliceFrom (n + m) s = sliceFrom m (sliceFrom n s).
Proof.
  revert s. induction n as [|n IH]; intros s; [reflexivity|].
  destruct s as [|c s]; simpl; [destruct m; reflexivity|apply IH].
Qed.

Lemma slice_parts (n : nat) (s : string) : (sliceTo n s ++ sliceFrom n s)%string = s.
Proof.
  revert s. induction n as [|n IH]; intros s; [reflexivity|].
  destruct s as [|c s]; [reflexivity|]. simpl. rewrite append_cons, IH. reflexivity.
Qed.

Lemma HasPrefix_split (s sep : string) :
  HasPrefix s sep = true -> s = (sep ++ sliceFrom (String.length sep) s)%string.
Proof.
  intros Hp. apply HasPrefix_inv in Hp as [t ->]. rewrite sliceFrom_app. reflexivity.
Qed.

(** The occurrence that [Index] finds. *)
Lemma Index_Some_split (s sep : string) (m : nat) :
  Index s sep = Some m ->
  s = (sliceTo m s ++ sep ++ sliceFrom (m + String.length sep) s)%string.
Proof.
  revert m. induction s as [|c s IH]; intros m; cbn [Index].
  - destruct (HasPrefix "" sep) eqn:Hp; [|discriminate]. intros [= <-].
    apply HasPrefix_split in Hp. exact Hp.
  - destruct (HasPrefix (String c s) sep) eqn:Hp.
    + intros [= <-]. apply HasPrefix_split in Hp. exact Hp.
    + destruct (Index s sep) as [k|] eqn:Hk; [|discriminate]. intros [= <-].
      cbn [sliceTo Nat.add sliceFrom]. rewrite append_cons. f_equal. apply IH. reflexivity.
Qed.

(** One step of [Split]: the part before the first separator, then the
    split of what follows it. *)
Lemma Split_cons (s sep : string) (m : nat) :
  sep <> EmptyString -> Index s sep = Some m ->
  Split s sep = sliceTo m s :: Split (sliceFrom (m + String.length sep) s) sep.
Proof.
  intros Hsep Hm. unfold Split at 1, Count.
  pose proof (Index_bound s sep m Hm) as Hb.
  assert (0 < String.length sep) by (destruct sep; [congruence|simpl; lia]).
  destruct (String.length s) as [|n] eqn:Hn; [lia|].
  cbn [countLoop]. rewrite Hm. cbn [genSplit]. rewrite Hm. f_equal.
  apply Split_all_cuts; [exact Hsep|]. unfold Count.
  rewrite (countLoop_stable sep _ n); [lia|exact Hsep|lia|].
  rewrite length_sliceFrom. lia.
Qed.

(** X27: joining the parts of a split with the separator gives
    the string back. *)
Theorem Join_Split (s sep : string) :
  sep <> EmptyString -> Join (Split s sep) sep = s.
Proof.
  intros Hsep.
  assert (Hlen : forall n s, String.length s <= n -> Join (Split s sep) sep = s).
  { clear s. induction n as [|n IH]; intros s Hn.
    - destruct s; [|simpl in Hn; lia].
      unfold Split. rewrite (genSplit_absent _ "" sep); [reflexivity|].
      destruct sep; [congruence|reflexivity].
    - destruct (Index s sep) as [m|] eqn:Hm.
      + rewrite (Split_cons s sep m Hsep Hm).
        pose proof (Index_bound s sep m Hm) as Hb.
        assert (0 < String.length sep) by (destruct sep; [congruence|simpl; lia]).
        assert (Hrest : Join (Split (sliceFrom (m + String.length sep) s) sep) sep
                        = sliceFrom (m + String.length sep) s).
        { apply IH. rewrite length_sliceFrom. lia. }
        destruct (Split (sliceFrom (m + String.length sep) s) sep) as [|q qs] eqn:Hq.
        { exfalso. revert Hq. apply genSplit_not_nil. }
        cbn [Join]. cbn [Join] in Hrest. rewrite Hrest.
        symmetry. apply Index_Some_split, Hm.
      + unfold Split. rewrite (genSplit_absent _ s sep Hm). reflexivity. }
  apply (Hlen (String.length s)). lia.
Qed.

Lemma Join_Split_witness : Join (Split "a <b <c" " <") " <" = "a <b <c".
Proof. apply (Join_Split "a <b <c" " <"). discriminate. Defined.

End MoreStringFacts.

(** * More about the address parser *)

Section MoreAddressParser.
Import Strings Spec Props Mail Cmd.

Lemma length_sliceTo (n : nat) (s : string) :
  n <= String.length s -> String.length (sliceTo n s) = n.
Proof.
  revert s. induction n as [|n IH]; intros s Hn; [reflexivity|].
  destruct s as [|c s]; simpl in *; [lia|]. rewrite IH; [reflexivity|lia].
Qed.

(** The first part of a split. *)
Lemma Split_head (s sep : string) :
  sep <> EmptyString ->
  exists rest,
    Split s sep = match Index s sep with Some m => sliceTo m s | None => s end :: rest.
Proof.
  intros Hsep. destruct (Index s sep) as [m|] eqn:Hm.
  - rewrite (Split_cons s sep m Hsep Hm). eauto.
  - unfold Split. rewrite (genSplit_absent _ s sep Hm). eauto.
Qed.

Lemma contains_cons (c : ascii) (s sep : string) :
  contains s sep -> contains (String c s) sep.
Proof. intros (pre & post & ->). exists (String c pre), post. reflexivity. Qed.

(** The separator [" <"] that follows a text without it is the first one. *)
Lemma Index_seam (name rest : string) :
  ~ contains name " <" ->
  Index (name ++ " <" ++ rest) " <" = Some (String.length name).
Proof.
  induction name as [|c name IH]; intros Habs; [reflexivity|].
  rewrite append_cons. cbn [Index].
  assert (Hp : HasPrefix (String c (name ++ " <" ++ rest)) " <" = false).
  { cbn [HasPrefix]. destruct (Ascii.eqb c " ") eqn:Hc; [|reflexivity].
    apply Ascii.eqb_eq in Hc. subst c. destruct name as [|d name]; [reflexivity|].
    rewrite append_cons. cbn [HasPrefix andb].
    destruct (Ascii.eqb d "<") eqn:Hd; [|reflexivity].
    apply Ascii.eqb_eq in Hd. subst d. exfalso. apply Habs.
    exists EmptyString, name. reflexivity. }
  rewrite Hp, IH; [reflexivity|].
  intros H. apply Habs, contains_cons, H.
Qed.

(** What [createAddress] does with the first two parts of the split. *)
Lemma createAddress_parts (raw p0 : string) (rest : list string) :
  raw <> EmptyString -> Split raw " <" = p0 :: rest ->
  createAddress raw
  = if isEmpty p0 then Fatal (EmailAddressIncorrect raw)
    else Ok (NewEmail (Trim p0 " ><")
               (Trim (match rest with [] => p0 | p1 :: _ => p1 end) " ><")).
Proof.
  intros Hraw Hsplit. unfold createAddress.
  rewrite (isEmpty_false raw Hraw), Hsplit. cbn [lookup list_lookup].
  destruct (isEmpty p0); [reflexivity|]. destruct rest; reflexivity.
Qed.

Lemma append_not_nil (a b : string) : b <> EmptyString -> (a ++ b)%string <> EmptyString.
Proof. intros Hb H. apply append_nil_inv in H as [_ H]. exact (Hb H). Qed.

(** The address of a raw string with a name, the separator and more:
    the name is the text before the separator, the address the text
    between this separator and the next one, or the end. *)
Lemma createAddress_name_addr (name addr tail : string) :
  name <> EmptyString -> ~ contains name " <" -> ~ contains addr " <" ->
  tail = EmptyString \/ HasPrefix tail " <" = true ->
  createAddress (name ++ " <" ++ addr ++ tail)
  = Ok (NewEmail (Trim name " ><") (Trim addr " ><")).
Proof.
  intros Hname Hn Ha Htail.
  set (raw := (name ++ " <" ++ addr ++ tail)%string).
  assert (Hraw : raw <> EmptyString) by (apply append_not_nil; discriminate).
  assert (Hsplit : Split raw " <" = name :: Split (addr ++ tail) " <").
  { rewrite (Split_cons raw " <" (String.length name)); [|discriminate|apply Index_seam, Hn].
    unfold raw. rewrite sliceTo_app, sliceFrom_add, sliceFrom_app. reflexivity. }
  assert (Hsecond : exists rest, Split (addr ++ tail) " <" = addr :: rest).
  { destruct Htail as [->|Ht].
    - rewrite append_nil_r. exists []. apply Split_absent, Ha.
    - apply HasPrefix_inv in Ht as [t ->].
      rewrite (Split_cons _ " <" (String.length addr)); [|discriminate|apply Index_seam, Ha].
      rewrite sliceTo_app. eauto. }
  destruct Hsecond as [rest Hsecond]. rewrite Hsecond in Hsplit.
  rewrite (createAddress_parts raw name _ Hraw Hsplit).
  rewrite (isEmpty_false name Hname). reflexivity.
Qed.

(** X3: when the raw string has a name without [" <"], then [" <"],
    then an address without [" <"], the result is the trimmed name and the
    trimmed address, whatever follows a second [" <"]: the parts after the
    second one are dropped. *)
Theorem createAddress_drops_later_parts (name addr junk : string) :
  name <> EmptyString -> ~ contains name " <" -> ~ contains addr " <" ->
  createAddress (name ++ " <" ++ addr ++ " <" ++ junk)
  = Ok (NewEmail (Trim name " ><") (Trim addr " ><")) /\
  createAddress (name ++ " <" ++ addr ++ " <" ++ junk) = createAddress (name ++ " <" ++ addr).
Proof.
  intros Hname Hn Ha. split.
  - apply createAddress_name_addr; auto.
  - rewrite (createAddress_name_addr name addr (" <" ++ junk)) by auto.
    rewrite <- (append_nil_r addr) at 2.
    rewrite (createAddress_name_addr name addr "") by auto. reflexivity.
Qed.

Lemma createAddress_drops_later_parts_witness :
  createAddress ("A" ++ " <" ++ "b>" ++ " <" ++ "c>")
  = Ok (NewEmail (Trim "A" " ><") (Trim "b>" " ><")) /\
  createAddress ("A" ++ " <" ++ "b>" ++ " <" ++ "c>") = createAddress ("A" ++ " <" ++ "b>").
Proof.
  apply (createAddress_drops_later_parts "A" "b>" "c>").
  - discriminate.
  - apply absent_of_Index_None. reflexivity.
  - apply absent_of_Index_None. reflexivity.
Defined.

Lemma trimRightASCII_snoc_cut (a cutset : string) (c : ascii) :
  inCutset cutset c = true ->
  trimRightASCII (a ++ String c "") cutset = trimRightASCII a cutset.
Proof.
  intros Hc. induction a as [|d a IH].
  - change ("" ++ String c "")%string with (String c ""). simpl. rewrite Hc. reflexivity.
  - rewrite append_cons. cbn [trimRightASCII]. rewrite IH. reflexivity.
Qed.

Lemma Trim_unfold (s cutset : string) :
  cutset <> EmptyString -> Trim s cutset = trimLeftASCII (trimRightASCII s cutset) cutset.
Proof.
  intros Hcut. unfold Trim. destruct s as [|c s]; [reflexivity|].
  destruct cutset; [congruence|reflexivity].
Qed.

Lemma Index_snoc_gt (a : string) :
  Index a " <" = None -> Index (a ++ ">") " <" = None.
Proof.
  induction a as [|c a IH]; [reflexivity|].
  rewrite append_cons. cbn [Index].
  destruct (HasPrefix (String c a) " <") eqn:Hp; [discriminate|].
  destruct (Index a " <") eqn:Hi; [discriminate|]. intros _.
  rewrite IH by reflexivity.
  assert (Hp' : HasPrefix (String c (a ++ ">")) " <" = false).
  { cbn [HasPrefix] in *. destruct (Ascii.eqb c " "); [|reflexivity].
    destruct a as [|d a]; [reflexivity|]. rewrite append_cons. exact Hp. }
  rewrite Hp'. reflexivity.
Qed.

(** X2: the form ["Name <addr>"]: for a name and an address that do
    not contain [" <"] and neither begin nor end with a space or a
    bracket, [createAddress] returns exactly the name and the address. *)
Theorem createAddress_name_bracket_address (name addr : string) :
  name <> EmptyString -> ~ contains name " <" -> ~ contains addr " <" ->
  cleanEdges name -> cleanEdges addr ->
  createAddress (name ++ " <" ++ addr ++ ">") = Ok (NewEmail name addr).
Proof.
  intros Hname Hn Ha Hcn Hca.
  assert (Ha' : ~ contains (addr ++ ">") " <").
  { apply absent_of_Index_None, Index_snoc_gt, Index_None_of_absent, Ha. }
  pose proof (createAddress_name_addr name (addr ++ ">") "" Hname Hn Ha' (or_introl eq_refl)) as H.
  rewrite append_nil_r in H. rewrite H. f_equal. f_equal.
  - apply Trim_clean. intros c Hc. apply inCutset_brackets, Hcn, Hc.
  - rewrite Trim_unfold by discriminate.
    rewrite trimRightASCII_snoc_cut by reflexivity.
    rewrite <- Trim_unfold by discriminate.
    apply Trim_clean. intros c Hc. apply inCutset_brackets, Hca, Hc.
Qed.

Lemma createAddress_name_bracket_address_witness :
  createAddress ("Full Name" ++ " <" ++ "name@domain.name" ++ ">")
  = Ok (NewEmail "Full Name" "name@domain.name").
Proof.
  apply (createAddress_name_bracket_address "Full Name" "name@domain.name").
  - discriminate.
  - apply absent_of_Index_None. reflexivity.
  - apply absent_of_Index_None. reflexivity.
  - intros c [H|H]; injection H as <-; intros [|[|]]; discriminate.
  - intros c [H|H]; injection H as <-; intros [|[|]]; discriminate.
Defined.

(** The first part of the split is empty exactly when the string begins
    with the separator. *)
Lemma Split_head_empty (raw p0 : string) (rest : list string) :
  raw <> EmptyString -> Split raw " <" = p0 :: rest ->
  (p0 = EmptyString <-> HasPrefix raw " <" = true).
Proof.
  intros Hraw Hsplit.
  destruct (Split_head raw " <") as [rest' Hhead]; [discriminate|].
  rewrite Hsplit in Hhead. injection Hhead as -> _.
  destruct (Index raw " <") as [[|m]|] eqn:Hm.
  - apply Index_zero in Hm. simpl. tauto.
  - split.
    + intros E. pose proof (Index_bound _ _ _ Hm) as Hb.
      apply (f_equal String.length) in E. rewrite length_sliceTo in E by lia.
      discriminate.
    + intros Hp. apply Index_zero in Hp. congruence.
  - split; [congruence|]. intros Hp. apply Index_zero in Hp. congruence.
Qed.

(** X1: [createAddress] ends the run exactly on the empty string
    ("Missing email adderess.") and on a string that begins with [" <"]
    ("Email address is incorrect:"); every other string is accepted. *)
Theorem createAddress_Fatal_iff (raw : string) (e : fatal) :
  createAddress raw = Fatal e <->
  (raw = EmptyString /\ e = MissingEmailAddress) \/
  (HasPrefix raw " <" = true /\ e = EmailAddressIncorrect raw).
Proof.
  destruct (String.eqb raw "") eqn:Hraw.
  - apply String.eqb_eq in Hraw. subst raw. split.
    + intros [= <-]. auto.
    + intros [[_ ->]|[H _]]; [reflexivity|discriminate].
  - apply String.eqb_neq in Hraw.
    destruct (Split_head raw " <") as [rest Hsplit]; [discriminate|].
    rewrite (createAddress_parts raw _ rest Hraw Hsplit).
    pose proof (Split_head_empty raw _ rest Hraw Hsplit) as Hempty.
    destruct (isEmpty _) eqn:Hp0.
    + apply isEmpty_true, Hempty in Hp0. split.
      * intros [= <-]. auto.
      * intros [[E _]|[_ ->]]; [congruence|reflexivity].
    + split; [discriminate|]. intros [[E _]|[Hp _]]; [congruence|].
      apply Hempty in Hp. rewrite Hp in Hp0. discriminate.
Qed.

Lemma allBytes_sliceTo (p : ascii -> bool) (n : nat) (s : string) :
  allBytes p s = true -> allBytes p (sliceTo n s) = true.
Proof.
  revert s. induction n as [|n IH]; intros s H; [reflexivity|].
  destruct s as [|c s]; [reflexivity|]. simpl in *.
  apply andb_true_iff in H as [Hc Hs]. rewrite Hc. apply IH, Hs.
Qed.

Lemma allBytes_sliceFrom (p : ascii -> bool) (n : nat) (s : string) :
  allBytes p s = true -> allBytes p (sliceFrom n s) = true.
Proof.
  revert s. induction n as [|n IH]; intros s H; [exact H|].
  destruct s as [|c s]; [reflexivity|]. simpl in *.
  apply andb_true_iff in H as [_ Hs]. apply IH, Hs.
Qed.

(** The parts of a split are made of bytes of the string. *)
Lemma genSplit_allBytes (p : ascii -> bool) (n : nat) (s sep : string) :
  allBytes p s = true -> Forall (fun q => allBytes p q = true) (genSplit n s sep).
Proof.
  revert s. induction n as [|n IH]; intros s H; cbn [genSplit].
  - constructor; [exact H|constructor].
  - destruct (Index s sep) as [m|]; [|constructor; [exact H|constructor]].
    constructor; [apply allBytes_sliceTo, H|apply IH, allBytes_sliceFrom, H].
Qed.

Lemma trimRightASCII_all_cut (s cutset : string) :
  allBytes (inCutset cutset) s = true -> trimRightASCII s cutset = EmptyString.
Proof.
  induction s as [|c s IH]; [reflexivity|]. simpl. intros H.
  apply andb_true_iff in H as [Hc Hs]. rewrite (IH Hs), Hc. reflexivity.
Qed.

Lemma Trim_all_cut (s cutset : string) :
  allBytes (inCutset cutset) s = true -> Trim s cutset = EmptyString.
Proof.
  intros H. unfold Trim. destruct s as [|c s]; [reflexivity|].
  destruct cutset as [|k cutset]; [discriminate H|].
  rewrite (trimRightASCII_all_cut _ _ H). reflexivity.
Qed.

(** X4: [createAddress] does not look at what is left after the
    trimming: a non-empty string of spaces and brackets that does not
    begin with [" <"] is accepted, and gives an address whose name and
    address are both empty. *)
Theorem createAddress_accepts_blank (raw : string) :
  raw <> EmptyString -> HasPrefix raw " <" = false -> allBytes isCut raw = true ->
  createAddress raw = Ok (NewEmail EmptyString EmptyString).
Proof.
  intros Hraw Hp Hall.
  destruct (Split raw " <") as [|p0 rest] eqn:Hsplit.
  { exfalso. revert Hsplit. apply genSplit_not_nil. }
  rewrite (createAddress_parts raw p0 rest Hraw Hsplit).
  pose proof (Split_head_empty raw p0 rest Hraw Hsplit) as Hempty.
  destruct (isEmpty p0) eqn:Hp0.
  { apply isEmpty_true, Hempty in Hp0. congruence. }
  pose proof (genSplit_allBytes isCut (Count raw " <") raw " <" Hall) as Hparts.
  fold (Split raw " <") in Hparts. rewrite Hsplit in Hparts.
  inversion Hparts as [|? ? H0 Hrest]; subst.
  rewrite (Trim_all_cut p0) by exact H0.
  destruct rest as [|p1 rest]; [rewrite (Trim_all_cut p0) by exact H0; reflexivity|].
  inversion Hrest as [|? ? H1 _]; subst.
  rewrite (Trim_all_cut p1) by exact H1. reflexivity.
Qed.

Lemma createAddress_accepts_blank_witness :
  createAddress "<>" = Ok (NewEmail EmptyString EmptyString).
Proof. apply (createAddress_accepts_blank "<>"); [discriminate|reflexivity|reflexivity]. Defined.

Lemma HasPrefix_sliceTo (n : nat) (s sep : string) :
  HasPrefix (sliceTo n s) sep = true -> HasPrefix s sep = true.
Proof.
  revert n s. induction sep as [|k sep IH]; intros n s; [reflexivity|].
  destruct n as [|n]; [discriminate|]. destruct s as [|c s]; [discriminate|].
  simpl. intros H. apply andb_true_iff in H as [Hc Hs].
  rewrite Hc. exact (IH n s Hs).
Qed.

(** The text before the first separator does not contain the separator. *)
Lemma Index_sliceTo (s sep : string) (m : nat) :
  sep <> EmptyString -> Index s sep = Some m -> Index (sliceTo m s) sep = None.
Proof.
  intros Hsep. revert m. induction s as [|c s IH]; intros m; cbn [Index].
  - destruct sep; [congruence|]. discriminate.
  - destruct (HasPrefix (String c s) sep) eqn:Hp.
    + intros [= <-]. destruct sep; [congruence|reflexivity].
    + destruct (Index s sep) as [k|] eqn:Hk; [|discriminate]. intros [= <-].
      cbn [sliceTo Index]. rewrite (IH k eq_refl).
      destruct (HasPrefix (String c (sliceTo k s)) sep) eqn:Hp'; [|reflexivity].
      apply (HasPrefix_sliceTo (S k) (String c s)) in Hp'. congruence.
Qed.

(** No part of a split contains the separator. *)
Lemma Split_parts_absent (sep : string) (s : string) :
  sep <> EmptyString -> Forall (fun p => Index p sep = None) (Split s sep).
Proof.
  intros Hsep.
  assert (Hlen : forall n s, String.length s <= n ->
                             Forall (fun p => Index p sep = None) (Split s sep)).
  { clear s. induction n as [|n IH]; intros s Hn.
    - destruct s; [|simpl in Hn; lia].
      assert (Hi : Index "" sep = None) by (destruct sep; [congruence|reflexivity]).
      unfold Split. rewrite (genSplit_absent _ "" sep Hi). constructor; [exact Hi|constructor].
    - destruct (Index s sep) as [m|] eqn:Hm.
      + rewrite (Split_cons s sep m Hsep Hm).
        pose proof (Index_bound s sep m Hm) as Hb.
        assert (0 < String.length sep) by (destruct sep; [congruence|simpl; lia]).
        constructor; [apply Index_sliceTo; assumption|].
        apply IH. rewrite length_sliceFrom. lia.
      + unfold Split. rewrite (genSplit_absent _ s sep Hm).
        constructor; [exact Hm|constructor]. }
  apply (Hlen (String.length s)). lia.
Qed.

Lemma trimLeftASCII_suffix (s cutset : string) :
  exists l : string, s = (l ++ trimLeftASCII s cutset)%string.
Proof.
  induction s as [|c s [l IH]]; [exists EmptyString; reflexivity|].
  cbn [trimLeftASCII]. destruct (inCutset cutset c).
  - exists (String c l). rewrite append_cons, <- IH. reflexivity.
  - exists EmptyString. reflexivity.
Qed.

Lemma trimRightASCII_prefix (s cutset : string) :
  exists r : string, s = (trimRightASCII s cutset ++ r)%string.
Proof.
  induction s as [|c s [r IH]]; [exists EmptyString; reflexivity|].
  cbn [trimRightASCII]. destruct (trimRightASCII s cutset) as [|d t] eqn:Ht.
  - destruct (inCutset cutset c).
    + exists (String c s). reflexivity.
    + exists s. reflexivity.
  - exists r. rewrite append_cons, <- IH. reflexivity.
Qed.

(** The result of [Trim] is a piece of the string. *)
Lemma Trim_infix (s cutset : string) :
  exists l r : string, s = (l ++ Trim s cutset ++ r)%string.
Proof.
  unfold Trim. destruct s as [|c s]; [exists EmptyString, EmptyString; reflexivity|].
  destruct cutset as [|k cutset].
  { exists EmptyString, EmptyString. rewrite append_nil_r. reflexivity. }
  destruct (trimRightASCII_prefix (String c s) (String k cutset)) as [r Hr].
  destruct (trimLeftASCII_suffix (trimRightASCII (String c s) (String k cutset))
              (String k cutset)) as [l Hl].
  exists l, r. rewrite <- append_assoc, <- Hl. exact Hr.
Qed.

Lemma contains_infix (s l r sep : string) :
  contains s sep -> contains (l ++ s ++ r) sep.
Proof.
  intros (pre & post & ->). exists (l ++ pre)%string, (post ++ r)%string.
  rewrite !append_assoc. reflexivity.
Qed.

(** A trimmed part of the split is parsed as it is. *)
Lemma createAddress_of_trimmed_part (p : string) :
  Index p " <" = None -> Trim p " ><" <> EmptyString ->
  createAddress (Trim p " ><") = Ok (NewEmail (Trim p " ><") (Trim p " ><")).
Proof.
  intros Hp Hne. set (a := Trim p " ><") in *.
  assert (Habs : ~ contains a " <").
  { intros Hc. apply (absent_of_Index_None p " <" Hp).
    destruct (Trim_infix p " ><") as (l & r & E). rewrite E.
    apply contains_infix, Hc. }
  unfold createAddress. rewrite (isEmpty_false a Hne).
  rewrite (Split_absent a " <" Habs). cbn [lookup list_lookup].
  rewrite (isEmpty_false a Hne). simpl.
  assert (Hclean : Trim a " ><" = a).
  { apply Trim_clean. intros c Hc. unfold a in Hc.
    eapply Trim_edges; [discriminate|exact Hc]. }
  rewrite Hclean. reflexivity.
Qed.

(** X5: the parser is stable on what it returns: parsing again a
    non-empty name or address that [createAddress] returned gives that
    string as both name and address. *)
Theorem createAddress_reparse (raw : string) (e : Email) :
  createAddress raw = Ok e ->
  (Name e <> EmptyString ->
   createAddress (Name e) = Ok (NewEmail (Name e) (Name e))) /\
  (Address e <> EmptyString ->
   createAddress (Address e) = Ok (NewEmail (Address e) (Address e))).
Proof.
  intros H. apply createAddress_Ok in H as (p0 & rest & Hsplit & _ & _ & -> & ->).
  pose proof (Split_parts_absent " <" raw ltac:(discriminate)) as Hparts.
  rewrite Hsplit in Hparts. inversion Hparts as [|? ? H0 Hrest]; subst.
  split; [apply createAddress_of_trimmed_part, H0|].
  destruct rest as [|p1 rest]; [apply createAddress_of_trimmed_part, H0|].
  inversion Hrest as [|? ? H1 _]; subst.
  apply createAddress_of_trimmed_part, H1.
Qed.

Lemma createAddress_reparse_witness :
  createAddress "Full Name" = Ok (NewEmail "Full Name" "Full Name") /\
  createAddress "name@domain.name" = Ok (NewEmail "name@domain.name" "name@domain.name").
Proof.
  destruct (createAddress_reparse "Full Name <name@domain.name>"
              (NewEmail "Full Name" "name@domain.name") eq_refl) as [H1 H2].
  split; [apply H1|apply H2]; discriminate.
Defined.

End MoreAddressParser.

(** * More about the choice of the bodies *)

Section MoreBodies.
Import Strings Spec Props Mail Cmd.
Variable h : Host.

Lemma looksLikeHTML_not_empty (b : string) : looksLikeHTML b = true -> b <> EmptyString.
Proof. intros H ->. vm_compute in H. discriminate. Qed.

(** X7: when no positional argument looks like HTML and the first
    one is not empty, the first one is the plain-text body, there is no
    HTML body, and the other arguments are dropped. *)
Theorem messageBodies_without_html (args : list string) (a : string) :
  Forall (fun b => looksLikeHTML b = false) args ->
  args !! 0 = Some a -> a <> EmptyString ->
  messageBodies h args = Ok (EmptyString, a).
Proof.
  intros Hall Ha Hne. unfold messageBodies.
  destruct args as [|a0 args]; [discriminate|]. injection Ha as ->.
  change ((length (a :: args) =? 0)%nat) with false. cbv iota.
  apply (scanArgs_None h (a :: args) (a :: args) 0) in Hall. rewrite Hall.
  simpl. rewrite (isEmpty_false a Hne). reflexivity.
Qed.

(** X8: with two positional arguments of which exactly one looks
    like HTML, the order does not matter: that one is the HTML body and
    the other one the plain-text body. *)
Theorem messageBodies_either_order (a b : string) :
  looksLikeHTML a = true -> looksLikeHTML b = false ->
  messageBodies h [a; b] = Ok (a, b) /\ messageBodies h [b; a] = Ok (a, b).
Proof.
  intros Ha Hb. unfold messageBodies, looksLikeHTML in *. simpl.
  rewrite Ha, Hb. simpl.
  destruct (isEmpty b) eqn:E; simpl; [|auto].
  apply isEmpty_true in E. subst b. auto.
Qed.

Lemma scanArgs_Some_html (args rest : list string) (i : nat) (html plain : string) :
  scanArgs h args i rest = Some (Ok (html, plain)) ->
  In html rest /\ looksLikeHTML html = true.
Proof.
  revert i. induction rest as [|b rest IH]; intros i; simpl; [discriminate|].
  destruct (Regexp.MatchString htmlTag b) eqn:Hb.
  - intros H. assert (html = b); [|subst; auto].
    injection H as H. revert H.
    destruct (length args =? 1)%nat; [intros [= <- _]; reflexivity|].
    destruct (i =? 0)%nat.
    { destruct (index args 1); simpl; [intros [= <- _]; reflexivity|discriminate..]. }
    destruct (i =? 1)%nat; [|intros [= <- _]; reflexivity].
    destruct (index args 0); simpl; [intros [= <- _]; reflexivity|discriminate..].
  - intros H. apply IH in H as [Hin Hm]. auto.
Qed.

(** X9: what [messageBodies] returns is never empty on both sides:
    either there is no HTML body and the plain-text body is the first
    argument, which is not empty, or the HTML body is one of the arguments,
    looks like HTML and is not empty. *)
Theorem messageBodies_Ok_cases (args : list string) (html plain : string) :
  messageBodies h args = Ok (html, plain) ->
  (html = EmptyString /\ args !! 0 = Some plain /\ plain <> EmptyString) \/
  (html <> EmptyString /\ In html args /\ looksLikeHTML html = true).
Proof.
  unfold messageBodies. destruct args as [|a0 args]; [discriminate|].
  change ((length (a0 :: args) =? 0)%nat) with false. cbv iota.
  destruct (scanArgs h (a0 :: args) 0 (a0 :: args)) as [r|] eqn:Hscan.
  - intros ->. apply scanArgs_Some_html in Hscan as [Hin Hm].
    right. split; [apply looksLikeHTML_not_empty, Hm|auto].
  - simpl. destruct (isEmpty a0) eqn:Ha0; [discriminate|].
    intros [= <- <-]. left. repeat split.
    intros E. rewrite E in Ha0. discriminate.
Qed.

(** X10: when a body file is given, the positional arguments and the
    template id play no part in the choice of the bodies. *)
Theorem contentOf_files_first (f f' : Flags) (args args' : list string) :
  flag_html f = flag_html f' -> flag_plain f = flag_plain f' ->
  flag_html f <> EmptyString \/ flag_plain f <> EmptyString ->
  contentOf h f args = contentOf h f' args'.
Proof.
  intros Hh Hp Hfile. unfold contentOf. rewrite <- Hh, <- Hp.
  assert (Hb : negb (isEmpty (flag_html f)) || negb (isEmpty (flag_plain f)) = true).
  { destruct Hfile as [H|H]; rewrite (isEmpty_false _ H); [reflexivity|apply orb_true_r]. }
  rewrite Hb. reflexivity.
Qed.

(** X11: the choice of the bodies ends the run in one of
    four ways only: no argument at all, an empty first argument, or one
    of the two body files unreadable; the error "Need to have at least one
    way of providing the message content." never happens. *)
Theorem contentOf_Fatal_cases (f : Flags) (args : list string) (e : fatal) :
  contentOf h f args = Fatal e ->
  (e = MissingMessageBodyNoArgs /\ args = []) \/
  (e = MissingMessageBody /\ args !! 0 = Some EmptyString) \/
  (e = FileUnreadable (flag_html f) /\ ReadFile h (flag_html f) = None) \/
  (e = FileUnreadable (flag_plain f) /\ ReadFile h (flag_plain f) = None).
Proof.
  unfold contentOf, readFile.
  destruct (negb (isEmpty (flag_html f)) || negb (isEmpty (flag_plain f))).
  - destruct (negb (isEmpty (flag_html f))), (negb (isEmpty (flag_plain f)));
      repeat (match goal with
              | |- context [ReadFile h ?x] => destruct (ReadFile h x) eqn:?
              end; simpl);
      try discriminate; intros [= <-]; auto 6.
  - destruct (isEmpty (flag_template_id f)) eqn:Ht; simpl.
    + intros H. apply messageBodies_Fatal in H as [[-> ->]|(H0 & _ & ->)]; auto.
    + destruct (0 <? length args)%nat; [|discriminate].
      intros H. apply messageBodies_Fatal in H as [[-> ->]|(H0 & _ & ->)]; auto.
Qed.

End MoreBodies.

Lemma messageBodies_without_html_witness :
  Cmd.messageBodies Sample.host ["hello"; "world"] = Cmd.Ok (EmptyString, "hello").
Proof.
  apply (messageBodies_without_html Sample.host ["hello"; "world"] "hello").
  - repeat constructor.
  - reflexivity.
  - discriminate.
Defined.

Lemma messageBodies_either_order_witness :
  Cmd.messageBodies Sample.host ["<p>hi</p>"; "hi there"] = Cmd.Ok ("<p>hi</p>", "hi there") /\
  Cmd.messageBodies Sample.host ["hi there"; "<p>hi</p>"] = Cmd.Ok ("<p>hi</p>", "hi there").
Proof.
  apply (messageBodies_either_order Sample.host "<p>hi</p>" "hi there"); reflexivity.
Defined.

Lemma messageBodies_Ok_cases_witness :
  ("<b>x</b>" = EmptyString /\ ["plain"; "<b>x</b>"] !! 0 = Some "plain" /\ "plain" <> EmptyString) \/
  ("<b>x</b>" <> EmptyString /\ In "<b>x</b>" ["plain"; "<b>x</b>"] /\
   Spec.looksLikeHTML "<b>x</b>" = true).
Proof.
  apply (messageBodies_Ok_cases Sample.host ["plain"; "<b>x</b>"] "<b>x</b>" "plain").
  reflexivity.
Defined.

Lemma contentOf_files_first_witness :
  Cmd.contentOf Sample.host Sample.htmlFileFlags ["ignored"; "too"]
  = Cmd.contentOf Sample.host Sample.htmlFileFlags [].
Proof.
  apply (contentOf_files_first Sample.host Sample.htmlFileFlags Sample.htmlFileFlags);
    [reflexivity|reflexivity|left; discriminate].
Defined.

Lemma contentOf_Fatal_cases_witness :
  (Cmd.MissingMessageBodyNoArgs = Cmd.MissingMessageBodyNoArgs /\ @nil string = []) \/
  (Cmd.MissingMessageBodyNoArgs = Cmd.MissingMessageBody /\ @nil string !! 0 = Some EmptyString) \/
  (Cmd.MissingMessageBodyNoArgs = Cmd.FileUnreadable (Cmd.flag_html Sample.flags) /\
   ReadFile Sample.host (Cmd.flag_html Sample.flags) = None) \/
  (Cmd.MissingMessageBodyNoArgs = Cmd.FileUnreadable (Cmd.flag_plain Sample.flags) /\
   ReadFile Sample.host (Cmd.flag_plain Sample.flags) = None).
Proof.
  apply (contentOf_Fatal_cases Sample.host Sample.flags [] Cmd.MissingMessageBodyNoArgs).
  reflexivity.
Defined.

(** * More about the run *)

Section MoreSend.
Import Strings Spec Props Mail Cmd.
Variable h : Host.

(** [createAddress] accepts exactly the non-empty strings that do not
    begin with [" <"]. *)
Lemma createAddress_accepts (raw : string) :
  (exists e, createAddress raw = Ok e) <-> acceptable raw.
Proof.
  unfold acceptable. destruct (String.eqb raw "") eqn:Hraw.
  - apply String.eqb_eq in Hraw. subst raw. split.
    + intros [e H]. discriminate.
    + intros [H _]. congruence.
  - apply String.eqb_neq in Hraw.
    destruct (Split_head raw " <") as [rest Hsplit]; [discriminate|].
    rewrite (createAddress_parts raw _ rest Hraw Hsplit).
    pose proof (Split_head_empty raw _ rest Hraw Hsplit) as Hempty.
    destruct (isEmpty _) eqn:Hp0.
    + apply isEmpty_true, Hempty in Hp0. split.
      * intros [e H]. discriminate.
      * intros [_ H]. congruence.
    + split; [|eauto]. intros _. split; [exact Hraw|].
      destruct (HasPrefix raw " <") eqn:Hp; [|reflexivity].
      rewrite (proj2 Hempty eq_refl) in Hp0. discriminate.
Qed.

Lemma fillAddresses_succeeds (raws : list string) (i : nat) (dst : list (option Email)) :
  Forall acceptable raws -> i + length raws <= length dst ->
  exists dst', fillAddresses i raws dst = Ok dst'.
Proof.
  revert i dst. induction raws as [|raw raws IH]; intros i dst Hall Hlen; simpl.
  - eauto.
  - inversion Hall as [|? ? Hraw Hraws]; subst. simpl in Hlen.
    apply createAddress_accepts in Hraw as [e He]. rewrite He. simpl.
    unfold assign. destruct (decide (i < length dst)); [|lia]. simpl.
    apply IH; [exact Hraws|]. rewrite length_insert. lia.
Qed.

Lemma attachAll_Fatal_inv (atts : list string) (m : SGMailV3) (e : fatal) :
  attachAll h atts m = Fatal e ->
  exists fn, e = AttachmentUnreadable fn /\ In fn atts /\ ReadFile h fn = None.
Proof.
  revert m. induction atts as [|fn atts IH]; intros m; simpl; [discriminate|].
  intros H. apply bind_Fatal_inv in H as [H|(m1 & _ & H)].
  - unfold attach in H. destruct (ReadFile h fn) eqn:Hfn; [discriminate|].
    injection H as <-. exists fn. auto.
  - apply IH in H as (fn' & -> & Hin & Hfn). exists fn'. auto.
Qed.

(** [strings.SplitN(sub, "=", 2)] gives two parts exactly when [sub] has
    an ["="]: the text before the first one and the text after it. *)
Lemma SplitN_equals (sub : string) :
  genSplit 1 sub "="
  = match Index sub "=" with
    | Some m => [sliceTo m sub; sliceFrom (m + 1) sub]
    | None => [sub]
    end.
Proof. cbn [genSplit]. destruct (Index sub "="); reflexivity. Qed.

Lemma substituteAll_Fatal_inv (allSubs subs : list string) (m : SGMailV3)
    (p : Personalization) (e : fatal) :
  Personalizations m = [p] ->
  substituteAll allSubs subs m = Fatal e ->
  e = IncorrectSubstitution allSubs /\ exists sub, In sub subs /\ Index sub "=" = None.
Proof.
  revert m p. induction subs as [|sub subs IH]; intros m p Hp; cbn [substituteAll];
    [discriminate|].
  rewrite SplitN_equals. destruct (Index sub "=") as [k|] eqn:Hk.
  - simpl. rewrite (onPersonalization0_single _ m p Hp). simpl.
    intros H. eapply IH in H as (-> & sub' & Hin & Hsub'); [|reflexivity].
    split; [reflexivity|]. exists sub'. simpl. auto.
  - simpl. intros [= <-]. split; [reflexivity|]. exists sub. simpl. auto.
Qed.

(** After the checks, the assembly of the message ends the run only on an
    attachment that cannot be read or, with a template id, on a
    substitution without ["="]. *)
Lemma messageOf_Fatal_inv (f : Flags) (from : Email) (tos ccs : list (option Email))
    (html plain : string) (e : fatal) :
  messageOf h f from tos ccs html plain = Fatal e ->
  (exists fn, e = AttachmentUnreadable fn /\ In fn (flag_att f) /\ ReadFile h fn = None) \/
  (flag_template_id f <> EmptyString /\ e = IncorrectSubstitution (flag_sub f) /\
   exists sub, In sub (flag_sub f) /\ Index sub "=" = None).
Proof.
  unfold messageOf. intros H.
  apply bind_Fatal_inv in H as [H|(to0 & Hto0 & H)].
  { unfold index in H. destruct (tos !! 0); discriminate. }
  destruct tos as [|to0' tl]; [discriminate|]. injection Hto0 as ->.
  set (m0 := NewSingleEmail (Some from) (flag_subject f) to0 plain html) in H.
  apply bind_Fatal_inv in H as [H|(m1 & Hm1 & H)].
  { destruct tl; simpl in H; discriminate. }
  assert (Hp1 : exists p, Personalizations m1 = [p]).
  { destruct tl as [|to1 tl]; simpl in Hm1; injection Hm1 as <-; eexists; reflexivity. }
  destruct Hp1 as [p1 Hp1].
  apply bind_Fatal_inv in H as [H|(m2 & Hm2 & H)].
  { destruct ccs; [discriminate|]. cbn [length Nat.ltb Nat.leb] in H.
    rewrite (onPersonalization0_single _ m1 _ Hp1) in H. discriminate. }
  assert (Hp2 : exists p, Personalizations m2 = [p]).
  { destruct ccs as [|cc0 ccs].
    - simpl in Hm2. injection Hm2 as <-. eauto.
    - cbn [length Nat.ltb Nat.leb] in Hm2.
      rewrite (onPersonalization0_single _ m1 _ Hp1) in Hm2.
      injection Hm2 as <-. eexists; reflexivity. }
  destruct Hp2 as [p2 Hp2].
  apply bind_Fatal_inv in H as [H|(m3 & Hm3 & H)]; [left; eapply attachAll_Fatal_inv, H|].
  apply attachAll_Ok in Hm3 as (Hp3 & _). rewrite Hp2 in Hp3.
  destruct (isEmpty (flag_template_id f)) eqn:Ht; simpl in H; [discriminate|].
  right. split; [intros E; rewrite E in Ht; discriminate|].
  eapply substituteAll_Fatal_inv; [|exact H]. simpl. exact Hp3.
Qed.

Lemma substituteAll_Ok_inv (allSubs subs : list string) (m m' : SGMailV3)
    (p : Personalization) :
  Personalizations m = [p] ->
  substituteAll allSubs subs m = Ok m' ->
  Forall (fun sub => contains sub "=") subs.
Proof.
  revert m p. induction subs as [|sub subs IH]; intros m p Hp; cbn [substituteAll];
    [constructor|].
  rewrite SplitN_equals. destruct (Index sub "=") as [k|] eqn:Hk; [|discriminate].
  simpl. rewrite (onPersonalization0_single _ m p Hp). simpl.
  intros H. constructor; [eapply Index_Some_contains, Hk|].
  eapply IH; [|exact H]. reflexivity.
Qed.

Lemma messageOf_Ok_subs (f : Flags) (from : Email) (tos ccs : list (option Email))
    (html plain : string) (m : SGMailV3) :
  messageOf h f from tos ccs html plain = Ok m ->
  flag_template_id f <> EmptyString ->
  Forall (fun sub => contains sub "=") (flag_sub f).
Proof.
  unfold messageOf. intros H Ht.
  apply bind_Ok_inv in H as (to0 & Hto0 & H).
  destruct tos as [|to0' tl]; [discriminate|]. injection Hto0 as ->.
  set (m0 := NewSingleEmail (Some from) (flag_subject f) to0 plain html) in H.
  apply bind_Ok_inv in H as (m1 & Hm1 & H).
  assert (Hp1 : exists p, Personalizations m1 = [p]).
  { destruct tl as [|to1 tl]; simpl in Hm1; injection Hm1 as <-; eexists; reflexivity. }
  destruct Hp1 as [p1 Hp1].
  apply bind_Ok_inv in H as (m2 & Hm2 & H).
  assert (Hp2 : exists p, Personalizations m2 = [p]).
  { destruct ccs as [|cc0 ccs].
    - simpl in Hm2. injection Hm2 as <-. eauto.
    - cbn [length Nat.ltb Nat.leb] in Hm2.
      rewrite (onPersonalization0_single _ m1 _ Hp1) in Hm2.
      injection Hm2 as <-. eexists; reflexivity. }
  destruct Hp2 as [p2 Hp2].
  apply bind_Ok_inv in H as (m3 & Hm3 & H).
  apply attachAll_Ok in Hm3 as (Hp3 & _). rewrite Hp2 in Hp3.
  rewrite (isEmpty_false _ Ht) in H. simpl in H.
  eapply substituteAll_Ok_inv; [|exact H]. simpl. exact Hp3.
Qed.

Lemma recipientsOf_succeeds (f : Flags) (args : list string) :
  length args <= 2 -> acceptable (flag_from f) -> flag_subject f <> EmptyString ->
  flag_to f <> [] -> Forall acceptable (flag_to f) ->
  exists from tos ccs, recipientsOf f args = Ok (from, tos, ccs).
Proof.
  intros Hlen Hfrom Hsubj Hto Hall. unfold recipientsOf.
  apply Nat.ltb_ge in Hlen. rewrite Hlen.
  apply createAddress_accepts in Hfrom as [from Hfrom]. rewrite Hfrom.
  cbn [mbind result_bind].
  rewrite (isEmpty_false _ Hsubj).
  destruct (flag_to f) as [|t ts] eqn:Eto; [congruence|].
  change ((length (t :: ts) =? 0)%nat) with false. cbv iota.
  destruct (fillAddresses_succeeds (t :: ts) 0 (replicate (length (t :: ts)) None) Hall)
    as [tos1 H1]; [rewrite length_replicate; lia|].
  rewrite H1. cbn [mbind result_bind].
  apply fillAddresses_length in H1 as Hl1. rewrite length_replicate in Hl1.
  destruct (fillAddresses_succeeds (t :: ts) 0 tos1 Hall) as [tos2 H2]; [lia|].
  rewrite H2. cbn [mbind result_bind]. eauto.
Qed.

(** When [send] gets as far as its last step, the call of [client.Send]
    or of [sendV2]. *)
Lemma send_Ok_iff (f : Flags) (args : list string) :
  (exists req, send h f args = Ok req) <->
  length args <= 2 /\ acceptable (flag_from f) /\ flag_subject f <> EmptyString /\
  flag_to f <> [] /\ Forall acceptable (flag_to f) /\
  (exists bodies, contentOf h f args = Ok bodies) /\
  ~ noCredentials h f /\
  Forall (fun fn => exists b, ReadFile h fn = Some b) (flag_att f) /\
  (flag_template_id f <> EmptyString -> Forall (fun sub => contains sub "=") (flag_sub f)).
Proof.
  split.
  - intros [req H]. apply send_Ok in H
      as (from & tos & ccs & html & plain & apiKey & m & Hr & Hc & Hk & Hm & _ & _).
    apply recipientsOf_Ok in Hr as (Hlen & Hfrom & Hsubj & (es & Hes & Hne & ->) & ->).
    split; [exact Hlen|]. split; [apply createAddress_accepts; eauto|].
    split; [exact Hsubj|]. split.
    { intros E. rewrite E in Hes. inversion Hes. congruence. }
    split.
    { clear -Hes. induction Hes; constructor; [apply createAddress_accepts; eauto|assumption]. }
    split; [eauto|]. split.
    { intros Hno.
      assert (Hf : credentialsOf h f = Fatal CredentialsMissing)
        by (apply credentialsOf_Fatal; auto).
      congruence. }
    split.
    + apply messageOf_Ok in Hm as (_ & _ & bs & Hbs & _).
      clear -Hbs. induction Hbs; constructor; eauto.
    + intros Ht. eapply messageOf_Ok_subs; eassumption.
  - intros (Hlen & Hfrom & Hsubj & Hto & Hall & [[html plain] Hc] & Hcred & Hatt & Hsub).
    destruct (recipientsOf_succeeds f args Hlen Hfrom Hsubj Hto Hall)
      as (from & tos & ccs & Hr).
    unfold send. rewrite Hr. simpl. rewrite Hc. simpl.
    destruct (credentialsOf h f) as [apiKey|e|] eqn:Hk; simpl.
    2:{ exfalso. apply Hcred. apply credentialsOf_Fatal in Hk. tauto. }
    2:{ exfalso. exact (credentialsOf_no_panic h f Hk). }
    apply recipientsOf_Ok in Hr as (_ & _ & _ & (es & _ & Hes & ->) & _).
    destruct (messageOf h f from (map Some es) ccs html plain) as [m|e|] eqn:Hm; simpl.
    + destruct (isEmpty apiKey); eauto.
    + exfalso. apply messageOf_Fatal_inv in Hm
        as [(fn & _ & Hin & Hfn)|(Ht & _ & sub & Hin & Hnone)].
      * rewrite Forall_forall in Hatt. apply list_elem_of_In in Hin.
        destruct (Hatt fn Hin) as [b Hb]. congruence.
      * specialize (Hsub Ht). rewrite Forall_forall in Hsub. apply list_elem_of_In in Hin.
        exact (absent_of_Index_None sub "=" Hnone (Hsub sub Hin)).
    + exfalso. revert Hm. apply messageOf_no_panic. destruct es; [congruence|discriminate].
Qed.

Lemma credentialsOf_Ok (f : Flags) (apiKey : string) :
  credentialsOf h f = Ok apiKey ->
  (flag_key f <> EmptyString /\ apiKey = flag_key f) \/
  (flag_key f = EmptyString /\ flag_user f <> EmptyString /\ apiKey = EmptyString) \/
  (flag_key f = EmptyString /\ flag_user f = EmptyString /\
   apiKey = Getenv h "SENDGRID_API_KEY" /\ apiKey <> EmptyString).
Proof.
  unfold credentialsOf.
  destruct (isEmpty (flag_key f)) eqn:Hk; destruct (isEmpty (flag_user f)) eqn:Hu; simpl;
    try apply isEmpty_true in Hk; try apply isEmpty_true in Hu.
  - destruct (isEmpty (Getenv h "SENDGRID_API_KEY")) eqn:He; [discriminate|].
    intros [= <-]. right. right. repeat split; try assumption.
    intros E. rewrite E in He. discriminate.
  - intros [= <-]. right. left. repeat split; try assumption.
    intros E. rewrite E in Hu. discriminate.
  - intros [= <-]. left. split; [|reflexivity]. intros E. rewrite E in Hk. discriminate.
  - intros [= <-]. left. split; [|reflexivity]. intros E. rewrite E in Hk. discriminate.
Qed.

(** X13: which API a run uses.  With a [--key] value the key API is
    called with it, whatever the user name; without it and with a
    [--user] value the user/password API is called with the user name and
    the password as given, and the environment is not looked at; with
    neither, the key API is called with the key of the environment. *)
Theorem send_route (f : Flags) (args : list string) (req : Request) :
  send h f args = Ok req ->
  (flag_key f <> EmptyString /\ exists m, req = SendV3 (flag_key f) m) \/
  (flag_key f = EmptyString /\ flag_user f <> EmptyString /\
   exists m, req = SendV2 (flag_user f) (flag_password f) m) \/
  (flag_key f = EmptyString /\ flag_user f = EmptyString /\
   Getenv h "SENDGRID_API_KEY" <> EmptyString /\
   exists m, req = SendV3 (Getenv h "SENDGRID_API_KEY") m).
Proof.
  intros H. apply send_Ok in H
    as (from & tos & ccs & html & plain & apiKey & m & _ & _ & Hk & _ & _ & ->).
  apply credentialsOf_Ok in Hk as [(Hkey & ->)|[(Hkey & Huser & ->)|(Hkey & Huser & -> & Henv)]].
  - left. split; [exact Hkey|]. rewrite (isEmpty_false _ Hkey). eauto.
  - right. left. eauto.
  - right. right. rewrite (isEmpty_false _ Henv). eauto 6.
Qed.

(** X15: [send] takes the number of the [--cc] values and never reads
    them: with other values, as many of them, it ends the same way and
    makes the same request. *)
Theorem send_ignores_cc_values (f : Flags) (args cc : list string) :
  length cc = length (flag_cc f) -> send h (withCC cc f) args = send h f args.
Proof.
  intros Hlen. unfold send, recipientsOf. cbn [withCC flag_from flag_subject flag_to flag_cc].
  rewrite Hlen. reflexivity.
Qed.

(** X20: without a template id the [--sub] values are never read: a
    run with other values ends the same way and makes the same request,
    also when a value has no ["="]. *)
Theorem send_ignores_sub_without_template (f : Flags) (args sub : list string) :
  flag_template_id f = EmptyString -> send h (withSub sub f) args = send h f args.
Proof.
  intros Ht. unfold send, messageOf.
  cbn [withSub flag_template_id flag_sub flag_att flag_subject].
  rewrite Ht. reflexivity.
Qed.

Lemma attachAll_envelope (atts : list string) (m m' : SGMailV3) :
  attachAll h atts m = Ok m' ->
  From m' = From m /\ Subject m' = Subject m /\ TemplateID m' = TemplateID m.
Proof.
  revert m. induction atts as [|fn atts IH]; intros m; simpl.
  - intros [= <-]. auto.
  - intros H. apply bind_Ok_inv in H as (m1 & Hm1 & H).
    apply attach_Ok in Hm1 as (b & _ & ->). apply IH in H. exact H.
Qed.

Lemma substituteAll_envelope (allSubs subs : list string) (m m' : SGMailV3)
    (p : Personalization) :
  Personalizations m = [p] ->
  substituteAll allSubs subs m = Ok m' ->
  From m' = From m /\ Subject m' = Subject m.
Proof.
  revert m p. induction subs as [|sub subs IH]; intros m p Hp; cbn [substituteAll].
  - intros [= <-]. auto.
  - destruct (negb (length (genSplit 1 sub "=") =? 2)%nat); [discriminate|].
    intros H. apply bind_Ok_inv in H as (k & _ & H).
    apply bind_Ok_inv in H as (v & _ & H).
    rewrite (onPersonalization0_single _ m p Hp) in H. simpl in H.
    eapply IH in H; [|reflexivity]. simpl in H. exact H.
Qed.

Lemma messageOf_envelope (f : Flags) (from : Email) (tos ccs : list (option Email))
    (html plain : string) (m : SGMailV3) :
  messageOf h f from tos ccs html plain = Ok m ->
  From m = Some from /\ Subject m = flag_subject f /\ TemplateID m = flag_template_id f.
Proof.
  unfold messageOf. intros H.
  apply bind_Ok_inv in H as (to0 & Hto0 & H).
  destruct tos as [|to0' tl]; [discriminate|]. injection Hto0 as ->.
  set (m0 := NewSingleEmail (Some from) (flag_subject f) to0 plain html) in H.
  apply bind_Ok_inv in H as (m1 & Hm1 & H).
  assert (Hp1 : (exists p, Personalizations m1 = [p]) /\ From m1 = Some from /\
                Subject m1 = flag_subject f /\ TemplateID m1 = EmptyString).
  { destruct tl as [|to1 tl]; simpl in Hm1; injection Hm1 as <-; split; eauto. }
  destruct Hp1 as ([p1 Hp1] & Hf1 & Hs1 & Ht1).
  apply bind_Ok_inv in H as (m2 & Hm2 & H).
  assert (Hp2 : (exists p, Personalizations m2 = [p]) /\ From m2 = Some from /\
                Subject m2 = flag_subject f /\ TemplateID m2 = EmptyString).
  { destruct ccs as [|cc0 ccs].
    - simpl in Hm2. injection Hm2 as <-. eauto.
    - cbn [length Nat.ltb Nat.leb] in Hm2.
      rewrite (onPersonalization0_single _ m1 _ Hp1) in Hm2.
      injection Hm2 as <-. simpl. eauto. }
  destruct Hp2 as ([p2 Hp2] & Hf2 & Hs2 & Ht2).
  apply bind_Ok_inv in H as (m3 & Hm3 & H).
  apply attachAll_Ok in Hm3 as Hm3'. destruct Hm3' as (Hp3 & _). rewrite Hp2 in Hp3.
  apply attachAll_envelope in Hm3 as (Hf3 & Hs3 & Ht3).
  destruct (isEmpty (flag_template_id f)) eqn:Ht; simpl in H.
  - injection H as <-. apply isEmpty_true in Ht. rewrite Ht. repeat split; congruence.
  - pose proof H as H'.
    eapply substituteAll_envelope in H as (Hf & Hs); [|simpl; exact Hp3].
    eapply substituteAll_Ok in H' as (_ & _ & _ & Htid); [|simpl; exact Hp3].
    simpl in *. repeat split; congruence.
Qed.

Lemma nonEmpty_bodies (html plain : string) :
  nonEmpty [NewContent "text/plain" plain; NewContent "text/html" html]
  = bodyContents html plain.
Proof.
  unfold nonEmpty, bodyContents, isEmpty. cbn [List.filter Value NewContent].
  destruct (String.eqb plain EmptyString), (String.eqb html EmptyString); reflexivity.
Qed.

(** X16: the message of every request has the parsed [--from]
    value as sender, the [--subject] value, which is not empty, as subject,
    the [--template-id] value as template id, and as contents the bodies
    that are not empty, the plain-text one first. *)
Theorem send_envelope (f : Flags) (args : list string) (req : Request) :
  send h f args = Ok req ->
  exists from html plain,
    createAddress (flag_from f) = Ok from /\
    contentOf h f args = Ok (html, plain) /\
    From (messageOfRequest req) = Some from /\
    Subject (messageOfRequest req) = flag_subject f /\
    flag_subject f <> EmptyString /\
    TemplateID (messageOfRequest req) = flag_template_id f /\
    Contents (messageOfRequest req) = bodyContents html plain.
Proof.
  intros H. apply send_Ok in H
    as (from & tos & ccs & html & plain & apiKey & m & Hr & Hc & _ & Hm & -> & _).
  apply recipientsOf_Ok in Hr as (_ & Hfrom & Hsubj & _ & _).
  apply messageOf_envelope in Hm as Henv. destruct Henv as (Hf & Hs & Ht).
  apply messageOf_Ok in Hm as (_ & Hcont & _). rewrite nonEmpty_bodies in Hcont.
  exists from, html, plain. auto 10.
Qed.

(** X21: a run never panics: it ends in a fatal error or hands a
    request over; every index it uses is in range. *)
Theorem send_returns_or_ends (f : Flags) (args : list string) :
  (exists req, send h f args = Ok req) \/ (exists e, send h f args = Fatal e).
Proof.
  destruct (send h f args) as [req|e|] eqn:H; [eauto|eauto|].
  exfalso. exact (send_no_panic h f args H).
Qed.

Lemma append_inj_r (a b c : string) : (a ++ c = b ++ c)%string -> a = b.
Proof.
  revert b. induction a as [|x a IH]; intros [|y b] H.
  - reflexivity.
  - apply (f_equal String.length) in H. rewrite !length_append in H. simpl in H. lia.
  - apply (f_equal String.length) in H. rewrite !length_append in H. simpl in H. lia.
  - rewrite !append_cons in H. injection H as -> H. f_equal. apply IH, H.
Qed.

Lemma placeholder_inj (a b : string) : placeholder a = placeholder b -> a = b.
Proof.
  unfold placeholder. rewrite !append_cons. intros [= H].
  change ("" ++ a ++ "%]")%string with (a ++ "%]")%string in H.
  change ("" ++ b ++ "%]")%string with (b ++ "%]")%string in H.
  apply append_inj_r in H. exact H.
Qed.

Lemma Index_seam_equals (k rest : string) :
  ~ contains k "=" -> Index (k ++ "=" ++ rest) "=" = Some (String.length k).
Proof.
  induction k as [|c k IH]; intros Habs; [reflexivity|].
  rewrite append_cons. cbn [Index].
  assert (Hp : HasPrefix (String c (k ++ "=" ++ rest)) "=" = false).
  { cbn [HasPrefix]. destruct (Ascii.eqb c "=") eqn:Hc; [|reflexivity].
    apply Ascii.eqb_eq in Hc. subst c. exfalso. apply Habs.
    exists EmptyString, k. reflexivity. }
  rewrite Hp, IH; [reflexivity|].
  intros H. apply Habs, contains_cons, H.
Qed.

(** The substitutions that the loop over the [--sub] values leaves. *)
Lemma substituteAll_Substitutions (allSubs subs : list string) (m m' : SGMailV3)
    (p : Personalization) :
  Personalizations m = [p] ->
  substituteAll allSubs subs m = Ok m' ->
  exists p', Personalizations m' = [p'] /\
             Substitutions p' = foldl addSub (Substitutions p) subs.
Proof.
  revert m p. induction subs as [|sub subs IH]; intros m p Hp; cbn [substituteAll].
  - intros [= <-]. exists p. auto.
  - rewrite SplitN_equals. cbn [foldl].
    destruct (Index sub "=") as [j|] eqn:Hj; [|discriminate].
    simpl. rewrite (onPersonalization0_single _ m p Hp). simpl.
    intros H. eapply IH in H as (p' & Hp' & Hs); [|reflexivity].
    exists p'. split; [exact Hp'|]. rewrite Hs.
    f_equal. unfold addSub. rewrite Hj. reflexivity.
Qed.

Lemma foldl_addSub_other (k : string) (subs : list string) (acc : gmap string string) :
  Forall (fun sub => HasPrefix sub (k ++ "=") = false) subs ->
  foldl addSub acc subs !! placeholder k = acc !! placeholder k.
Proof.
  revert acc. induction subs as [|sub subs IH]; intros acc Hall; [reflexivity|].
  inversion Hall as [|? ? Hsub Hsubs]; subst. cbn [foldl]. rewrite (IH _ Hsubs).
  unfold addSub. destruct (Index sub "=") as [j|] eqn:Hj; [|reflexivity].
  apply lookup_insert_ne. intros E. apply placeholder_inj in E.
  apply Index_Some_split in Hj. rewrite E in Hj.
  rewrite Hj, <- append_assoc, HasPrefix_app in Hsub. discriminate.
Qed.

(** The stages of the assembly: the message before the template, with one
    personalization that has the recipients and no substitution yet. *)
Lemma messageOf_stages (f : Flags) (from : Email) (tos ccs : list (option Email))
    (html plain : string) (m : SGMailV3) :
  messageOf h f from tos ccs html plain = Ok m ->
  exists m3 p3,
    Personalizations m3 = [p3] /\ Substitutions p3 = ∅ /\
    (if isEmpty (flag_template_id f) then m = m3
     else substituteAll (flag_sub f) (flag_sub f) (SetTemplateID (flag_template_id f) m3)
          = Ok m).
Proof.
  unfold messageOf. intros H.
  apply bind_Ok_inv in H as (to0 & Hto0 & H).
  destruct tos as [|to0' tl]; [discriminate|]. injection Hto0 as ->.
  set (m0 := NewSingleEmail (Some from) (flag_subject f) to0 plain html) in H.
  apply bind_Ok_inv in H as (m1 & Hm1 & H).
  assert (Hp1 : exists p, Personalizations m1 = [p] /\ Substitutions p = ∅).
  { destruct tl as [|to1 tl]; simpl in Hm1; injection Hm1 as <-; eexists; split; reflexivity. }
  destruct Hp1 as (p1 & Hp1 & Hs1).
  apply bind_Ok_inv in H as (m2 & Hm2 & H).
  assert (Hp2 : exists p, Personalizations m2 = [p] /\ Substitutions p = ∅).
  { destruct ccs as [|cc0 ccs].
    - simpl in Hm2. injection Hm2 as <-. eauto.
    - cbn [length Nat.ltb Nat.leb] in Hm2.
      rewrite (onPersonalization0_single _ m1 _ Hp1) in Hm2.
      injection Hm2 as <-. eexists. split; [reflexivity|exact Hs1]. }
  destruct Hp2 as (p2 & Hp2 & Hs2).
  apply bind_Ok_inv in H as (m3 & Hm3 & H).
  apply attachAll_Ok in Hm3 as (Hp3 & _). rewrite Hp2 in Hp3.
  exists m3, p2. split; [exact Hp3|]. split; [exact Hs2|].
  destruct (isEmpty (flag_template_id f)); simpl in H; [congruence|exact H].
Qed.

(** X19: with a template id, a [--sub] value [k=v] whose key
    has no ["="] puts the value [v], which may have one, under the
    placeholder of [k], unless a later [--sub] value has the same key. *)
Theorem send_substitution (f : Flags) (args : list string) (req : Request)
    (before after : list string) (k v : string) :
  send h f args = Ok req ->
  flag_template_id f <> EmptyString ->
  flag_sub f = before ++ (k ++ "=" ++ v)%string :: after ->
  ~ contains k "=" ->
  Forall (fun sub => HasPrefix sub (k ++ "=") = false) after ->
  exists p, Personalizations (messageOfRequest req) = [p] /\
            Substitutions p !! placeholder k = Some v.
Proof.
  intros H Ht Hsub Hk Hafter. apply send_Ok in H
    as (from & tos & ccs & html & plain & apiKey & m & _ & _ & _ & Hm & -> & _).
  apply messageOf_stages in Hm as (m3 & p3 & Hp3 & Hs3 & Hm).
  rewrite (isEmpty_false _ Ht) in Hm.
  eapply substituteAll_Substitutions in Hm as (p & Hp & Hs); [|simpl; exact Hp3].
  exists p. split; [exact Hp|].
  rewrite Hs, Hs3, Hsub, foldl_app. cbn [foldl].
  rewrite (foldl_addSub_other k after _ Hafter).
  unfold addSub at 1. rewrite (Index_seam_equals k v Hk).
  rewrite sliceTo_app, sliceFrom_add, sliceFrom_app.
  apply lookup_insert_eq.
Qed.

End MoreSend.

(** * The user/password API *)

Section LegacyFacts.
Import Strings Spec Props Mail Cmd.
Variable h : Host.

(** What the message of a request is made of. *)
Lemma send_message (f : Flags) (args : list string) (req : Request) :
  send h f args = Ok req ->
  exists from es html plain p0 bs,
    createAddress (flag_from f) = Ok from /\
    Forall2 (fun raw e => createAddress raw = Ok e) (flag_to f) es /\ es <> [] /\
    contentOf h f args = Ok (html, plain) /\
    Forall2 (fun fn b => ReadFile h fn = Some b) (flag_att f) bs /\
    From (messageOfRequest req) = Some from /\
    Subject (messageOfRequest req) = flag_subject f /\
    Personalizations (messageOfRequest req) = [p0] /\
    To p0 = map Some es /\ CC p0 = replicate (length (flag_cc f)) None /\
    Contents (messageOfRequest req)
    = nonEmpty [NewContent "text/plain" plain; NewContent "text/html" html] /\
    Attachments (messageOfRequest req) = zip_with (attachmentOf h) (flag_att f) bs.
Proof.
  intros H. apply send_Ok in H
    as (from & tos & ccs & html & plain & apiKey & m & Hr & Hc & _ & Hm & -> & _).
  apply recipientsOf_Ok in Hr as (_ & Hfrom & _ & (es & Hes & Hne & ->) & ->).
  apply messageOf_envelope in Hm as Henv. destruct Henv as (Hf & Hs & _).
  apply messageOf_Ok in Hm as ((p0 & Hp0 & HTo & HCC) & Hcont & bs & Hbs & Hatt).
  exists from, es, html, plain, p0, bs. auto 12.
Qed.

Lemma addressToLists_Some (es : list Email) :
  Legacy.addressToLists (map Some es) = Some (map Address es, map Name es).
Proof. induction es as [|e es IH]; simpl; [reflexivity|]. rewrite IH. reflexivity. Qed.

Lemma addressToLists_nil_pointer (emails : list (option Email)) :
  In None emails -> Legacy.addressToLists emails = None.
Proof.
  induction emails as [|[e|] emails IH]; simpl; [tauto| |reflexivity].
  intros [H|H]; [discriminate|]. rewrite (IH H). reflexivity.
Qed.

(** X22: on the user/password API a [--cc] value makes the run
    panic: [sendV2] reads the address of each [cc] entry, and these are
    nil pointers. *)
Theorem run_user_cc_panics (f : Flags) (args : list string) :
  (exists req, send h f args = Ok req) ->
  flag_key f = EmptyString -> flag_user f <> EmptyString -> flag_cc f <> [] ->
  Legacy.run h f args = Legacy.EndedV2 Legacy.Panicked.
Proof.
  intros [req H] Hkey Huser Hcc. unfold Legacy.run. rewrite H.
  apply send_message in H as Hmsg.
  destruct Hmsg as (from & es & html & plain & p0 & bs & _ & _ & _ & _ & _
                    & HFrom & _ & Hp0 & HTo & HCC & _ & _).
  apply send_Ok in H as (_ & _ & _ & _ & _ & apiKey & m & _ & _ & Hk & _ & Hreq & ->).
  apply credentialsOf_Ok in Hk as [(Hk & _)|[(_ & _ & ->)|(_ & Hu & _)]]; [congruence| |congruence].
  simpl in *. f_equal. unfold Legacy.sendV2, Legacy.valuesOf.
  rewrite HFrom, Hp0. cbn [lookup list_lookup]. rewrite HTo, addressToLists_Some, HCC.
  destruct (flag_cc f) as [|c cc]; [congruence|]. reflexivity.
Qed.

(** The fields of one key: the key itself for one value, the key with
    ["[]"] for several, none for no value. *)
Lemma elem_of_fieldsOfKey (key : string) (vals : list string) (k v : string) :
  (k, v) ∈ Legacy.fieldsOfKey key vals <-> k = listKey key (length vals) /\ v ∈ vals.
Proof.
  unfold listKey. destruct vals as [|x [|y vals]]; cbn [Legacy.fieldsOfKey length Nat.eqb].
  - rewrite !elem_of_nil. tauto.
  - rewrite !list_elem_of_singleton. split; [intros [= -> ->]; auto|intros [-> ->]; reflexivity].
  - rewrite !list_elem_of_In, in_map_iff. split.
    + intros (w & [= <- <-] & Hw). auto.
    + intros [-> Hv]. exists v. auto.
Qed.

(** The fields of the form, whatever the order they are written in. *)
Lemma elem_of_Fields (urlStr : string) (values : gmap string (list string))
    (filenames : list string) (request : Legacy.Request) (k v : string) :
  Legacy.newMultipPartForm h urlStr values filenames = inr request ->
  ((k, v) ∈ Legacy.Fields request <->
   exists key vals, values !! key = Some vals /\ k = listKey key (length vals) /\ v ∈ vals).
Proof.
  unfold Legacy.newMultipPartForm. destruct (Legacy.fileParts h filenames); [discriminate|].
  intros [= <-]. cbn [Legacy.Fields]. rewrite list_elem_of_bind. split.
  - intros ([key vals] & Hkv & Hin). apply elem_of_map_to_list in Hin.
    apply elem_of_fieldsOfKey in Hkv. exists key, vals. tauto.
  - intros (key & vals & Hlook & Hk & Hv). exists (key, vals). split.
    + apply elem_of_fieldsOfKey. auto.
    + apply elem_of_map_to_list, Hlook.
Qed.

Lemma fileParts_readable (fns bs : list string) :
  Forall2 (fun fn b => ReadFile h fn = Some b) fns bs ->
  Legacy.fileParts h fns = inr (zip_with filePartOf fns bs).
Proof.
  induction 1 as [|fn b fns bs Hfn _ IH]; simpl; [reflexivity|].
  rewrite Hfn, IH. reflexivity.
Qed.

Lemma Filename_attachments (fns bs : list string) :
  length fns = length bs ->
  map Filename (zip_with (attachmentOf h) fns bs) = fns.
Proof.
  revert bs. induction fns as [|fn fns IH]; intros [|b bs] Hlen; simpl in *;
    try reflexivity; try lia.
  rewrite IH by lia. reflexivity.
Qed.

(** The loop over the contents skips those with an empty value. *)
Lemma foldl_addContent_nonEmpty (content : list Content)
    (values : gmap string (list string)) :
  foldl Legacy.addContent values (nonEmpty content) = foldl Legacy.addContent values content.
Proof.
  revert values. induction content as [|c content IH]; intros values; [reflexivity|].
  unfold nonEmpty in *. cbn [List.filter foldl].
  destruct (String.eqb (Value c) EmptyString) eqn:Hv; cbn [negb foldl]; rewrite IH.
  - f_equal. unfold Legacy.addContent, isEmpty. rewrite Hv, !andb_false_r. reflexivity.
  - reflexivity.
Qed.

Ltac distinct_keys :=
  cbn [fmap list_fmap fst];
  repeat (apply NoDup_cons; split;
          [rewrite ?elem_of_cons, elem_of_nil; intros Hdup;
           repeat (destruct Hdup as [Hdup|Hdup]; try discriminate Hdup); exact Hdup|]);
  apply NoDup_nil_2.

(** The values that [sendV2] collects for a message without [cc]. *)
Lemma valuesOf_table (username password : string) (m : SGMailV3) (from : Email)
    (es : list Email) (html plain : string) (p0 : Personalization) :
  From m = Some from -> Personalizations m = [p0] ->
  To p0 = map Some es -> CC p0 = [] ->
  Contents m = nonEmpty [NewContent "text/plain" plain; NewContent "text/html" html] ->
  exists values,
    Legacy.valuesOf username password m = Some values /\
    forall key vals,
      values !! key = Some vals <->
      (key, vals) ∈ formTable username password (Subject m) from es html plain.
Proof.
  intros HFrom Hp0 HTo HCC Hcont. unfold Legacy.valuesOf.
  rewrite HFrom, Hp0. cbn [lookup list_lookup]. rewrite HTo, addressToLists_Some, HCC, Hcont.
  cbn [length Nat.ltb Nat.leb]. rewrite foldl_addContent_nonEmpty.
  cbn [foldl]. eexists. split; [reflexivity|].
  intros key vals. unfold Legacy.addContent, Legacy.Add, formTable, NewContent.
  cbn [ContentType Value String.eqb Ascii.eqb Bool.eqb andb].
  destruct (isEmpty plain), (isEmpty html); cbn [negb andb app];
    repeat (rewrite (lookup_insert_ne _ _ "text") by discriminate);
    repeat (rewrite (lookup_insert_ne _ _ "html") by discriminate);
    rewrite ?lookup_empty; cbn [default app];
    rewrite <- (list_to_map_nil (M := gmap string) (A := list string));
    rewrite <- !list_to_map_cons;
    (rewrite <- elem_of_list_to_map by distinct_keys);
    rewrite !elem_of_cons, !elem_of_nil; tauto.
Qed.

(** The request of a run on the user/password API without [--cc]. *)
Lemma run_user_request (f : Flags) (args : list string) :
  (exists req, send h f args = Ok req) ->
  flag_key f = EmptyString -> flag_user f <> EmptyString -> flag_cc f = [] ->
  exists from es html plain bs values request,
    createAddress (flag_from f) = Ok from /\
    Forall2 (fun raw e => createAddress raw = Ok e) (flag_to f) es /\
    contentOf h f args = Ok (html, plain) /\
    Forall2 (fun fn b => ReadFile h fn = Some b) (flag_att f) bs /\
    Legacy.run h f args = Legacy.EndedV2 (Legacy.Posted request) /\
    Legacy.newMultipPartForm h "https://api.sendgrid.com/api/mail.send.json" values
      (flag_att f) = inr request /\
    (forall key vals,
       values !! key = Some vals <->
       (key, vals) ∈ formTable (flag_user f) (flag_password f) (flag_subject f)
                      from es html plain).
Proof.
  intros [req H] Hkey Huser Hcc. unfold Legacy.run. rewrite H.
  apply send_message in H as Hmsg.
  destruct Hmsg as (from & es & html & plain & p0 & bs & Hfrom & Hes & _ & Hc & Hbs
                    & HFrom & HSubj & Hp0 & HTo & HCC & Hcont & Hatt).
  apply send_Ok in H as (_ & _ & _ & _ & _ & apiKey & m & _ & _ & Hk & _ & Hreq & ->).
  apply credentialsOf_Ok in Hk as [(Hk & _)|[(_ & _ & ->)|(_ & Hu & _)]]; [congruence| |congruence].
  simpl in *. rewrite Hcc in HCC. simpl in HCC.
  destruct (valuesOf_table (flag_user f) (flag_password f) m from es html plain p0
              HFrom Hp0 HTo HCC Hcont) as (values & Hvalues & Htable).
  rewrite HSubj in Htable.
  unfold Legacy.sendV2. rewrite Hvalues, Hatt.
  rewrite Filename_attachments by (eapply Forall2_length, Hbs).
  unfold Legacy.newMultipPartForm. rewrite (fileParts_readable _ _ Hbs).
  do 7 eexists. repeat split; try eassumption; try reflexivity; apply Htable.
Qed.

(** The API that [send] hands the message to. *)
Lemma send_Ok_route (f : Flags) (args : list string) (req : Request) :
  send h f args = Ok req ->
  (exists apiKey m, req = SendV3 apiKey m /\
                    (flag_key f <> EmptyString \/ flag_user f = EmptyString)) \/
  (exists m, req = SendV2 (flag_user f) (flag_password f) m /\
             flag_key f = EmptyString /\ flag_user f <> EmptyString).
Proof.
  intros H. apply send_Ok in H
    as (from & tos & ccs & html & plain & apiKey & m & _ & _ & Hk & _ & _ & ->).
  apply credentialsOf_Ok in Hk as [(Hkey & ->)|[(Hkey & Huser & ->)|(Hkey & Huser & -> & Henv)]].
  - left. rewrite (isEmpty_false _ Hkey). eauto.
  - right. eauto.
  - left. rewrite (isEmpty_false _ Henv). eauto.
Qed.

(** What [sendV2] does with the message of [send]: the nil pointers of
    the [cc] list stop it, and without them it calls the network. *)
Lemma sendV2_of_send (f : Flags) (args : list string) (username password : string)
    (m : SGMailV3) :
  send h f args = Ok (SendV2 username password m) ->
  (flag_cc f <> [] -> Legacy.sendV2 h username password m = Legacy.Panicked) /\
  (flag_cc f = [] -> exists request, Legacy.sendV2 h username password m = Legacy.Posted request).
Proof.
  intros H. split.
  - intros Hcc. apply send_message in H as Hmsg.
    destruct Hmsg as (from & es & html & plain & p0 & bs & _ & _ & _ & _ & _
                      & HFrom & _ & Hp0 & HTo & HCC & _ & _).
    simpl in *. unfold Legacy.sendV2, Legacy.valuesOf.
    rewrite HFrom, Hp0. cbn [lookup list_lookup]. rewrite HTo, addressToLists_Some, HCC.
    destruct (flag_cc f) as [|c cc]; [congruence|]. reflexivity.
  - intros Hcc. apply send_Ok_route in H as Hroute.
    destruct Hroute as [(k & m' & E & _)|(m' & _ & Hkey & Huser)]; [discriminate|].
    destruct (run_user_request f args (ex_intro _ _ H) Hkey Huser Hcc)
      as (_ & _ & _ & _ & _ & _ & request & _ & _ & _ & _ & Hrun & _).
    unfold Legacy.run in Hrun. rewrite H in Hrun. injection Hrun as Hrun. eauto.
Qed.

(** X12: a run gets as far as the call of the network exactly when there
    are at most two positional arguments, the [--from] value and every
    [--to] value are acceptable addresses, the subject is not empty, there
    is a [--to] value, the choice of the bodies succeeds, a key or a user
    name is present, every attachment can be read, with a template id
    every substitution has an ["="] and, on the user/password API, there
    is no [--cc] value. *)
Theorem run_callsNetwork_iff (f : Flags) (args : list string) :
  callsNetwork (Legacy.run h f args) <->
  length args <= 2 /\ acceptable (flag_from f) /\ flag_subject f <> EmptyString /\
  flag_to f <> [] /\ Forall acceptable (flag_to f) /\
  (exists bodies, contentOf h f args = Ok bodies) /\
  ~ noCredentials h f /\
  Forall (fun fn => exists b, ReadFile h fn = Some b) (flag_att f) /\
  (flag_template_id f <> EmptyString -> Forall (fun sub => contains sub "=") (flag_sub f)) /\
  (flag_key f = EmptyString -> flag_user f <> EmptyString -> flag_cc f = []).
Proof.
  split.
  - intros Hnet. unfold Legacy.run in Hnet.
    destruct (send h f args) as [req| |] eqn:Hsend; [|contradiction|contradiction].
    pose proof (proj1 (send_Ok_iff h f args) (ex_intro _ _ Hsend)) as Hold.
    repeat (split; [apply Hold|]).
    intros Hkey Huser.
    apply send_Ok_route in Hsend as Hroute.
    destruct Hroute as [(k & m & -> & [Hk|Hu])|(m & -> & _ & _)]; [congruence|congruence|].
    destruct (flag_cc f) as [|c cc] eqn:Hcc; [reflexivity|]. exfalso.
    apply sendV2_of_send in Hsend as [Hpanic _].
    rewrite Hpanic in Hnet by (rewrite Hcc; discriminate). exact Hnet.
  - intros (Hlen & Hfrom & Hsubj & Hto & Hall & Hc & Hcred & Hatt & Hsub & Hcc).
    destruct (proj2 (send_Ok_iff h f args)) as [req Hsend]; [auto 10|].
    unfold Legacy.run. rewrite Hsend.
    apply send_Ok_route in Hsend as Hroute.
    destruct Hroute as [(k & m & -> & _)|(m & -> & Hkey & Huser)]; [exact I|].
    apply sendV2_of_send in Hsend as [_ Hposted].
    destruct (Hposted (Hcc Hkey Huser)) as [request ->]. exact I.
Qed.


(** X24: on the user/password API no field of the form carries
    the template id, a substitution or a [cc] address: the keys of the
    form are among the eleven keys of the credentials, the subject, the
    sender, the recipients and the bodies. *)
Theorem run_user_form_keys (f : Flags) (args : list string)
    (request : Legacy.Request) (k v : string) :
  Legacy.run h f args = Legacy.EndedV2 (Legacy.Posted request) ->
  (k, v) ∈ Legacy.Fields request -> k ∈ formKeys.
Proof.
  intros Hrun Hin. unfold Legacy.run in Hrun.
  destruct (send h f args) as [[apiKey m|username password m]| |] eqn:Hsend;
    try discriminate.
  assert (Hcc : flag_cc f = []).
  { destruct (flag_cc f) as [|c cc] eqn:E; [reflexivity|]. exfalso.
    apply send_message in Hsend as Hmsg.
    destruct Hmsg as (from & es & html & plain & p0 & bs & _ & _ & _ & _ & _
                      & HFrom & _ & Hp0 & HTo & HCC & _ & _).
    simpl in *. injection Hrun as Hrun. unfold Legacy.sendV2, Legacy.valuesOf in Hrun.
    rewrite HFrom, Hp0 in Hrun. cbn [lookup list_lookup] in Hrun.
    rewrite HTo, addressToLists_Some, HCC, E in Hrun. discriminate. }
  apply send_Ok in Hsend as Hstages.
  destruct Hstages as (_ & _ & _ & _ & _ & apiKey & m' & _ & _ & Hk & _ & _ & Hreq).
  apply credentialsOf_Ok in Hk as Hcase.
  assert (Hroute : flag_key f = EmptyString /\ flag_user f <> EmptyString).
  { destruct Hcase as [(Hkey & ->)|[(Hkey & Huser & ->)|(_ & _ & -> & Henv)]].
    - rewrite (isEmpty_false _ Hkey) in Hreq. discriminate.
    - auto.
    - rewrite (isEmpty_false _ Henv) in Hreq. discriminate. }
  destruct Hroute as [Hkey Huser].
  destruct (run_user_request f args (ex_intro _ _ Hsend) Hkey Huser Hcc)
    as (from & es & html & plain & bs & values & request' & _ & _ & _ & _
        & Hrun' & Hform & Htable).
  unfold Legacy.run in Hrun'. rewrite Hsend in Hrun'.
  rewrite Hrun in Hrun'. injection Hrun' as <-.
  apply (elem_of_Fields _ _ _ _ k v Hform) in Hin as (key & vals & Hlook & -> & _).
  apply Htable in Hlook. unfold formTable in Hlook. unfold listKey, formKeys.
  destruct (isEmpty plain), (isEmpty html); cbn [app] in Hlook;
    rewrite ?elem_of_cons, elem_of_nil in Hlook;
    repeat (destruct Hlook as [Hlook|Hlook]); try contradiction;
    injection Hlook as -> ->; cbn [length Nat.eqb];
    try (destruct (length (map _ es) =? 1)%nat);
    rewrite ?elem_of_cons; tauto.
Qed.

(** X25: on the user/password API the attachments are not taken
    from the message: each [--att] file is read again and sent as a file
    part with its raw bytes, under the path as field name and the last
    element of the path as file name, in a POST request to the
    [mail.send.json] address. *)
Theorem run_user_form_files (f : Flags) (args : list string) :
  (exists req, send h f args = Ok req) ->
  flag_key f = EmptyString -> flag_user f <> EmptyString -> flag_cc f = [] ->
  exists bs request,
    Forall2 (fun fn b => ReadFile h fn = Some b) (flag_att f) bs /\
    Legacy.run h f args = Legacy.EndedV2 (Legacy.Posted request) /\
    Legacy.Method request = "POST" /\
    Legacy.URL request = "https://api.sendgrid.com/api/mail.send.json" /\
    Legacy.Files request = zip_with filePartOf (flag_att f) bs.
Proof.
  intros Hreq Hkey Huser Hcc.
  destruct (run_user_request f args Hreq Hkey Huser Hcc)
    as (from & es & html & plain & bs & values & request & _ & _ & _ & Hbs
        & Hrun & Hform & _).
  exists bs, request. split; [exact Hbs|]. split; [exact Hrun|].
  unfold Legacy.newMultipPartForm in Hform.
  rewrite (fileParts_readable _ _ Hbs) in Hform. injection Hform as <-. auto.
Qed.

End LegacyFacts.

Lemma run_user_cc_panics_witness :
  Legacy.run Sample.host (Props.withCC ["carol@example.com"] Sample.userOnlyFlags) ["hello"]
  = Legacy.EndedV2 Legacy.Panicked.
Proof.
  apply (run_user_cc_panics Sample.host
           (Props.withCC ["carol@example.com"] Sample.userOnlyFlags) ["hello"]).
  - eexists. reflexivity.
  - reflexivity.
  - discriminate.
  - discriminate.
Defined.

(** * The earlier revision against the latest one *)

Section Revisions.
Import Strings Spec Props Mail Cmd.
Variable h : Host.

Lemma Root_send_latest (f : Flags) (args : list string) :
  flag_template_id f = EmptyString -> flag_user f = EmptyString ->
  Root.send h f args
  = match send h f args with
    | Ok (SendV3 apiKey m) => Root.Sent apiKey m
    | Ok (SendV2 _ _ _) => Root.Panicked
    | Fatal CredentialsMissing => Root.KeyMissing
    | Fatal e => Root.Ended e
    | Panic => Root.Panicked
    end.
Proof.
  intros Ht Hu. unfold Root.send, send.
  destruct (recipientsOf f args) as [[[from tos] ccs]|e|] eqn:Hr; simpl.
  2:{ apply recipientsOf_Fatal in Hr. destruct e; try reflexivity.
      destruct Hr as [|[|]]; discriminate. }
  2:{ reflexivity. }
  assert (Hc : Root.contentOf h f args = contentOf h f args).
  { unfold Root.contentOf, contentOf. rewrite Ht. reflexivity. }
  rewrite Hc. destruct (contentOf h f args) as [[html plain]|e|] eqn:Hcont; simpl.
  2:{ apply contentOf_Fatal in Hcont. destruct e; try reflexivity.
      destruct Hcont; discriminate. }
  2:{ reflexivity. }
  assert (Hm : Root.messageOf h f from tos ccs html plain
               = messageOf h f from tos ccs html plain).
  { unfold Root.messageOf, messageOf. rewrite Ht. simpl.
    destruct (index tos 0) as [to0| |]; simpl; try reflexivity.
    destruct (if (1 <? length tos)%nat then _ else _) as [m1| |]; simpl; try reflexivity.
    destruct (if (0 <? length ccs)%nat then _ else _) as [m2| |]; simpl; try reflexivity.
    destruct (attachAll h (flag_att f) m2); reflexivity. }
  rewrite Hm. unfold Root.keyOf, credentialsOf. rewrite Hu.
  change (isEmpty "") with true. rewrite andb_true_r.
  destruct (isEmpty (flag_key f)) eqn:Hk.
  - destruct (isEmpty (Getenv h "SENDGRID_API_KEY")) eqn:He; simpl; [reflexivity|].
    destruct (messageOf h f from tos ccs html plain) as [m|e|] eqn:Hmsg; simpl.
    + rewrite He. reflexivity.
    + apply messageOf_Fatal in Hmsg. destruct e; try reflexivity.
      destruct Hmsg; discriminate.
    + reflexivity.
  - simpl. destruct (messageOf h f from tos ccs html plain) as [m|e|] eqn:Hmsg; simpl.
    + rewrite Hk. reflexivity.
    + apply messageOf_Fatal in Hmsg. destruct e; try reflexivity.
      destruct Hmsg; discriminate.
    + reflexivity.
Qed.

(** X26: a command line without a template id and without a
    user name does in the latest revision what it did in the revision of
    [cmd/root.go]: the same message goes to the key API with the same key,
    and the run ends in the same fatal errors, the error of the missing
    key being the one of the missing credentials. *)
Theorem Root_send_compatible (f : Flags) (args : list string) :
  flag_template_id f = EmptyString -> flag_user f = EmptyString ->
  (forall apiKey m, Root.send h f args = Root.Sent apiKey m
                    <-> send h f args = Ok (SendV3 apiKey m)) /\
  (Root.send h f args = Root.KeyMissing <-> send h f args = Fatal CredentialsMissing) /\
  (forall e, Root.send h f args = Root.Ended e
             <-> send h f args = Fatal e /\ kind e <> MissingCredentialsError).
Proof.
  intros Ht Hu. rewrite (Root_send_latest f args Ht Hu).
  destruct (send h f args) as [[apiKey m|username password m]|e|] eqn:Hsend.
  - split; [|split].
    + intros k m0. split; intros [= -> ->]; reflexivity.
    + split; discriminate.
    + intros e. split; [discriminate|intros [H _]; discriminate H].
  - exfalso. apply send_Ok in Hsend
      as (_ & _ & _ & _ & _ & apiKey & m' & _ & _ & Hk & _ & _ & Hreq).
    apply credentialsOf_Ok in Hk as [(Hkey & ->)|[(_ & Huser & _)|(_ & _ & -> & Henv)]].
    + rewrite (isEmpty_false _ Hkey) in Hreq. discriminate.
    + congruence.
    + rewrite (isEmpty_false _ Henv) in Hreq. discriminate.
  - destruct e; (split; [|split]);
      try (intros k m0; split; discriminate);
      try (split; discriminate);
      try (split; reflexivity);
      try (intros e'; split;
           [intros [= <-]; split; [reflexivity|discriminate]
           |intros [[= <-] _]; reflexivity]).
    intros e'. split; [discriminate|].
    intros [[= <-] H]. exfalso. apply H. reflexivity.
  - split; [|split].
    + intros k m0. split; discriminate.
    + split; discriminate.
    + intros e. split; [discriminate|intros [H _]; discriminate H].
Qed.

End Revisions.

(** * The size of an attachment *)

Section Base64Facts.

(** X28: the content of an attachment has four bytes for every three
    bytes of the file, the last group being padded. *)
Theorem EncodeToString_length (src : string) :
  String.length (Base64.EncodeToString src) = 4 * ((String.length src + 2) / 3).
Proof.
  assert (H : forall n src, String.length src <= n ->
                String.length (Base64.EncodeToString src)
                = 4 * ((String.length src + 2) / 3)).
  { clear src. induction n as [|n IH]; intros src Hn.
    - destruct src; [reflexivity|simpl in Hn; lia].
    - destruct src as [|a [|b [|c rest]]]; try reflexivity.
      cbn [Base64.EncodeToString String.length]. rewrite IH by (simpl in Hn; lia).
      replace (S (S (S (String.length rest))) + 2) with (1 * 3 + (String.length rest + 2)) by lia.
      rewrite Nat.div_add_l by lia. lia. }
  apply (H (String.length src)). lia.
Qed.

End Base64Facts.

(** * The statements about the run on the sample host *)

Section MoreExamples.
Import Strings Spec Props Mail Cmd.

Lemma send_route_witness :
  exists req,
    send Sample.host Sample.userOnlyFlags ["hello"] = Ok req /\
    ((flag_key Sample.userOnlyFlags <> EmptyString /\
      exists m, req = SendV3 (flag_key Sample.userOnlyFlags) m) \/
     (flag_key Sample.userOnlyFlags = EmptyString /\
      flag_user Sample.userOnlyFlags <> EmptyString /\
      exists m, req = SendV2 (flag_user Sample.userOnlyFlags)
                        (flag_password Sample.userOnlyFlags) m) \/
     (flag_key Sample.userOnlyFlags = EmptyString /\
      flag_user Sample.userOnlyFlags = EmptyString /\
      Getenv Sample.host "SENDGRID_API_KEY" <> EmptyString /\
      exists m, req = SendV3 (Getenv Sample.host "SENDGRID_API_KEY") m)).
Proof.
  eexists. split; [reflexivity|].
  apply (send_route Sample.host Sample.userOnlyFlags ["hello"]). reflexivity.
Defined.

Lemma send_ignores_cc_values_witness :
  send Sample.host (withCC ["dave@example.com"] Sample.flags) ["hello"]
  = send Sample.host Sample.flags ["hello"].
Proof.
  apply (send_ignores_cc_values Sample.host Sample.flags ["hello"] ["dave@example.com"]).
  reflexivity.
Defined.

Lemma send_ignores_sub_without_template_witness :
  send Sample.host (withSub ["no equals sign"] Sample.flags) ["hello"]
  = send Sample.host Sample.flags ["hello"].
Proof.
  apply (send_ignores_sub_without_template Sample.host Sample.flags ["hello"]
           ["no equals sign"]).
  reflexivity.
Defined.

Lemma send_envelope_witness :
  exists req,
    send Sample.host Sample.templateFlags [] = Ok req /\
    exists from html plain,
      createAddress (flag_from Sample.templateFlags) = Ok from /\
      contentOf Sample.host Sample.templateFlags [] = Ok (html, plain) /\
      From (messageOfRequest req) = Some from /\
      Subject (messageOfRequest req) = flag_subject Sample.templateFlags /\
      flag_subject Sample.templateFlags <> EmptyString /\
      TemplateID (messageOfRequest req) = flag_template_id Sample.templateFlags /\
      Contents (messageOfRequest req) = bodyContents html plain.
Proof.
  eexists. split; [reflexivity|].
  apply (send_envelope Sample.host Sample.templateFlags []). reflexivity.
Defined.

Lemma send_substitution_witness :
  exists req,
    send Sample.host Sample.templateFlags [] = Ok req /\
    exists p, Personalizations (messageOfRequest req) = [p] /\
              Substitutions p !! placeholder "name" = Some "John Doe".
Proof.
  eexists. split; [reflexivity|].
  apply (send_substitution Sample.host Sample.templateFlags [] _ [] ["price=$42"]
           "name" "John Doe").
  - reflexivity.
  - discriminate.
  - reflexivity.
  - apply absent_of_Index_None. reflexivity.
  - repeat constructor.
Defined.

Lemma send_recipients_witness :
  exists req,
    send Sample.host Sample.flags ["hello"] = Ok req /\
    exists p es,
      Personalizations (messageOfRequest req) = [p] /\
      Forall2 (fun raw e => createAddress raw = Ok e) (flag_to Sample.flags) es /\
      To p = map Some es /\ CC p = replicate (length (flag_cc Sample.flags)) None.
Proof.
  eexists. split; [reflexivity|].
  apply (send_recipients Sample.host Sample.flags ["hello"]). reflexivity.
Defined.

Lemma send_attachments_witness :
  exists req,
    send Sample.host Sample.attachmentFlags ["hello"] = Ok req /\
    exists bs,
      Forall2 (fun fn b => ReadFile Sample.host fn = Some b) (flag_att Sample.attachmentFlags) bs /\
      Attachments (messageOfRequest req)
      = zip_with (attachmentOf Sample.host) (flag_att Sample.attachmentFlags) bs.
Proof.
  eexists. split; [reflexivity|].
  apply (send_attachments Sample.host Sample.attachmentFlags ["hello"]). reflexivity.
Defined.

Lemma TypeByExtension_without_dot_witness :
  Mime.TypeByExtension Sample.host "report.pdf" = EmptyString.
Proof.
  apply (TypeByExtension_without_dot Sample.host "report.pdf");
    [apply Sample_dottedKeys|reflexivity|reflexivity].
Defined.


Lemma run_user_form_files_witness :
  exists bs request,
    Forall2 (fun fn b => ReadFile Sample.host fn = Some b)
      (flag_att Sample.userAttachmentFlags) bs /\
    Legacy.run Sample.host Sample.userAttachmentFlags ["<p>hi</p>"]
    = Legacy.EndedV2 (Legacy.Posted request) /\
    Legacy.Method request = "POST" /\
    Legacy.URL request = "https://api.sendgrid.com/api/mail.send.json" /\
    Legacy.Files request = zip_with filePartOf (flag_att Sample.userAttachmentFlags) bs.
Proof.
  apply (run_user_form_files Sample.host Sample.userAttachmentFlags ["<p>hi</p>"]).
  - eexists. reflexivity.
  - reflexivity.
  - discriminate.
  - reflexivity.
Defined.

Lemma run_user_form_keys_witness : "to[]" ∈ formKeys.
Proof.
  eapply (run_user_form_keys Sample.host Sample.userAttachmentFlags ["<p>hi</p>"]
            _ "to[]" "bob@example.com").
  - reflexivity.
  - vm_compute. repeat constructor.
Defined.

Lemma Root_send_compatible_witness :
  (forall apiKey m, Root.send Sample.host Sample.flags ["hello"] = Root.Sent apiKey m
                    <-> send Sample.host Sample.flags ["hello"] = Ok (SendV3 apiKey m)) /\
  (Root.send Sample.host Sample.flags ["hello"] = Root.KeyMissing
   <-> send Sample.host Sample.flags ["hello"] = Fatal CredentialsMissing) /\
  (forall e, Root.send Sample.host Sample.flags ["hello"] = Root.Ended e
             <-> send Sample.host Sample.flags ["hello"] = Fatal e /\
                 kind e <> MissingCredentialsError).
Proof. apply (Root_send_compatible Sample.host Sample.flags ["hello"]); reflexivity. Defined.

(** C7 on the code: with a user name and no password, no API key flag and
    no API key in the environment, neither an API key nor a user name with
    a password is present, and the run does not end in the fatal error
    that asks for "username and password": the check reads the user name
    only, and the form goes to the user/password API with the user name
    and an empty [api_key]. *)
Theorem C7_password_not_checked :
  ~ credentialsPresent Sample.host Sample.userOnlyFlags /\
  flag_user Sample.userOnlyFlags = "john" /\
  flag_password Sample.userOnlyFlags = EmptyString /\
  credentialsOf Sample.host Sample.userOnlyFlags = Ok EmptyString /\
  exists m request,
    send Sample.host Sample.userOnlyFlags ["hello"] = Ok (SendV2 "john" EmptyString m) /\
    Legacy.run Sample.host Sample.userOnlyFlags ["hello"]
    = Legacy.EndedV2 (Legacy.Posted request) /\
    ("api_user", "john") ∈ Legacy.Fields request /\
    ("api_key", EmptyString) ∈ Legacy.Fields request.
Proof.
  split.
  { unfold credentialsPresent. simpl. intros [H|[H|[_ H]]]; apply H; reflexivity. }
  split; [reflexivity|]. split; [reflexivity|]. split; [reflexivity|].
  eexists. eexists. split; [reflexivity|]. split; [reflexivity|].
  split; vm_compute; repeat constructor.
Qed.

End MoreExamples.
